(** * Index synchronisation signal processor (cl/lib/es_signal_processor.py)

    A shallow embedding of the Elasticsearch signal processor: the
    field-change detector, the document resolver, the field projector, the
    update router and the five change-event handlers.  Index mutations are
    never performed by the handlers; they are handed to the task queue, which
    is modelled as the list of tasks enqueued so far. *)

From Stdlib Require Import String Ascii List ZArith Bool Lia DecimalString.
Import ListNotations.
Open Scope string_scope.
Open Scope list_scope.

(** ** Strings, as the handlers use them *)

Module Str.

Definition startswith (s p : string) : bool := String.prefix p s.

Fixpoint rev_acc (s acc : string) : string :=
  match s with
  | EmptyString => acc
  | String c s' => rev_acc s' (String c acc)
  end.

Definition rev (s : string) : string := rev_acc s EmptyString.

Definition endswith (s p : string) : bool := String.prefix (rev p) (rev s).

Definition lower_ascii (c : ascii) : ascii :=
  let n := nat_of_ascii c in
  if (65 <=? n)%nat && (n <=? 90)%nat then ascii_of_nat (n + 32) else c.

Fixpoint lower (s : string) : string :=
  match s with
  | EmptyString => EmptyString
  | String c s' => String (lower_ascii c) (lower s')
  end.

(** [s.split("__")], scanning left to right; [skip] counts the separator
    characters still to drop and [cur] is the piece being read, reversed. *)
Fixpoint split_dunder (s : string) (skip : nat) (cur : string) : list string :=
  match s with
  | EmptyString => [rev cur]
  | String c s' =>
      match skip with
      | S k => split_dunder s' k cur
      | O =>
          if String.prefix "__" s
          then rev cur :: split_dunder s' 1 EmptyString
          else split_dunder s' 0 (String c cur)
      end
  end.

(** [query_string.split("__")[-1]] *)
Definition last_lookup (query_string : string) : string :=
  List.last (split_dunder query_string 0 EmptyString) EmptyString.

End Str.

(** ** Entities, documents and values *)

Inductive ModelClass :=
| Audio | Person | ABARating | PoliticalAffiliation | School | Education
| Docket | BankruptcyInformation
| OtherModel (name : string).

Definition ModelClass_eqb (a b : ModelClass) : bool :=
  match a, b with
  | Audio, Audio | Person, Person | ABARating, ABARating
  | PoliticalAffiliation, PoliticalAffiliation | School, School
  | Education, Education | Docket, Docket
  | BankruptcyInformation, BankruptcyInformation => true
  | OtherModel n, OtherModel m => String.eqb n m
  | _, _ => false
  end.

(** [Model.__name__] *)
Definition class_name (c : ModelClass) : string :=
  match c with
  | Audio => "Audio" | Person => "Person" | ABARating => "ABARating"
  | PoliticalAffiliation => "PoliticalAffiliation" | School => "School"
  | Education => "Education" | Docket => "Docket"
  | BankruptcyInformation => "BankruptcyInformation"
  | OtherModel name => name
  end.

Inductive ESDocument :=
| AudioDocument | DocketDocument | ESRECAPDocument
| ParentheticalGroupDocument | PersonDocument | PositionDocument.

(** [a is b] on document classes *)
Definition ESDocument_is (a b : ESDocument) : bool :=
  match a, b with
  | AudioDocument, AudioDocument | DocketDocument, DocketDocument
  | ESRECAPDocument, ESRECAPDocument
  | ParentheticalGroupDocument, ParentheticalGroupDocument
  | PersonDocument, PersonDocument | PositionDocument, PositionDocument => true
  | _, _ => false
  end.

(** A model instance is a row of the relational store: its class and its
    primary key.  What its attributes hold is read from the store. *)
Record Entity := { e_class : ModelClass; pk : Z }.

Inductive Value :=
| VNone
| VBool (b : bool)
| VInt (z : Z)
| VStr (s : string)
| VInts (l : list Z)
| VObj (o : Entity).

Definition Entity_eqb (a b : Entity) : bool :=
  ModelClass_eqb (e_class a) (e_class b) && (pk a =? pk b)%Z.

Fixpoint Zlist_eqb (a b : list Z) : bool :=
  match a, b with
  | [], [] => true
  | x :: a', y :: b' => (x =? y)%Z && Zlist_eqb a' b'
  | _, _ => false
  end.

(** Python's [==] on the values the handlers compare. *)
Definition Value_eqb (a b : Value) : bool :=
  match a, b with
  | VNone, VNone => true
  | VBool x, VBool y => Bool.eqb x y
  | VBool x, VInt z | VInt z, VBool x => (Z.b2z x =? z)%Z
  | VInt x, VInt y => (x =? y)%Z
  | VStr x, VStr y => String.eqb x y
  | VInts x, VInts y => Zlist_eqb x y
  | VObj x, VObj y => Entity_eqb x y
  | _, _ => false
  end.

(** Python truthiness *)
Definition truthy (v : Value) : bool :=
  match v with
  | VNone => false
  | VBool b => b
  | VInt z => negb (z =? 0)%Z
  | VStr s => negb (String.eqb s "")
  | VInts l => match l with [] => false | _ => true end
  | VObj _ => true
  end.

(** Identifiers in the index: a primary key, or a primary key under the
    namespace of a child document type. *)
Inductive DocId := IntId (z : Z) | ChildId (namespace : string) (z : Z).

(** [ES_CHILD_ID(pk)] : the namespaced identifiers of child documents. *)
Record ChildIds := { POSITION : DocId; RECAP : DocId }.

(** Dictionaries keep insertion order; assigning to a present key keeps its
    place and replaces its value. *)
Module Dict.
Section Dict.
Context {V : Type}.

Definition t := list (string * V).

Fixpoint get (d : t) (k : string) : option V :=
  match d with
  | [] => None
  | (k', v) :: d' => if String.eqb k k' then Some v else get d' k
  end.

Fixpoint set (d : t) (k : string) (v : V) : t :=
  match d with
  | [] => [(k, v)]
  | (k', v') :: d' =>
      if String.eqb k k' then (k', v) :: d' else (k', v') :: set d' k v
  end.

Definition keys (d : t) : list string := map fst d.

Definition mem (k : string) (d : t) : bool :=
  existsb (String.eqb k) (keys d).
End Dict.
Arguments t : clear implicits.
End Dict.

(** A document fetched from the index: its class, its identifier and the
    fields stored under it. *)
Record ESDoc := {
  doc_class : ESDocument;
  doc_id : DocId;
  stored_fields : Dict.t Value
}.

(** [bool(document)]: a document fetched with no stored field is falsy. *)
Definition doc_truthy (document : ESDoc) : bool :=
  match stored_fields document with
  | [] => false
  | _ => true
  end.

(** ** Exceptions and the task queue *)

(** [PrepareError] stands for whatever exception leaves a [prepare_] method
    of a document (they traverse relations of the instance); no handler
    catches one, so its class plays no part. *)
Inductive Exn :=
| KeyError | AttributeError | IndexError | ObjectDoesNotExist | PrepareError.

Inductive Outcome (A : Type) :=
| Return (a : A)
| Raise (e : Exn).
Arguments Return {A} a.
Arguments Raise {A} e.

(** A field map of a save mapping: source field (or "get_X_display") to the
    document fields it feeds. *)
Definition FieldsMap := Dict.t (list string).

(** Steps of a chain.  [.si] is an immutable signature (it ignores the result
    of its predecessor); [.s] is a partial one, completed with the
    predecessor's result. *)
Inductive Signature :=
| save_document_in_es_si (instance : Entity) (es_document : ESDocument)
| send_or_schedule_alerts_s (index_name : string)
| process_percolator_response_s.

Inductive Task :=
| save_document_in_es_delay (instance : Entity) (es_document : ESDocument)
| update_document_in_es_delay (main_doc : ESDoc) (fields_values : Dict.t Value)
| update_child_documents_by_query_delay
    (es_document : ESDocument) (parent : Value) (fields_to_update : list string)
    (fields_map : option FieldsMap)
| remove_doc_from_es_index_delay (es_document : ESDocument) (instance_id : Z)
| chain_apply_async (steps : list Signature).

(** Handlers run against the queue of tasks enqueued so far; an exception
    leaves what was enqueued before it. *)
Definition Celery (A : Type) : Type := list Task -> Outcome A * list Task.

Definition ret {A} (a : A) : Celery A := fun q => (Return a, q).

Definition raise {A} (e : Exn) : Celery A := fun q => (Raise e, q).

Definition bind {A B} (m : Celery A) (k : A -> Celery B) : Celery B :=
  fun q =>
    match m q with
    | (Return a, q') => k a q'
    | (Raise e, q') => (Raise e, q')
    end.

Definition delay (t : Task) : Celery unit := fun q => (Return tt, q ++ [t]).

Definition lift {A} (o : Outcome A) : Celery A := fun q => (o, q).

Declare Scope celery_scope.
Delimit Scope celery_scope with celery.
Notation "x <- c1 ;; c2" := (bind c1 (fun x => c2))
  (at level 61, c1 at next level, right associativity) : celery_scope.
Notation "c1 ;; c2" := (bind c1 (fun _ => c2))
  (at level 61, right associativity) : celery_scope.
Open Scope celery_scope.

(** [for x in xs: body x] *)
Fixpoint for_each {A} (xs : list A) (body : A -> Celery unit) : Celery unit :=
  match xs with
  | [] => ret tt
  | x :: rest => body x ;; for_each rest body
  end.

(** ** The stores the handlers read *)

(** Outcome of reading an attribute of an instance: its value, no such
    attribute, or a relation whose target row is gone. *)
Inductive Attr :=
| Found (v : Value)
| NoAttribute
| RelatedGone.

(** What a call [prepare_method(instance)] comes to: the value it returns,
    or an exception that leaves it. *)
Inductive Prepared :=
| Prepares (v : Value)
| PrepareRaises.

Definition prepared_value (p : Prepared) : Outcome Value :=
  match p with
  | Prepares v => Return v
  | PrepareRaises => Raise PrepareError
  end.

(** django-model-utils field tracker: the tracked names and the snapshot. *)
Record FieldTracker := { fields : list string; previous : string -> Value }.

Record World := {
  (* settings.ELASTICSEARCH_DISABLED *)
  ELASTICSEARCH_DISABLED : bool;
  (* getattr(instance, name) *)
  getattr : Entity -> string -> Attr;
  (* getattr(instance, name)() for the get_X_display accessors *)
  call_method : Entity -> string -> Attr;
  (* cls._meta.get_field(name).get_internal_type(); None: FieldDoesNotExist *)
  get_field : ModelClass -> string -> option string;
  (* isinstance(getattr(cls, name, None), property) *)
  is_property : ModelClass -> string -> bool;
  (* getattr(instance, "es_.._field_tracker", None) *)
  field_tracker : Entity -> string -> option FieldTracker;
  (* Model.objects.filter with the keyword query = instance *)
  objects_filter : ModelClass -> string -> Value -> list Entity;
  (* es_document.get(id=doc_id); None: NotFoundError *)
  es_get : ESDocument -> DocId -> option ESDoc;
  (* es_document.exists(pk) *)
  es_exists : ESDocument -> Z -> bool;
  (* getattr(doc, "prepare_" + name, None) *)
  prepare : ESDocument -> string -> option (Entity -> Prepared);
  (* es_document._index._name *)
  index_name : ESDocument -> string;
  (* ES_CHILD_ID, imported from cl.search.documents *)
  ES_CHILD_ID : Z -> ChildIds
}.


(** ** The signal processor *)

Section Processor.

Variable w : World.

(** *** Field-change detector *)

(** The tracker [updated_fields] consults for a document type. *)
Definition tracked_set (instance : Entity) (es_document : ESDocument)
  : option FieldTracker :=
  match es_document with
  | AudioDocument => field_tracker w instance "es_oa_field_tracker"
  | ParentheticalGroupDocument => field_tracker w instance "es_pa_field_tracker"
  | ESRECAPDocument | DocketDocument =>
      field_tracker w instance "es_rd_field_tracker"
  | PositionDocument => field_tracker w instance "es_p_field_tracker"
  | PersonDocument => None
  end.

Definition hasattr (instance : Entity) (name : string) : bool :=
  match getattr w instance name with
  | NoAttribute => false
  | _ => true
  end.

(** [current_value.pk] *)
Definition pk_of (v : Value) : Outcome Value :=
  match v with
  | VObj o => Return (VInt (pk o))
  | _ => Raise AttributeError
  end.

(** One turn of the loop over [tracked_set.fields]: [None] stands for
    [continue], [Some v] for the value that is compared with the snapshot. *)
Definition current_value_to_compare (instance : Entity) (field : string)
  : Outcome (option Value) :=
  match getattr w instance field with
  | NoAttribute => Raise AttributeError
  | RelatedGone => Raise ObjectDoesNotExist
  | Found current_value =>
      match get_field w (e_class instance) field with
      | Some internal_type =>
          if String.eqb internal_type "ForeignKey"
             && truthy current_value
             && negb (Str.endswith field "_id")
          then match pk_of current_value with
               | Return v => Return (Some v)
               | Raise e => Raise e
               end
          else Return (Some current_value)
      | None =>
          (* except FieldDoesNotExist *)
          if negb (hasattr instance field)
             && negb (is_property w (e_class instance) field)
          then Return None
          else Return (Some current_value)
      end
  end.

Fixpoint updated_fields_loop (instance : Entity) (tracker : FieldTracker)
  (todo : list string) (changed_fields : list string) : Outcome (list string) :=
  match todo with
  | [] => Return changed_fields
  | field :: rest =>
      match current_value_to_compare instance field with
      | Raise e => Raise e
      | Return None => updated_fields_loop instance tracker rest changed_fields
      | Return (Some current_value) =>
          if negb (Value_eqb current_value (previous tracker field))
          then updated_fields_loop instance tracker rest
                 (changed_fields ++ [field])
          else updated_fields_loop instance tracker rest changed_fields
      end
  end.

Definition updated_fields (instance : Entity) (es_document : ESDocument)
  : Outcome (list string) :=
  match tracked_set instance es_document with
  | None => Return []
  | Some tracker => updated_fields_loop instance tracker (fields tracker) []
  end.

(** *** Field selection and projection *)

Definition display_of (field : string) : string :=
  "get_" ++ field ++ "_display".

Fixpoint get_fields_to_update_loop (changed_fields : list string)
  (fields_map : FieldsMap) (fields_to_update : list string) : list string :=
  match changed_fields with
  | [] => fields_to_update
  | field :: rest =>
      let acc1 :=
        if Dict.mem field fields_map
        then fields_to_update ++ [field] else fields_to_update in
      let acc2 :=
        if Dict.mem (display_of field) fields_map
        then acc1 ++ [display_of field] else acc1 in
      get_fields_to_update_loop rest fields_map acc2
  end.

Definition get_fields_to_update (changed_fields : list string)
  (fields_map : FieldsMap) : list string :=
  get_fields_to_update_loop changed_fields fields_map [].

Definition attr_value (a : Attr) : Outcome Value :=
  match a with
  | Found v => Return v
  | NoAttribute => Raise AttributeError
  | RelatedGone => Raise ObjectDoesNotExist
  end.

(** The inner loop of [document_fields_to_update], over the document fields a
    source field feeds. *)
Fixpoint project_doc_fields (main_doc : ESDoc) (main_object : Entity)
  (field : string) (instance : Entity) (document_fields : list string)
  (fields_to_update : Dict.t Value) : Outcome (Dict.t Value) :=
  match document_fields with
  | [] => Return fields_to_update
  | doc_field :: rest =>
      let value :=
        if Str.startswith field "get_" && Str.endswith field "_display"
        then attr_value (call_method w instance field)
        else match prepare w (doc_class main_doc) doc_field with
             | Some prepare_method => prepared_value (prepare_method main_object)
             | None => attr_value (getattr w instance field)
             end in
      match value with
      | Raise e => Raise e
      | Return v =>
          project_doc_fields main_doc main_object field instance rest
            (Dict.set fields_to_update doc_field v)
      end
  end.

Fixpoint document_fields_to_update_loop (main_doc : ESDoc)
  (main_object : Entity) (field_list : list string) (instance : Entity)
  (fields_map : FieldsMap) (fields_to_update : Dict.t Value)
  : Outcome (Dict.t Value) :=
  match field_list with
  | [] => Return fields_to_update
  | field :: rest =>
      match Dict.get fields_map field with
      | None => Raise KeyError
      | Some document_fields =>
          match project_doc_fields main_doc main_object field instance
                  document_fields fields_to_update with
          | Raise e => Raise e
          | Return d =>
              document_fields_to_update_loop main_doc main_object rest
                instance fields_map d
          end
      end
  end.

Definition document_fields_to_update (main_doc : ESDoc) (main_object : Entity)
  (field_list : list string) (instance : Entity) (fields_map : FieldsMap)
  : Outcome (Dict.t Value) :=
  document_fields_to_update_loop main_doc main_object field_list instance
    fields_map [].

(** *** Document resolver *)

(** The identifier [get_or_create_doc] looks up: namespaced for the child
    documents, the primary key otherwise. *)
Definition doc_id_of (es_document : ESDocument) (instance : Entity) : DocId :=
  match es_document with
  | PositionDocument => POSITION (ES_CHILD_ID w (pk instance))
  | ESRECAPDocument => RECAP (ES_CHILD_ID w (pk instance))
  | _ => IntId (pk instance)
  end.

Definition get_or_create_doc (es_document : ESDocument) (instance : Entity)
  (avoid_creation : bool) : Celery (option ESDoc) :=
  let doc_id := doc_id_of es_document instance in
  match es_get w es_document doc_id with
  | Some main_doc => ret (Some main_doc)
  | None =>
      (* except NotFoundError *)
      (if negb avoid_creation
       then delay (save_document_in_es_delay instance es_document)
       else ret tt) ;;
      ret None
  end.

(** *** Update router: direct mappings *)

Definition is_one_of (instance : Entity) (classes : list ModelClass) : bool :=
  existsb (ModelClass_eqb (e_class instance)) classes.

(** The body of the loop over [mapping_fields.items()]. *)
Definition update_es_documents_entry (main_model : ModelClass)
  (es_document : ESDocument) (instance : Entity)
  (changed_fields : list string) (query : string) (fields_map : FieldsMap)
  : Celery unit :=
  let fields_to_update := get_fields_to_update changed_fields fields_map in
  if is_one_of instance [Person] && ESDocument_is es_document PositionDocument
     && String.eqb query "person"
  then
    delay (update_child_documents_by_query_delay
             es_document (VObj instance) fields_to_update (Some fields_map))
  else if is_one_of instance [ABARating; PoliticalAffiliation; School]
          && ESDocument_is es_document PositionDocument
  then
    for_each (objects_filter w Person query (VObj instance)) (fun person =>
      delay (update_child_documents_by_query_delay
               es_document (VObj person) fields_to_update (Some fields_map)))
  else if is_one_of instance [Docket]
          && ESDocument_is es_document ESRECAPDocument
  then
    delay (update_child_documents_by_query_delay
             es_document (VObj instance) fields_to_update (Some fields_map))
  else if is_one_of instance [Person]
          && ESDocument_is es_document ESRECAPDocument
  then
    for_each (objects_filter w Docket query (VObj instance)) (fun rel_docket =>
      delay (update_child_documents_by_query_delay
               es_document (VObj rel_docket) fields_to_update
               (Some fields_map)))
  else
    for_each (objects_filter w main_model query (VObj instance))
      (fun main_object =>
      main_doc <- get_or_create_doc es_document main_object false ;;
      match main_doc with
      | None => ret tt
      | Some main_doc =>
          if negb (doc_truthy main_doc) then ret tt
          else
            match fields_to_update with
            | [] => ret tt
            | _ =>
                payload <- lift (document_fields_to_update main_doc
                                   main_object fields_to_update instance
                                   fields_map) ;;
                delay (update_document_in_es_delay main_doc payload)
            end
      end).

Definition update_es_documents (main_model : ModelClass)
  (es_document : ESDocument) (instance : Entity) (created : bool)
  (mapping_fields : Dict.t FieldsMap) : Celery unit :=
  if created then ret tt
  else
    changed_fields <- lift (updated_fields instance es_document) ;;
    match changed_fields with
    | [] => ret tt
    | _ =>
        for_each mapping_fields (fun '(query, fields_map) =>
          update_es_documents_entry main_model es_document instance
            changed_fields query fields_map)
    end.

(** *** Update router: many-to-many mappings *)

Definition update_m2m_field_in_es_document (instance : Entity)
  (es_document : ESDocument) (affected_field : string) : Celery unit :=
  document <- get_or_create_doc es_document instance false ;;
  match document with
  | None => ret tt
  | Some document =>
      if negb (doc_truthy document) then ret tt
      else
        match prepare w (doc_class document) affected_field with
        | None => raise AttributeError
        | Some prepare_method =>
            get_m2m_value <- lift (prepared_value (prepare_method instance)) ;;
            delay (update_document_in_es_delay document
                     [(affected_field, get_m2m_value)])
        end
  end.

Definition update_remove_m2m_documents (main_model : ModelClass)
  (es_document : ESDocument) (instance : Entity)
  (mapping_fields : Dict.t (Dict.t string)) (affected_field : string)
  : Celery unit :=
  for_each mapping_fields (fun '(key, _) =>
    if negb (String.eqb (Str.lower (class_name main_model)) key)
    then
      for_each (objects_filter w main_model key (VObj instance))
        (fun main_object =>
           update_m2m_field_in_es_document main_object es_document
             affected_field)
    else
      update_m2m_field_in_es_document instance es_document affected_field).

(** *** Update router: reverse mappings *)

(** Attribute access on whatever a lookup path resolved to; only model
    instances carry the attributes a mapping names. *)
Definition getattr_of (v : Value) (name : string) : Attr :=
  match v with
  | VObj o => getattr w o name
  | _ => NoAttribute
  end.

(** [isinstance(v, classes)] *)
Definition is_instance (v : Value) (classes : list ModelClass) : bool :=
  match v with
  | VObj o => is_one_of o classes
  | _ => false
  end.

(** The loop over [affected_fields] in [update_reverse_related_documents]. *)
Fixpoint reverse_fields_to_update (main_doc : ESDoc) (main_object : Entity)
  (instance : Value) (affected_fields : list string)
  (fields_to_update : Dict.t Value) : Outcome (Dict.t Value) :=
  match affected_fields with
  | [] => Return fields_to_update
  | field :: rest =>
      let field_value :=
        match prepare w (doc_class main_doc) field with
        | Some prepare_method => prepared_value (prepare_method main_object)
        | None => attr_value (getattr_of instance field)
        end in
      match field_value with
      | Raise e => Raise e
      | Return v =>
          reverse_fields_to_update main_doc main_object instance rest
            (Dict.set fields_to_update field v)
      end
  end.

Definition update_reverse_related_documents (main_model : ModelClass)
  (es_document : ESDocument) (instance : Value) (query_string : string)
  (affected_fields : list string) : Celery unit :=
  (* Update parent instance *)
  for_each (objects_filter w main_model query_string instance)
    (fun main_object =>
       main_doc <- get_or_create_doc es_document main_object true ;;
       match main_doc with
       | None => ret tt
       | Some main_doc =>
           if negb (doc_truthy main_doc) then ret tt
           else
             fields_to_update <-
               lift (reverse_fields_to_update main_doc main_object instance
                       affected_fields []) ;;
             delay (update_document_in_es_delay main_doc fields_to_update)
       end) ;;
  if is_instance instance [ABARating; PoliticalAffiliation; Education]
     && ESDocument_is es_document PersonDocument
  then
    for_each (objects_filter w Person query_string instance) (fun person =>
      delay (update_child_documents_by_query_delay
               PositionDocument (VObj person) affected_fields None))
  else if is_instance instance [BankruptcyInformation]
          && ESDocument_is es_document DocketDocument
  then
    docket <- lift (attr_value (getattr_of instance "docket")) ;;
    delay (update_child_documents_by_query_delay
             ESRECAPDocument docket affected_fields None)
  else ret tt.

(** The loop over [affected_fields] in [prepare_and_update_fields]. *)
Fixpoint prepared_fields (main_doc : ESDoc) (main_object : Entity)
  (affected_fields : list string) (fields_to_update : Dict.t Value)
  : Outcome (Dict.t Value) :=
  match affected_fields with
  | [] => Return fields_to_update
  | field :: rest =>
      match prepare w (doc_class main_doc) field with
      | None => prepared_fields main_doc main_object rest fields_to_update
      | Some prepare_method =>
          match prepared_value (prepare_method main_object) with
          | Raise e => Raise e
          | Return field_value =>
              prepared_fields main_doc main_object rest
                (Dict.set fields_to_update field field_value)
          end
      end
  end.

Definition prepare_and_update_fields (affected_fields : list string)
  (main_doc : ESDoc) (main_object : Entity) : Celery unit :=
  fields_to_update <-
    lift (prepared_fields main_doc main_object affected_fields []) ;;
  delay (update_document_in_es_delay main_doc fields_to_update).

(** The two parent cases of [delete_reverse_related_documents]. *)
Definition delete_reverse_parent (es_document child_document : ESDocument)
  (instance : Entity) (affected_fields : list string) : Celery unit :=
  main_doc <- get_or_create_doc es_document instance true ;;
  match main_doc with
  | Some main_doc =>
      if doc_truthy main_doc then
        prepare_and_update_fields affected_fields main_doc instance ;;
        delay (update_child_documents_by_query_delay
                 child_document (VObj instance) affected_fields None)
      else ret tt
  | None => ret tt
  end.

Definition delete_reverse_related_documents (main_model : ModelClass)
  (es_document : ESDocument) (instance : Value) (query_string : string)
  (affected_fields : list string) : Celery unit :=
  let related_parents :=
    for_each (objects_filter w main_model query_string instance)
      (fun main_object =>
         main_doc <- get_or_create_doc es_document main_object true ;;
         match main_doc with
         | Some main_doc =>
             if doc_truthy main_doc
             then prepare_and_update_fields affected_fields main_doc
                    main_object
             else ret tt
         | None => ret tt
         end) in
  match instance with
  | VObj o =>
      if is_one_of o [Person] && ESDocument_is es_document PersonDocument
      then delete_reverse_parent es_document PositionDocument o affected_fields
      else if is_one_of o [Docket] && ESDocument_is es_document DocketDocument
      then delete_reverse_parent es_document ESRECAPDocument o affected_fields
      else related_parents
  | _ => related_parents
  end.

(** *** Indexing suppression gate *)

Definition mentions (name : string) (names : list string) : bool :=
  existsb (String.eqb name) names.

Definition avoid_es_audio_indexing (instance : Entity)
  (es_document : ESDocument) (update_fields : option (list string)) : bool :=
  let not_update_fields :=
    match update_fields with
    | None | Some [] => true
    | Some _ => false
    end in
  ModelClass_eqb (e_class instance) Audio
  && negb (es_exists w es_document (pk instance))
  && (not_update_fields
      || (negb not_update_fields
          && match update_fields with
             | Some l => negb (mentions "processing_complete" l)
             | None => false
             end)).

(** *** The processor and its handlers *)

(** A field map of a reverse mapping: the type of the related record (or
    "all") to the document fields it affects. *)
Definition ReverseMap := list (Value * list string).

Fixpoint reverse_get (fields_map : ReverseMap) (k : Value)
  : option (list string) :=
  match fields_map with
  | [] => None
  | (k', v) :: rest => if Value_eqb k k' then Some v else reverse_get rest k
  end.

Definition SenderMap (A : Type) := list (ModelClass * A).

Fixpoint by_sender {A} (m : SenderMap A) (sender : ModelClass) : Outcome A :=
  match m with
  | [] => Raise KeyError
  | (c, a) :: rest =>
      if ModelClass_eqb sender c then Return a else by_sender rest sender
  end.

(** The five sections of [documents_model_mapping]: "save", "delete", "m2m",
    "reverse" and "reverse-delete". *)
Record ModelMapping := {
  save : SenderMap (Dict.t FieldsMap);
  delete : SenderMap (Dict.t FieldsMap);
  m2m : SenderMap (Dict.t (Dict.t string));
  reverse : SenderMap (Dict.t ReverseMap);
  reverse_delete : SenderMap (Dict.t ReverseMap)
}.

Record ESSignalProcessor := {
  main_model : ModelClass;
  es_document : ESDocument;
  documents_model_mapping : ModelMapping
}.

(** Modelled from the spec: the decorator [elasticsearch_enabled] lives in
    cl.lib.elasticsearch_utils, outside the sources at hand; the spec has it
    as the global disable toggle that short-circuits every handler before any
    enqueue and raises nothing. *)
Definition elasticsearch_enabled (handler : Celery unit) : Celery unit :=
  if ELASTICSEARCH_DISABLED w then ret tt else handler.

(** The chain [handle_save] builds for a full re-index. *)
Definition index_and_alert_chain (self : ESSignalProcessor)
  (instance : Entity) : list Signature :=
  [ save_document_in_es_si instance (es_document self);
    send_or_schedule_alerts_s (index_name w (es_document self));
    process_percolator_response_s ].

Definition handle_save (self : ESSignalProcessor) (sender : ModelClass)
  (instance : Entity) (created : bool) (update_fields : option (list string))
  : Celery unit :=
  elasticsearch_enabled (
    mapping_fields <-
      lift (by_sender (save (documents_model_mapping self)) sender) ;;
    (if negb created
     then update_es_documents (main_model self) (es_document self) instance
            created mapping_fields
     else ret tt) ;;
    match mapping_fields with
    | [] =>
        if avoid_es_audio_indexing instance (es_document self) update_fields
        then ret tt
        else delay (chain_apply_async (index_and_alert_chain self instance))
    | _ => ret tt
    end).

Definition handle_delete (self : ESSignalProcessor) (sender : ModelClass)
  (instance : Entity) : Celery unit :=
  elasticsearch_enabled (
    delay (remove_doc_from_es_index_delay (es_document self) (pk instance))).

Definition handle_m2m (self : ESSignalProcessor) (sender : ModelClass)
  (instance : Entity) (action : string) : Celery unit :=
  elasticsearch_enabled (
    if String.eqb action "post_add" || String.eqb action "post_remove"
    then
      mapping_fields <-
        lift (by_sender (m2m (documents_model_mapping self)) sender) ;;
      for_each mapping_fields (fun '(key, fields_map) =>
        match Dict.keys fields_map with
        | [] => raise IndexError
        | affected_field :: _ =>
            update_remove_m2m_documents (main_model self) (es_document self)
              instance mapping_fields affected_field
        end)
    else ret tt).

(** [fields_map[instance.type]], falling back on [fields_map["all"]] after a
    KeyError or an AttributeError. *)
Definition affected_fields_of (instance : Value) (fields_map : ReverseMap)
  : Outcome (list string) :=
  let fallback :=
    match reverse_get fields_map (VStr "all") with
    | Some l => Return l
    | None => Raise KeyError
    end in
  match getattr_of instance "type" with
  | Found type =>
      match reverse_get fields_map type with
      | Some l => Return l
      | None => fallback
      end
  | NoAttribute => fallback
  | RelatedGone => Raise ObjectDoesNotExist
  end.

Definition handle_reverse_actions (self : ESSignalProcessor)
  (sender : ModelClass) (instance : Entity) : Celery unit :=
  elasticsearch_enabled (
    mapping_fields <-
      lift (by_sender (reverse (documents_model_mapping self)) sender) ;;
    for_each mapping_fields (fun '(query_string, fields_map) =>
      affected_fields <-
        lift (affected_fields_of (VObj instance) fields_map) ;;
      let instance_field := Str.last_lookup query_string in
      match getattr w instance instance_field with
      | RelatedGone => raise ObjectDoesNotExist
      | Found related =>
          update_reverse_related_documents (main_model self)
            (es_document self) related query_string affected_fields
      | NoAttribute =>
          update_reverse_related_documents (main_model self)
            (es_document self) (VObj instance) query_string affected_fields
      end)).

(** The loop of [handle_reverse_actions_delete]: [instance] is rebound by
    each turn, and a stale relation leaves the handler. *)
Fixpoint reverse_delete_loop (self : ESSignalProcessor)
  (mapping_fields : Dict.t ReverseMap) (instance : Value) : Celery unit :=
  match mapping_fields with
  | [] => ret tt
  | (query_string, fields_map) :: rest =>
      affected_fields <- lift (affected_fields_of instance fields_map) ;;
      let instance_field := Str.last_lookup query_string in
      match getattr_of instance instance_field with
      | RelatedGone =>
          (* The related objects has already been removed, abort. *)
          ret tt
      | found =>
          let instance :=
            match found with Found related => related | _ => instance end in
          delete_reverse_related_documents (main_model self)
            (es_document self) instance query_string affected_fields ;;
          reverse_delete_loop self rest instance
      end
  end.

Definition handle_reverse_actions_delete (self : ESSignalProcessor)
  (sender : ModelClass) (instance : Entity) : Celery unit :=
  elasticsearch_enabled (
    mapping_fields <-
      lift (by_sender (reverse_delete (documents_model_mapping self)) sender) ;;
    reverse_delete_loop self mapping_fields (VObj instance)).

End Processor.

(** ** Registration *)

(** The signals the processor subscribes to. *)
Inductive Signal := post_save | post_delete | m2m_changed.

(** The bound methods handed to [connect_signals] as handlers. *)
Inductive Receiver :=
| self_handle_save
| self_handle_delete
| self_handle_m2m
| self_handle_reverse_actions
| self_handle_reverse_actions_delete.

(** One call [signal.connect(handler, sender=model, dispatch_uid=..,
    weak=weak)]. *)
Record Connection := {
  signal : Signal;
  receiver : Receiver;
  connected_sender : ModelClass;
  dispatch_uid : string;
  weak : bool
}.

(** The calls to [signal.connect] the helper makes, in order. *)
Definition connect_signals (models : list ModelClass) (handler : Receiver)
  (signal_to_uid_mapping : list (Signal * string)) (weak : bool)
  : list Connection :=
  flat_map
    (fun model =>
       let model_name := Str.lower (class_name model) in
       map (fun '(signal, uid_base) =>
              {| signal := signal;
                 receiver := handler;
                 connected_sender := model;
                 dispatch_uid := (uid_base ++ "_" ++ model_name)%string;
                 weak := weak |})
         signal_to_uid_mapping)
    models.

Definition senders {A} (section : SenderMap A) : list ModelClass :=
  map fst section.

(** [ESSignalProcessor.setup]: the connections made when a processor is
    built, in order. *)
Definition setup (self : ESSignalProcessor) : list Connection :=
  let models_save := senders (save (documents_model_mapping self)) in
  let models_delete := senders (delete (documents_model_mapping self)) in
  let models_m2m := senders (m2m (documents_model_mapping self)) in
  let models_reverse_foreign_key :=
    senders (reverse (documents_model_mapping self)) in
  let models_reverse_foreign_key_delete :=
    senders (reverse_delete (documents_model_mapping self)) in
  let main_model := Str.lower (class_name (main_model self)) in
  connect_signals models_save self_handle_save
    [(post_save,
      ("update_related_" ++ main_model ++ "_documents_in_es_index")%string)]
    false
  ++ connect_signals models_delete self_handle_delete
       [(post_delete, ("remove_" ++ main_model ++ "_from_es_index")%string)]
       false
  ++ connect_signals models_m2m self_handle_m2m
       [(m2m_changed,
         ("update_" ++ main_model ++ "_m2m_in_es_index")%string)] false
  ++ connect_signals models_reverse_foreign_key self_handle_reverse_actions
       [(post_save,
         ("update_reverse_related_" ++ main_model ++ "_on_save")%string)]
       false
  ++ connect_signals models_reverse_foreign_key_delete
       self_handle_reverse_actions_delete
       [(post_delete,
         ("update_reverse_related_" ++ main_model ++ "_on_delete")%string)]
       false.

(** ** The queue's chaining contract *)

(** Modelled from the spec: the task queue is consumed through its contract
    only ("supports output-to-input chaining").  The steps of a chain run one
    after the other; a partial signature is completed with the result of the
    step before it, an immutable one ignores it. *)
Section Chain.

Variable Result : Type.
Variable worker : Signature -> option Result -> Result.

Definition immutable (s : Signature) : bool :=
  match s with
  | save_document_in_es_si _ _ => true
  | _ => false
  end.

(** Runs the steps in order and records, for each, the parent result it
    was handed and the result it produced. *)
Fixpoint run_chain (steps : list Signature) (parent : option Result)
  : list (Signature * option Result * Result) :=
  match steps with
  | [] => []
  | s :: rest =>
      let input := if immutable s then None else parent in
      let r := worker s input in
      (s, input, r) :: run_chain rest (Some r)
  end.

End Chain.

(** ** The detector, as the specification words it *)

Section DetectorSpec.

Variable w : World.



(** The identifier a relation resolves to: the primary key of the related
    object; a raw identifier, or no relation at all, stands for itself. *)
Definition resolved_identifier (v : Value) : Value :=
  match v with
  | VObj related => VInt (pk related)
  | _ => v
  end.




(** A ForeignKey tracked under the field's own name, not under its "_id"
    name. *)
Definition foreign_key_by_name (instance : Entity) (field : string) : bool :=
  match get_field w (e_class instance) field with
  | Some internal_type => String.eqb internal_type "ForeignKey"
  | None => false
  end
  && negb (Str.endswith field "_id").

(** A tracked name that can be read, and that holds a related object (or a
    falsy value) when it is a ForeignKey tracked under its own name. *)
Definition readable (instance : Entity) (field : string) : Prop :=
  exists v,
    getattr w instance field = Found v
    /\ (foreign_key_by_name instance field = true ->
        truthy v = true -> exists related, v = VObj related).


End DetectorSpec.

(** ** What the cascades amount to *)

Section Cascades.

Variable w : World.

(** What an m2m change does for one main entity: its field is overwritten
    with the re-projection when the document is in the index and holds
    something; a document that is not in the index is scheduled for full
    creation instead; a document that holds nothing is left alone. *)
Definition m2m_recompute (es_document : ESDocument) (affected_field : string)
  (main_object : Entity) : list Task :=
  match es_get w es_document (doc_id_of w es_document main_object) with
  | Some document =>
      if doc_truthy document then
        match prepare w (doc_class document) affected_field with
        | Some prepare_method =>
            match prepare_method main_object with
            | Prepares v =>
                [update_document_in_es_delay document [(affected_field, v)]]
            | PrepareRaises => []
            end
        | None => []
        end
      else []
  | None => [save_document_in_es_delay main_object es_document]
  end.

(** A name the field map has an entry for. *)
Definition is_key (fields_map : FieldsMap) (field : string) : Prop :=
  In field (Dict.keys fields_map).

(** The pairings under which the changed entity is the parent of the child
    documents: a Person over its Position documents, reached through the
    "person" path, and a Docket over its RECAP documents. *)
Definition parent_route (es_document : ESDocument) (instance : Entity)
  (query : string) : Prop :=
  (e_class instance = Person /\ es_document = PositionDocument
   /\ query = "person")
  \/ (e_class instance = Docket /\ es_document = ESRECAPDocument).

(** Every document found for these entities that holds something has the
    prepare method of the affected field, and the method returns. *)
Definition prepared_for (es_document : ESDocument) (affected_field : string)
  (main_objects : list Entity) : Prop :=
  forall main_object document,
    In main_object main_objects ->
    es_get w es_document (doc_id_of w es_document main_object)
    = Some document ->
    doc_truthy document = true ->
    exists prepare_method v,
      prepare w (doc_class document) affected_field = Some prepare_method
      /\ prepare_method main_object = Prepares v.

(** The main entities an m2m mapping key stands for. *)
Definition m2m_main_objects (main_model : ModelClass) (key : string)
  (instance : Entity) : list Entity :=
  if String.eqb (Str.lower (class_name main_model)) key
  then [instance]
  else objects_filter w main_model key (VObj instance).

(** The instance a reverse-delete cascade works on once the entries before
    it have rebound it, each to what its lookup path resolved to. *)
Fixpoint rebound (entries : Dict.t ReverseMap) (instance : Value) : Value :=
  match entries with
  | [] => instance
  | (query_string, _) :: rest =>
      match getattr_of w instance (Str.last_lookup query_string) with
      | Found related => rebound rest related
      | _ => rebound rest instance
      end
  end.

(** The field each entry of an m2m mapping names first, if any. *)
Definition m2m_affected_fields (mapping_fields : Dict.t (Dict.t string))
  : list (option string) :=
  map (fun '(_, fields_map) => hd_error (Dict.keys fields_map))
    mapping_fields.

(** One pass of [update_remove_m2m_documents]: the affected field is
    recomputed for the main objects of every key of the mapping. *)
Definition m2m_pass (main_model : ModelClass) (es_document : ESDocument)
  (instance : Entity) (mapping_fields : Dict.t (Dict.t string))
  (affected_field : string) : list Task :=
  flat_map
    (fun key =>
       flat_map (m2m_recompute es_document affected_field)
         (m2m_main_objects main_model key instance))
    (Dict.keys mapping_fields).

(** Every document the passes of an m2m change meet and that holds
    something has the prepare method they need, and the method returns. *)
Definition all_prepared (self : ESSignalProcessor) (instance : Entity)
  (mapping_fields : Dict.t (Dict.t string)) (affected_fields : list string)
  : Prop :=
  forall affected_field key,
    In affected_field affected_fields ->
    In key (Dict.keys mapping_fields) ->
    prepared_for (es_document self) affected_field
      (m2m_main_objects (main_model self) key instance).

(** The value [update_reverse_related_documents] gives an affected field:
    the re-projection when the document has a prepare method for it, the
    attribute of the related instance otherwise. *)
Definition reverse_value_of (main_doc : ESDoc) (main_object : Entity)
  (instance : Value) (field : string) (v : Value) : Prop :=
  match prepare w (doc_class main_doc) field with
  | Some prepare_method => prepare_method main_object = Prepares v
  | None => getattr_of w instance field = Found v
  end.

(** The value a reverse-delete gives a field: the re-projection of the main
    object by the document's prepare method. *)
Definition prepared_by (main_doc : ESDoc) (main_object : Entity)
  (field : string) (v : Value) : Prop :=
  exists prepare_method,
    prepare w (doc_class main_doc) field = Some prepare_method
    /\ prepare_method main_object = Prepares v.

(** What a reverse-delete does for one main object: an update of its
    document if it is in the index and holds something, nothing
    otherwise. *)
Definition reverse_delete_update (es_document : ESDocument)
  (affected_fields : list string) (main_object : Entity) : list Task :=
  match es_get w es_document (doc_id_of w es_document main_object) with
  | Some main_doc =>
      if doc_truthy main_doc then
        match prepared_fields w main_doc main_object affected_fields [] with
        | Return payload => [update_document_in_es_delay main_doc payload]
        | Raise _ => []
        end
      else []
  | None => []
  end.

(** The child documents of a parent pairing of the reverse-delete flow. *)
Definition reverse_delete_children (es_document : ESDocument)
  (instance : Entity) : option ESDocument :=
  if is_one_of instance [Person] && ESDocument_is es_document PersonDocument
  then Some PositionDocument
  else if is_one_of instance [Docket]
          && ESDocument_is es_document DocketDocument
  then Some ESRECAPDocument
  else None.

(** Tasks that bring a document into being. *)
Definition is_creation (t : Task) : bool :=
  match t with
  | save_document_in_es_delay _ _ => true
  | chain_apply_async _ => true
  | _ => false
  end.

(** The cascades of a reverse-delete event when no relation is stale: for
    each entry the query path, the affected fields (read off the instance as
    the entry found it) and the instance the entry resolves to, which is the
    one the next entry starts from. *)
Fixpoint reverse_delete_cascades (entries : Dict.t ReverseMap)
  (instance : Value) : option (list (string * list string * Value)) :=
  match entries with
  | [] => Some []
  | (query_string, fields_map) :: rest =>
      match affected_fields_of w instance fields_map,
            getattr_of w instance (Str.last_lookup query_string) with
      | Return affected_fields, Found related =>
          option_map (cons (query_string, affected_fields, related))
            (reverse_delete_cascades rest related)
      | Return affected_fields, NoAttribute =>
          option_map (cons (query_string, affected_fields, instance))
            (reverse_delete_cascades rest instance)
      | _, _ => None
      end
  end.

(** The four guarded cases of the match in [update_es_documents]: the
    pairings that are answered with bulk updates of child documents. *)
Definition bulk_route (es_document : ESDocument) (instance : Entity)
  (query : string) : bool :=
  (is_one_of instance [Person] && ESDocument_is es_document PositionDocument
   && String.eqb query "person")
  || (is_one_of instance [ABARating; PoliticalAffiliation; School]
      && ESDocument_is es_document PositionDocument)
  || (is_one_of instance [Docket] && ESDocument_is es_document ESRECAPDocument)
  || (is_one_of instance [Person] && ESDocument_is es_document ESRECAPDocument).

(** What the last case of that match does for one main object. *)
Definition default_route_tasks (es_document : ESDocument) (instance : Entity)
  (fields_to_update : list string) (fields_map : FieldsMap)
  (main_object : Entity) : list Task :=
  match es_get w es_document (doc_id_of w es_document main_object) with
  | None => [save_document_in_es_delay main_object es_document]
  | Some main_doc =>
      if doc_truthy main_doc then
        match fields_to_update with
        | [] => []
        | _ =>
            match document_fields_to_update w main_doc main_object
                    fields_to_update instance fields_map with
            | Return payload => [update_document_in_es_delay main_doc payload]
            | Raise _ => []
            end
        end
      else []
  end.

(** The projection succeeds for every main object whose document is in the
    index and holds something. *)
Definition projections_succeed (es_document : ESDocument) (instance : Entity)
  (fields_to_update : list string) (fields_map : FieldsMap)
  (main_objects : list Entity) : Prop :=
  forall main_object main_doc,
    In main_object main_objects ->
    es_get w es_document (doc_id_of w es_document main_object)
    = Some main_doc ->
    doc_truthy main_doc = true ->
    exists payload,
      document_fields_to_update w main_doc main_object fields_to_update
        instance fields_map = Return payload.

(** Whether the document of an entity is missing from the index. *)
Definition unindexed (es_document : ESDocument) (main_object : Entity)
  : bool :=
  match es_get w es_document (doc_id_of w es_document main_object) with
  | None => true
  | Some _ => false
  end.

End Cascades.

(** [sub] keeps some elements of a list, in their order. *)
Inductive subsequence {A : Type} : list A -> list A -> Prop :=
| subsequence_nil : subsequence [] []
| subsequence_keep x sub l :
    subsequence sub l -> subsequence (x :: sub) (x :: l)
| subsequence_drop x sub l :
    subsequence sub l -> subsequence sub (x :: l).

(** ** Field queries (cl/lib/search_utils.py)

    Strings are sequences of code points below 256; the classes of
    characters are those Python has on that range. *)

Module SearchUtils.

Local Open Scope string_scope.

(** The values a cleaned form holds. *)
Inductive FormValue :=
| FNone
| FBool (b : bool)
| FInt (z : Z)
| FStr (s : string).

Definition CleanData := Dict.t FormValue.

Inductive Error := KeyError | AttributeError | TypeError.

Inductive Result (A : Type) :=
| Ok (a : A)
| Err (e : Error).
Arguments Ok {A} a.
Arguments Err {A} e.

Definition truthy (v : FormValue) : bool :=
  match v with
  | FNone => false
  | FBool b => b
  | FInt z => negb (z =? 0)%Z
  | FStr s => negb (String.eqb s "")
  end.

(** What an f-string renders a value as. *)
Definition str (v : FormValue) : string :=
  match v with
  | FNone => "None"
  | FBool true => "True"
  | FBool false => "False"
  | FInt z => NilZero.string_of_int (Z.to_int z)
  | FStr s => s
  end.

(** [cd.get(key)] *)
Definition get (cd : CleanData) (key : string) : FormValue :=
  match Dict.get cd key with
  | Some v => v
  | None => FNone
  end.

(** [v == "*"] *)
Definition is_star (v : FormValue) : bool :=
  match v with
  | FStr s => String.eqb s "*"
  | _ => false
  end.

Definition make_cite_count_query (cd : CleanData) : string :=
  let start :=
    if truthy (get cd "cited_gt") then get cd "cited_gt" else FStr "*" in
  let end_ :=
    if truthy (get cd "cited_lt") then get cd "cited_lt" else FStr "*" in
  if is_star start && is_star end_ then ""
  else "citeCount:[" ++ str start ++ " TO " ++ str end_ ++ "]".

(** [c.isspace()], which is also what the whitespace class of a pattern
    matches *)
Definition is_space (c : ascii) : bool :=
  let n := nat_of_ascii c in
  (((9 <=? n) && (n <=? 13)) || ((28 <=? n) && (n <=? 32))
   || (n =? 133) || (n =? 160))%nat.

(** The double quote, as a character and as a string. *)
Definition dquote : ascii := ascii_of_nat 34.
Definition quote : string := String dquote EmptyString.

(** [s.split()]: the maximal runs of characters that are not whitespace;
    [word] is the run being read, reversed. *)
Fixpoint split (s : string) (word : option string) : list string :=
  match s with
  | EmptyString =>
      match word with
      | Some acc => [Str.rev acc]
      | None => []
      end
  | String c s' =>
      if is_space c then
        match word with
        | Some acc => Str.rev acc :: split s' None
        | None => split s' None
        end
      else
        split s' (Some (String c (match word with
                                  | Some acc => acc
                                  | None => EmptyString
                                  end)))
  end.

(** The characters of the class [make_fq_proximity_query] blanks: caret,
    question mark, star, colon, parentheses, exclamation mark, double quote,
    tilde, hyphen and square brackets. *)
Definition solr_token (c : ascii) : bool :=
  existsb (Ascii.eqb c)
    ["^"; "?"; "*"; ":"; "("; ")"; "!"; dquote; "~"; "-"; "["; "]"]%char.

(** [re.sub(class, " ", s)] *)
Fixpoint blank_solr_tokens (s : string) : string :=
  match s with
  | EmptyString => EmptyString
  | String c s' =>
      String (if solr_token c then " "%char else c) (blank_solr_tokens s')
  end.

Definition solr_word (token : string) : bool :=
  existsb (String.eqb token) ["AND"; "OR"; "NOT"; "TO"].

(** The tokens [make_fq_proximity_query] keeps. *)
Definition proximity_tokens (value : string) : list string :=
  filter (fun token => negb (solr_word token))
    (split (blank_solr_tokens value) None).

Definition make_fq_proximity_query (cd : CleanData) (field key : string)
  : Result string :=
  match Dict.get cd key with
  | None => Err KeyError
  | Some (FStr value) =>
      Ok (field ++ ":(" ++ quote
          ++ String.concat " " (proximity_tokens value) ++ quote ++ "~5)")
  | Some _ => Err TypeError
  end.

(** [s.replace(":", " ")] *)
Fixpoint replace_colons (s : string) : string :=
  match s with
  | EmptyString => EmptyString
  | String c s' =>
      String (if Ascii.eqb c ":" then " "%char else c) (replace_colons s')
  end.

(** [s.count(c)] *)
Fixpoint count (s : string) (c : ascii) : nat :=
  match s with
  | EmptyString => 0%nat
  | String c' s' => ((if Ascii.eqb c' c then 1 else 0) + count s' c)%nat
  end.

Definition contains (s : string) (c : ascii) : bool :=
  negb (count s c =? 0)%nat.

(** Where [re.findall] stands while it scans for a quoted phrase or else a
    run of non-whitespace: between matches, inside a run of non-whitespace,
    or inside a phrase whose closing quote lies ahead.  The text read so far
    is kept reversed. *)
Inductive Scan :=
| Between
| InWord (acc : string)
| InPhrase (acc : string).

(** The groups of the matches, left to right.  A quote opens a phrase only
    if another quote follows; otherwise it starts, or belongs to, a run of
    non-whitespace. *)
Fixpoint findall (s : string) (at_ : Scan) : list (string * string) :=
  match s with
  | EmptyString =>
      match at_ with
      | InWord acc => [(EmptyString, Str.rev acc)]
      | _ => []
      end
  | String c s' =>
      match at_ with
      | Between =>
          if Ascii.eqb c dquote then
            if contains s' dquote then findall s' (InPhrase EmptyString)
            else findall s' (InWord (String c EmptyString))
          else if is_space c then findall s' Between
          else findall s' (InWord (String c EmptyString))
      | InWord acc =>
          if is_space c then (EmptyString, Str.rev acc) :: findall s' Between
          else findall s' (InWord (String c acc))
      | InPhrase acc =>
          if Ascii.eqb c dquote then
            (Str.rev acc, EmptyString) :: findall s' Between
          else findall s' (InPhrase (String c acc))
      end
  end.

Definition upper_ascii (c : ascii) : ascii :=
  let n := nat_of_ascii c in
  if (97 <=? n)%nat && (n <=? 122)%nat then ascii_of_nat (n - 32) else c.

(** [word.upper()], for the words it is applied to: those whose lower case
    is "and", "or" or "not", which are made of ASCII letters. *)
Fixpoint upper (s : string) : string :=
  match s with
  | EmptyString => EmptyString
  | String c s' => String (upper_ascii c) (upper s')
  end.

(** Whether [word.lower()] is one of "and", "or", "not"; no character
    outside ASCII has an ASCII lower case. *)
Definition is_conjunction (word : string) : bool :=
  existsb (String.eqb (Str.lower word)) ["and"; "or"; "not"].

(** The loop of [make_fq] over the matches. *)
Fixpoint conjoin (words : list (string * string)) (clean_q : list string)
  (needs_default_conjunction : bool) : list string :=
  match words with
  | [] => clean_q
  | group :: rest =>
      let word :=
        if negb (String.eqb (fst group) "") then fst group else snd group in
      if is_conjunction word then
        conjoin rest (clean_q ++ [upper word])%list false
      else
        let clean_q :=
          if needs_default_conjunction
             && match clean_q with [] => false | _ => true end
          then (clean_q ++ ["AND"])%list else clean_q in
        conjoin rest
          (clean_q ++ [if contains word " "
                       then (quote ++ word ++ quote)%string
                       else word])%list
          true
  end.

Definition make_fq (cd : CleanData) (field key : string)
  (make_phrase : bool) (slop : Z) : Result string :=
  match Dict.get cd key with
  | None => Err KeyError
  | Some (FStr q) =>
      let q := replace_colons q in
      if Str.startswith q quote && Str.endswith q quote
         && (count q dquote =? 2)%nat
      then Ok (field ++ ":(" ++ q ++ ")")
      else if make_phrase
      then Ok (field ++ ":(" ++ quote ++ q ++ quote ++ "~"
               ++ str (FInt slop) ++ ")")
      else
        let words := findall q Between in
        let clean_q := conjoin words [] true in
        Ok (field ++ ":(" ++ String.concat " " clean_q ++ ")")
  | Some _ => Err AttributeError
  end.

(** Every character of a string passes a test. *)
Fixpoint every (test : ascii -> bool) (s : string) : bool :=
  match s with
  | EmptyString => true
  | String c s' => test c && every test s'
  end.

(** A token as [make_fq_proximity_query] leaves it: not empty, free of
    whitespace and of the blanked characters, and not a reserved word. *)
Definition clean_token (token : string) : bool :=
  negb (String.eqb token "")
  && every (fun c => negb (is_space c) && negb (solr_token c)) token
  && negb (solr_word token).

(** A bound of the citation count that is left open: absent, None, zero
    or empty, or the star itself. *)
Definition open_bound (v : FormValue) : Prop :=
  truthy v = false \/ v = FStr "*".

(** A word a user types without quotes or colons. *)
Definition simple_word (word : string) : bool :=
  negb (String.eqb word "")
  && every (fun c => negb (is_space c) && negb (Ascii.eqb c dquote)
                     && negb (Ascii.eqb c ":")) word.

(** Words with the default conjunction between each two of them. *)
Definition with_and (words : list string) : list string :=
  match words with
  | [] => []
  | word :: rest => word :: flat_map (fun next => ["AND"; next]) rest
  end.

(** Free of colons. *)
Definition no_colon (s : string) : bool :=
  every (fun c => negb (Ascii.eqb c ":")) s.

(** A word of the user's that is not one of the conjunctions. *)
Definition plain_word (word : string) : bool :=
  simple_word word && negb (is_conjunction word).

End SearchUtils.

(** ** Example stores *)

Module Examples.

Definition no_tracker : Entity -> string -> option FieldTracker :=
  fun _ _ => None.

Definition plain_ids (k : Z) : ChildIds :=
  {| POSITION := ChildId "po" k; RECAP := ChildId "rd" k |}.

(** A store described by what the examples vary: attributes, field kinds,
    trackers, related rows, indexed documents and prepare methods. *)
Definition store
  (attrs : Entity -> string -> Attr)
  (kinds : ModelClass -> string -> option string)
  (trackers : Entity -> string -> option FieldTracker)
  (related : ModelClass -> string -> Value -> list Entity)
  (indexed : ESDocument -> DocId -> option ESDoc)
  (prepares : ESDocument -> string -> option (Entity -> Prepared)) : World :=
  {| ELASTICSEARCH_DISABLED := false;
     getattr := attrs;
     call_method := fun _ _ => NoAttribute;
     get_field := kinds;
     is_property := fun _ _ => false;
     field_tracker := trackers;
     objects_filter := related;
     es_get := indexed;
     es_exists := fun d k =>
       match indexed d (IntId k) with Some _ => true | None => false end;
     prepare := prepares;
     index_name := fun _ => "oral_arguments";
     ES_CHILD_ID := plain_ids |}.

Definition judge : Entity := {| e_class := Person; pk := 1 |}.
Definition court_of_judge : Entity := {| e_class := OtherModel "Court"; pk := 9 |}.
Definition degree : Entity := {| e_class := Education; pk := 7 |}.
Definition recording : Entity := {| e_class := Audio; pk := 5 |}.

(** A judge whose name changed since the snapshot, whose court (a foreign
    key) did not, and who has nothing in the index. *)
Definition judge_attrs (e : Entity) (name : string) : Attr :=
  if Entity_eqb e judge then
    if String.eqb name "name" then Found (VStr "Ada B.")
    else if String.eqb name "court" then Found (VObj court_of_judge)
    else if String.eqb name "court_id" then Found (VInt 9)
    else if String.eqb name "age" then Found (VInt 61)
    else NoAttribute
  else NoAttribute.

Definition judge_kinds (c : ModelClass) (name : string) : option string :=
  if String.eqb name "name" then Some "CharField"
  else if String.eqb name "court" then Some "ForeignKey"
  else if String.eqb name "court_id" then Some "ForeignKey"
  else None.

Definition judge_snapshot (name : string) : Value :=
  if String.eqb name "name" then VStr "Ada"
  else if String.eqb name "court" then VInt 9
  else if String.eqb name "court_id" then VInt 9
  else if String.eqb name "age" then VInt 60
  else VNone.

Definition judge_tracker : FieldTracker :=
  {| fields := ["name"; "court"; "court_id"; "age"];
     previous := judge_snapshot |}.

Definition judge_trackers (e : Entity) (name : string) : option FieldTracker :=
  if Entity_eqb e judge && String.eqb name "es_p_field_tracker"
  then Some judge_tracker else None.

Definition nothing_related : ModelClass -> string -> Value -> list Entity :=
  fun _ _ _ => [].

Definition Position : ModelClass := OtherModel "Position".

(** The judge holds three positions. *)
Definition positions_of_judge (c : ModelClass) (query : string) (v : Value)
  : list Entity :=
  if ModelClass_eqb c Position && String.eqb query "person"
     && Value_eqb v (VObj judge)
  then [ {| e_class := Position; pk := 31 |};
         {| e_class := Position; pk := 32 |};
         {| e_class := Position; pk := 33 |} ]
  else [].

Definition nothing_indexed : ESDocument -> DocId -> option ESDoc :=
  fun _ _ => None.

Definition no_prepare : ESDocument -> string -> option (Entity -> Prepared) :=
  fun _ _ => None.

Definition judge_world : World :=
  store judge_attrs judge_kinds judge_trackers positions_of_judge
    nothing_indexed no_prepare.

Definition position_map : FieldsMap := [("name", ["judge"])].

(** The same judge, now with a Person document in the index. *)
Definition judge_doc : ESDoc :=
  {| doc_class := PersonDocument; doc_id := IntId 1;
     stored_fields := [("id", VInt 1); ("name", VStr "Ada")] |}.

Definition judge_indexed (d : ESDocument) (i : DocId) : option ESDoc :=
  match d, i with
  | PersonDocument, IntId 1 => Some judge_doc
  | _, _ => None
  end.

Definition indexed_judge_world : World :=
  store judge_attrs judge_kinds judge_trackers positions_of_judge
    judge_indexed no_prepare.

(** The processor of Position documents: a change of a Person reaches them
    through the "person" path. *)
Definition position_processor : ESSignalProcessor :=
  {| main_model := Position;
     es_document := PositionDocument;
     documents_model_mapping :=
       {| save := [(Person, [("person", position_map)])];
          delete := []; m2m := []; reverse := []; reverse_delete := [] |} |}.

Definition Audio_panel : ModelClass := OtherModel "Audio_panel".

(** The processor of oral arguments: Audio is the primary entity and has no
    per-field mapping; its panel is a many-to-many relation. *)
Definition audio_processor : ESSignalProcessor :=
  {| main_model := Audio;
     es_document := AudioDocument;
     documents_model_mapping :=
       {| save := [(Audio, [])];
          delete := [(Audio, [])];
          m2m := [(Audio_panel, [("audio", [("panel_ids", "panel_ids")])])];
          reverse := [];
          reverse_delete := [] |} |}.

Definition recording_doc : ESDoc :=
  {| doc_class := AudioDocument; doc_id := IntId 5;
     stored_fields := [("id", VInt 5); ("panel_ids", VInts [2]%Z)] |}.

Definition recording_indexed (d : ESDocument) (i : DocId) : option ESDoc :=
  match d, i with
  | AudioDocument, IntId 5 => Some recording_doc
  | _, _ => None
  end.

(** A store in which the recording has been indexed before. *)
Definition indexed_recording_world : World :=
  store judge_attrs judge_kinds judge_trackers nothing_related
    recording_indexed no_prepare.

Definition panel_prepare (d : ESDocument) (name : string)
  : option (Entity -> Prepared) :=
  if String.eqb name "panel_ids"
  then Some (fun _ => Prepares (VInts [2; 3]%Z))
  else None.

(** The recording is indexed and its document re-projects the panel. *)
Definition panel_world : World :=
  store judge_attrs judge_kinds judge_trackers nothing_related
    recording_indexed panel_prepare.

(** An Education row of the judge; the judge has no Person document. *)
Definition educations_of (c : ModelClass) (query : string) (v : Value)
  : list Entity :=
  if ModelClass_eqb c Person && String.eqb query "educations"
     && Value_eqb v (VObj degree)
  then [judge] else [].

Definition degree_world : World :=
  store judge_attrs judge_kinds judge_trackers educations_of
    nothing_indexed no_prepare.

(** The same Education row, seen by a processor of Docket documents: no
    second-level rule applies. *)
Definition dockets_of (c : ModelClass) (query : string) (v : Value)
  : list Entity :=
  if ModelClass_eqb c Docket then [ {| e_class := Docket; pk := 40 |} ]
  else [].

Definition docket_world : World :=
  store judge_attrs judge_kinds judge_trackers dockets_of
    nothing_indexed no_prepare.

(** A citation whose cluster was removed before the citation's own delete
    signal is handled. *)
Definition Citation : ModelClass := OtherModel "Citation".

Definition citation : Entity := {| e_class := Citation; pk := 77 |}.

Definition citation_attrs (e : Entity) (name : string) : Attr :=
  if Entity_eqb e citation then
    if String.eqb name "type" then Found (VInt 1)
    else if String.eqb name "cluster" then RelatedGone
    else NoAttribute
  else NoAttribute.

Definition stale_world : World :=
  store citation_attrs judge_kinds no_tracker nothing_related
    nothing_indexed no_prepare.

Definition citation_rules : Dict.t ReverseMap :=
  [ ("opinion__cluster", [(VStr "all", ["citation"])]);
    ("cluster", [(VStr "all", ["citation"])]) ].

Definition group_processor : ESSignalProcessor :=
  {| main_model := OtherModel "ParentheticalGroup";
     es_document := ParentheticalGroupDocument;
     documents_model_mapping :=
       {| save := []; delete := []; m2m := []; reverse := [];
          reverse_delete := [(Citation, citation_rules)] |} |}.

(** A tracker that names a field the judge does not have. *)
Definition salary_tracker : FieldTracker :=
  {| fields := ["name"; "salary"; "age"]; previous := judge_snapshot |}.

Definition salary_trackers (e : Entity) (name : string)
  : option FieldTracker :=
  if Entity_eqb e judge && String.eqb name "es_p_field_tracker"
  then Some salary_tracker else None.

Definition salary_world : World :=
  store judge_attrs judge_kinds salary_trackers positions_of_judge
    nothing_indexed no_prepare.

(** A school two judges attended. *)
Definition law_school : Entity := {| e_class := School; pk := 3 |}.
Definition second_judge : Entity := {| e_class := Person; pk := 2 |}.

Definition alumni_of (c : ModelClass) (query : string) (v : Value)
  : list Entity :=
  if ModelClass_eqb c Person && String.eqb query "educations__school"
     && Value_eqb v (VObj law_school)
  then [judge; second_judge] else [].

Definition school_world : World :=
  store judge_attrs judge_kinds judge_trackers alumni_of
    nothing_indexed no_prepare.

(** A docket with two recordings, of which only the first is indexed. *)
Definition case_docket : Entity := {| e_class := Docket; pk := 40 |}.
Definition second_recording : Entity := {| e_class := Audio; pk := 6 |}.

Definition docket_attrs (e : Entity) (name : string) : Attr :=
  if Entity_eqb e case_docket then
    if String.eqb name "date_argued" then Found (VStr "2020-03-02")
    else if String.eqb name "docket_number" then Found (VStr "19-1234")
    else NoAttribute
  else NoAttribute.

Definition recordings_of (c : ModelClass) (query : string) (v : Value)
  : list Entity :=
  if ModelClass_eqb c Audio && String.eqb query "docket"
     && Value_eqb v (VObj case_docket)
  then [recording; second_recording] else [].

Definition docket_recordings_world : World :=
  store docket_attrs judge_kinds no_tracker recordings_of
    recording_indexed no_prepare.

Definition argued_map : FieldsMap :=
  [("date_argued", ["dateArgued"]); ("docket_number", ["docketNumber"])].

(** The processor of RECAP documents, with two paths from a Docket. *)
Definition recap_mapping : Dict.t FieldsMap :=
  [ ("docket_entry__docket", [("docket_number", ["docketNumber"])]);
    ("docket", [("date_argued", ["dateArgued"])]) ].

Definition docket_trackers (e : Entity) (name : string)
  : option FieldTracker :=
  if Entity_eqb e case_docket && String.eqb name "es_rd_field_tracker"
  then Some {| fields := ["docket_number"; "date_argued"];
               previous := fun _ => VStr "" |}
  else None.

Definition recap_world : World :=
  store docket_attrs judge_kinds docket_trackers recordings_of
    nothing_indexed no_prepare.

Definition recap_processor : ESSignalProcessor :=
  {| main_model := OtherModel "RECAPDocument";
     es_document := ESRECAPDocument;
     documents_model_mapping :=
       {| save := [(Docket, recap_mapping)];
          delete := []; m2m := []; reverse := []; reverse_delete := [] |} |}.

(** The citation again, beside an indexed recording whose document
    re-projects the panel. *)
Definition citation_panel_world : World :=
  store citation_attrs judge_kinds no_tracker nothing_related
    recording_indexed panel_prepare.

(** The same rules on the side of saved relations. *)
Definition saved_group_processor : ESSignalProcessor :=
  {| main_model := OtherModel "ParentheticalGroup";
     es_document := ParentheticalGroupDocument;
     documents_model_mapping :=
       {| save := []; delete := []; m2m := [];
          reverse := [(Citation, citation_rules)];
          reverse_delete := [] |} |}.

(** A citation whose cluster is there, and that cluster has a "cluster"
    attribute of its own. *)
Definition case_cluster : Entity :=
  {| e_class := OtherModel "OpinionCluster"; pk := 11 |}.
Definition parent_cluster : Entity :=
  {| e_class := OtherModel "OpinionCluster"; pk := 12 |}.

Definition chain_attrs (e : Entity) (name : string) : Attr :=
  if Entity_eqb e citation then
    if String.eqb name "cluster" then Found (VObj case_cluster)
    else NoAttribute
  else if Entity_eqb e case_cluster then
    if String.eqb name "cluster" then Found (VObj parent_cluster)
    else NoAttribute
  else NoAttribute.

Definition chain_world : World :=
  store chain_attrs judge_kinds no_tracker nothing_related
    nothing_indexed no_prepare.

(** A mapping of two entries for the panel relation: the recording itself
    and the recordings of the same docket. *)
Definition panel_mapping : Dict.t (Dict.t string) :=
  [ ("audio", [("panel_ids", "panel_ids")]);
    ("docket__audio", [("judge", "judge")]) ].

Definition two_entry_processor : ESSignalProcessor :=
  {| main_model := Audio;
     es_document := AudioDocument;
     documents_model_mapping :=
       {| save := []; delete := [];
          m2m := [(Audio_panel, panel_mapping)];
          reverse := []; reverse_delete := [] |} |}.

Definition second_recording_doc : ESDoc :=
  {| doc_class := AudioDocument; doc_id := IntId 6;
     stored_fields := [("id", VInt 6)] |}.

Definition both_recordings_indexed (d : ESDocument) (i : DocId)
  : option ESDoc :=
  match d, i with
  | AudioDocument, IntId 5 => Some recording_doc
  | AudioDocument, IntId 6 => Some second_recording_doc
  | _, _ => None
  end.

Definition siblings_of (c : ModelClass) (query : string) (v : Value)
  : list Entity :=
  if ModelClass_eqb c Audio && String.eqb query "docket__audio"
     && Value_eqb v (VObj recording)
  then [second_recording] else [].

Definition panel_and_judge_prepare (d : ESDocument) (name : string)
  : option (Entity -> Prepared) :=
  if String.eqb name "panel_ids"
  then Some (fun e => Prepares (VInts [pk e; 3]%Z))
  else if String.eqb name "judge" then Some (fun _ => Prepares (VStr "Ada B."))
  else None.

Definition two_entry_world : World :=
  store judge_attrs judge_kinds judge_trackers siblings_of
    both_recordings_indexed panel_and_judge_prepare.








(** The judge also supervises two positions held by others; none of them
    is in the index. *)
Definition supervised_by_judge (c : ModelClass) (query : string) (v : Value)
  : list Entity :=
  if ModelClass_eqb c Position && Value_eqb v (VObj judge) then
    if String.eqb query "person"
    then [ {| e_class := Position; pk := 31 |};
           {| e_class := Position; pk := 32 |};
           {| e_class := Position; pk := 33 |} ]
    else if String.eqb query "supervisor"
    then [ {| e_class := Position; pk := 34 |};
           {| e_class := Position; pk := 35 |} ]
    else []
  else [].

Definition supervisor_world : World :=
  store judge_attrs judge_kinds judge_trackers supervised_by_judge
    nothing_indexed no_prepare.

(** The processor of Position documents with a second path from a Person. *)
Definition supervisor_processor : ESSignalProcessor :=
  {| main_model := Position;
     es_document := PositionDocument;
     documents_model_mapping :=
       {| save := [(Person, [ ("person", position_map);
                              ("supervisor", [("name", ["supervisor"])]) ])];
          delete := []; m2m := []; reverse := []; reverse_delete := [] |} |}.

(** The processor of Person documents: an Education row reaches its Person
    through the "educations" path and changes the "school" field. *)
Definition person_processor : ESSignalProcessor :=
  {| main_model := Person;
     es_document := PersonDocument;
     documents_model_mapping :=
       {| save := []; delete := []; m2m := [];
          reverse := [(Education, [("educations", [(VStr "all", ["school"])])])];
          reverse_delete := [] |} |}.

(** The recording is in the index, but its document holds no field. *)
Definition empty_recording_doc : ESDoc :=
  {| doc_class := AudioDocument; doc_id := IntId 5; stored_fields := [] |}.

Definition empty_recording_indexed (d : ESDocument) (i : DocId)
  : option ESDoc :=
  match d, i with
  | AudioDocument, IntId 5 => Some empty_recording_doc
  | _, _ => None
  end.

Definition empty_recording_world : World :=
  store judge_attrs judge_kinds judge_trackers nothing_related
    empty_recording_indexed panel_prepare.

(** The recording is indexed, and the re-projection of its panel fails. *)
Definition failing_panel_prepare (d : ESDocument) (name : string)
  : option (Entity -> Prepared) :=
  if String.eqb name "panel_ids" then Some (fun _ => PrepareRaises)
  else if String.eqb name "judge" then Some (fun _ => Prepares (VStr "Ada B."))
  else None.

Definition failing_panel_world : World :=
  store judge_attrs judge_kinds judge_trackers nothing_related
    recording_indexed failing_panel_prepare.

(** The docket's first recording is in the index with a document that holds
    nothing; the second is not in the index. *)
Definition docket_empty_recording_world : World :=
  store docket_attrs judge_kinds no_tracker recordings_of
    empty_recording_indexed no_prepare.

(** A processor whose m2m entry names no field. *)
Definition empty_entry_processor : ESSignalProcessor :=
  {| main_model := Audio;
     es_document := AudioDocument;
     documents_model_mapping :=
       {| save := []; delete := [];
          m2m := [(Audio_panel, [("audio", [])])];
          reverse := []; reverse_delete := [] |} |}.

End Examples.

(** ** Properties *)

(** *** The queue monad *)

Lemma bind_lift_return {A B} (a : A) (k : A -> Celery B) (q : list Task) :
  bind (lift (Return a)) k q = k a q.
Proof. reflexivity. Qed.

(** A loop whose every turn enqueues one task enqueues them in order. *)
Lemma for_each_delay {A} (xs : list A) (task : A -> Task) (q : list Task) :
  for_each xs (fun x => delay (task x)) q = (Return tt, q ++ map task xs).
Proof.
  revert q; induction xs as [|x xs IH]; intro q; simpl.
  - now rewrite app_nil_r.
  - unfold bind at 1, delay at 1. rewrite IH, <- app_assoc. reflexivity.
Qed.

(** A loop whose every turn leaves the queue alone leaves it alone. *)
Lemma for_each_skip {A} (xs : list A) (body : A -> Celery unit) :
  (forall x q, In x xs -> body x q = (Return tt, q)) ->
  forall q, for_each xs body q = (Return tt, q).
Proof.
  induction xs as [|x xs IH]; intros Hbody q; simpl; [reflexivity|].
  unfold bind. rewrite Hbody by now left.
  apply IH. intros; apply Hbody; now right.
Qed.

Lemma for_each_app {A} (xs ys : list A) (body : A -> Celery unit)
  (q : list Task) :
  for_each (xs ++ ys) body q
  = (for_each xs body ;; for_each ys body) q.
Proof.
  revert q; induction xs as [|x xs IH]; intro q; simpl.
  - unfold bind, ret. now destruct (for_each ys body q) as [[[]|e] q'].
  - unfold bind in *.
    destruct (body x q) as [[[]|e] q']; [|reflexivity].
    apply IH.
Qed.

Lemma for_each_ext {A} (xs : list A) (body1 body2 : A -> Celery unit) :
  (forall x q, In x xs -> body1 x q = body2 x q) ->
  forall q, for_each xs body1 q = for_each xs body2 q.
Proof.
  induction xs as [|x xs IH]; intros Hext q; simpl; [reflexivity|].
  unfold bind. rewrite Hext by now left.
  destruct (body2 x q) as [[[]|e] q']; [|reflexivity].
  apply IH. intros; apply Hext; now right.
Qed.

(** A loop whose every turn enqueues a list of tasks enqueues them all. *)
Lemma for_each_tasks {A} (xs : list A) (body : A -> Celery unit)
  (tasks : A -> list Task) :
  (forall x q, In x xs -> body x q = (Return tt, q ++ tasks x)) ->
  forall q, for_each xs body q = (Return tt, q ++ flat_map tasks xs).
Proof.
  induction xs as [|x xs IH]; intros Hbody q; simpl.
  - now rewrite app_nil_r.
  - unfold bind. rewrite Hbody by now left.
    rewrite IH, <- app_assoc; [reflexivity|].
    intros; apply Hbody; now right.
Qed.

Lemma bind_ret_tt (m : Celery unit) (q : list Task) :
  (m ;; ret tt) q = m q.
Proof. unfold bind, ret. now destruct (m q) as [[[]|e] q']. Qed.

Lemma flat_map_singleton {A B} (f : A -> B) (xs : list A) :
  flat_map (fun x => [f x]) xs = map f xs.
Proof. induction xs as [|x xs IH]; simpl; [reflexivity | now rewrite IH]. Qed.

(** *** Strings and field selection on examples *)

Example last_lookup_of_path :
  Str.last_lookup "opinion__cluster" = "cluster"
  /\ Str.last_lookup "docket" = "docket".
Proof. split; reflexivity. Qed.

Example split_dunder_scans_left_to_right :
  Str.split_dunder "a___b" 0 "" = ["a"; "_b"]
  /\ Str.split_dunder "a____b" 0 "" = ["a"; ""; "b"].
Proof. split; reflexivity. Qed.

Example lower_class_name :
  Str.lower (class_name (OtherModel "ParentheticalGroup"))
  = "parentheticalgroup".
Proof. reflexivity. Qed.

Example endswith_id :
  Str.endswith "docket_id" "_id" = true /\ Str.endswith "id" "_id" = false.
Proof. split; reflexivity. Qed.

Example get_fields_to_update_display_variant :
  get_fields_to_update ["source"; "name"; "slug"]
    [ ("name", ["judge"]);
      ("get_source_display", ["source_text"]);
      ("source", ["source"]) ]
  = ["source"; "get_source_display"; "name"].
Proof. reflexivity. Qed.

Example document_fields_to_update_last_writer_wins :
  document_fields_to_update Examples.judge_world Examples.judge_doc
    Examples.judge ["name"; "age"] Examples.judge
    [("name", ["judge"; "judge_exact"]); ("age", ["judge"])]
  = Return [("judge", VInt 61); ("judge_exact", VStr "Ada B.")].
Proof. reflexivity. Qed.

(** *** Dictionaries *)

Lemma mem_keys {V} (d : Dict.t V) (k : string) :
  Dict.mem k d = true <-> In k (Dict.keys d).
Proof.
  unfold Dict.mem. rewrite existsb_exists. split.
  - intros (x & Hin & Heq). apply String.eqb_eq in Heq. now subst.
  - intro Hin. exists k. split; [assumption | apply String.eqb_refl].
Qed.

Lemma get_of_key {V} (d : Dict.t V) (k : string) :
  In k (Dict.keys d) -> exists v, Dict.get d k = Some v.
Proof.
  induction d as [|[k' v'] d IH]; simpl; [tauto|].
  intros [Heq | Hin].
  - subst. rewrite String.eqb_refl. now exists v'.
  - destruct (String.eqb k k'); [now exists v' | now apply IH].
Qed.

(** *** Field selection stays within the field map *)

Section FieldSelection.

Variable fields_map : FieldsMap.

Lemma get_fields_to_update_loop_keys (changed_fields acc : list string) :
  Forall (is_key fields_map) acc ->
  Forall (is_key fields_map) (get_fields_to_update_loop changed_fields fields_map acc).
Proof.
  revert acc; induction changed_fields as [|field rest IH]; intros acc Hacc;
    simpl; [assumption|].
  apply IH.
  destruct (Dict.mem (display_of field) fields_map) eqn:Hd;
    destruct (Dict.mem field fields_map) eqn:Hf;
    repeat (apply Forall_app; split); try assumption;
    repeat constructor; now apply mem_keys.
Qed.

Lemma get_fields_to_update_loop_origin (changed_fields acc : list string)
  (f : string) :
  In f (get_fields_to_update_loop changed_fields fields_map acc) ->
  In f acc \/
  exists g, In g changed_fields /\ (f = g \/ f = display_of g).
Proof.
  revert acc; induction changed_fields as [|field rest IH]; intros acc Hin;
    simpl in Hin; [now left|].
  apply IH in Hin. destruct Hin as [Hin | (g & Hg & Hfg)].
  - destruct (Dict.mem (display_of field) fields_map);
      destruct (Dict.mem field fields_map);
      repeat (apply in_app_or in Hin; destruct Hin as [Hin | Hin]);
      simpl in Hin; intuition (subst; eauto 6 using in_eq).
  - right. exists g. split; [now right | assumption].
Qed.

Variable w : World.

Lemma project_doc_fields_no_KeyError main_doc main_object field instance
  (document_fields : list string) (acc : Dict.t Value) :
  project_doc_fields w main_doc main_object field instance document_fields acc
  <> Raise KeyError.
Proof.
  revert acc; induction document_fields as [|doc_field rest IH]; intro acc;
    simpl; [discriminate|].
  destruct (Str.startswith field "get_" && Str.endswith field "_display").
  - destruct (call_method w instance field); simpl;
      first [apply IH | discriminate].
  - destruct (prepare w (doc_class main_doc) doc_field) as [prepare_method|].
    + destruct (prepare_method main_object); simpl;
        first [apply IH | discriminate].
    + destruct (getattr w instance field); simpl;
        first [apply IH | discriminate].
Qed.

Lemma document_fields_to_update_loop_no_KeyError main_doc main_object
  instance (field_list : list string) (acc : Dict.t Value) :
  Forall (is_key fields_map) field_list ->
  document_fields_to_update_loop w main_doc main_object field_list instance
    fields_map acc <> Raise KeyError.
Proof.
  intro Hkeys; revert acc.
  induction Hkeys as [|field rest Hfield _ IH]; intro acc; simpl;
    [discriminate|].
  destruct (get_of_key fields_map field Hfield) as [document_fields ->].
  pose proof (project_doc_fields_no_KeyError main_doc main_object field
                instance document_fields acc) as Hinner.
  destruct (project_doc_fields w main_doc main_object field instance
              document_fields acc) as [d|e].
  - apply IH.
  - congruence.
Qed.

End FieldSelection.

(** C10: every name [get_fields_to_update] returns is a key of the field map
    it was given -- a changed field itself, or its "get_X_display" variant,
    each only when it is a key -- so the projection of the returned list
    finds every field in the map and never raises KeyError. *)
Theorem get_fields_to_update_keys (w : World) (changed_fields : list string)
  (fields_map : FieldsMap) :
  let selected := get_fields_to_update changed_fields fields_map in
  Forall (is_key fields_map) selected
  /\ (forall f, In f selected ->
        exists g, In g changed_fields /\ (f = g \/ f = display_of g))
  /\ (forall f, In f selected -> Dict.get fields_map f <> None)
  /\ (forall main_doc main_object instance,
        document_fields_to_update w main_doc main_object selected instance
          fields_map <> Raise KeyError).
Proof.
  intro selected.
  assert (Hkeys : Forall (is_key fields_map) selected)
    by (apply get_fields_to_update_loop_keys; constructor).
  repeat split.
  - exact Hkeys.
  - intros f Hin.
    apply get_fields_to_update_loop_origin in Hin.
    destruct Hin as [[] | Hin]; exact Hin.
  - intros f Hin. rewrite Forall_forall in Hkeys.
    destruct (get_of_key fields_map f (Hkeys f Hin)) as [v ->]. discriminate.
  - intros. now apply document_fields_to_update_loop_no_KeyError.
Qed.

(** *** The update path is skipped when nothing changed *)

(** C6: for a freshly created entity, or when the detector reports no
    tracked field changed, [update_es_documents] returns before it reaches
    any mapping entry: the queue is left as it was. *)
Theorem update_es_documents_no_change (w : World) (main_model : ModelClass)
  (es_document : ESDocument) (instance : Entity) (created : bool)
  (mapping_fields : Dict.t FieldsMap) (q : list Task) :
  created = true \/ updated_fields w instance es_document = Return [] ->
  update_es_documents w main_model es_document instance created
    mapping_fields q = (Return tt, q).
Proof.
  unfold update_es_documents. intros [-> | Hnone]; [reflexivity|].
  destruct created; [reflexivity|].
  unfold bind, lift. now rewrite Hnone.
Qed.

Lemma update_es_documents_no_change_witness :
  update_es_documents Examples.judge_world Person PositionDocument
    Examples.judge true [("person", Examples.position_map)] []
  = (Return tt, [])
  /\ update_es_documents Examples.judge_world Person PersonDocument
       Examples.judge false [("person", Examples.position_map)] []
     = (Return tt, []).
Proof.
  split.
  - apply (update_es_documents_no_change Examples.judge_world Person
             PositionDocument Examples.judge true). left; reflexivity.
  - apply (update_es_documents_no_change Examples.judge_world Person
             PersonDocument Examples.judge false). right; reflexivity.
Defined.

(** *** The document resolver *)

(** C7: for any document type and entity, a document the point lookup
    finds is returned with no side effect; when the lookup reports not-found
    and creation is not suppressed, the resolver schedules exactly one
    full-creation task and returns None; when the lookup reports not-found
    and creation is suppressed, it returns None with no side effect. *)
Theorem get_or_create_doc_outcomes (w : World) (es_document : ESDocument)
  (instance : Entity) (avoid_creation : bool) (q : list Task) :
  let found := es_get w es_document (doc_id_of w es_document instance) in
  (forall main_doc, found = Some main_doc ->
     get_or_create_doc w es_document instance avoid_creation q
     = (Return (Some main_doc), q))
  /\ (found = None -> avoid_creation = false ->
      get_or_create_doc w es_document instance avoid_creation q
      = (Return None, q ++ [save_document_in_es_delay instance es_document]))
  /\ (found = None -> avoid_creation = true ->
      get_or_create_doc w es_document instance avoid_creation q
      = (Return None, q)).
Proof.
  unfold get_or_create_doc; cbv zeta.
  repeat split.
  - intros main_doc ->. reflexivity.
  - intros -> ->. reflexivity.
  - intros -> ->. reflexivity.
Qed.

Lemma get_or_create_doc_outcomes_witness :
  get_or_create_doc Examples.indexed_judge_world PersonDocument Examples.judge
    true [] = (Return (Some Examples.judge_doc), [])
  /\ get_or_create_doc Examples.judge_world PersonDocument Examples.judge
       false []
     = (Return None, [save_document_in_es_delay Examples.judge PersonDocument])
  /\ get_or_create_doc Examples.judge_world PersonDocument Examples.judge
       true [] = (Return None, []).
Proof.
  split; [|split].
  - apply (get_or_create_doc_outcomes Examples.indexed_judge_world
             PersonDocument Examples.judge true []). reflexivity.
  - apply (get_or_create_doc_outcomes Examples.judge_world
             PersonDocument Examples.judge false []); reflexivity.
  - apply (get_or_create_doc_outcomes Examples.judge_world
             PersonDocument Examples.judge true []); reflexivity.
Defined.

(** *** The field-change detector *)

Section Detector.

Variable w : World.
Variable instance : Entity.


(** On a readable tracked name the loop body never skips and never raises:
    it compares the primary key of the related object for a ForeignKey
    tracked under its own name, and the attribute as it reads otherwise. *)
Lemma current_value_to_compare_readable (field : string) :
  readable w instance field ->
  exists v,
    getattr w instance field = Found v
    /\ current_value_to_compare w instance field
       = Return (Some (if foreign_key_by_name w instance field
                       then resolved_identifier v else v)).
Proof.
  intros (v & Hget & Hobj). exists v. split; [exact Hget|].
  unfold current_value_to_compare, hasattr, foreign_key_by_name in *.
  rewrite Hget.
  destruct (get_field w (e_class instance) field) as [internal_type|];
    [|reflexivity].
  destruct (String.eqb internal_type "ForeignKey"); [|reflexivity].
  destruct (Str.endswith field "_id"); simpl;
    [now rewrite andb_false_r|].
  rewrite andb_true_r.
  destruct (truthy v) eqn:Htruthy.
  - destruct (Hobj eq_refl eq_refl) as (related & ->). reflexivity.
  - destruct v; try reflexivity. discriminate Htruthy.
Qed.



End Detector.




(** *** Direct saves *)

Section DirectSave.

Variable w : World.

Lemma update_es_documents_no_entries main_model es_document instance created
  (q : list Task) :
  created = true
  \/ (exists changed_fields,
        updated_fields w instance es_document = Return changed_fields) ->
  update_es_documents w main_model es_document instance created [] q
  = (Return tt, q).
Proof.
  unfold update_es_documents. intros [-> | (changed_fields & Hret)];
    [reflexivity|].
  destruct created; [reflexivity|].
  unfold bind, lift. rewrite Hret. now destruct changed_fields.
Qed.

(** A parent's entry is one bulk task, whatever is related to the parent. *)
Lemma update_es_documents_entry_parent main_model es_document instance
  changed_fields query fields_map (q : list Task) :
  parent_route es_document instance query ->
  update_es_documents_entry w main_model es_document instance
    changed_fields query fields_map q
  = (Return tt,
     q ++ [update_child_documents_by_query_delay es_document
             (VObj instance)
             (get_fields_to_update changed_fields fields_map)
             (Some fields_map)]).
Proof.
  unfold update_es_documents_entry, is_one_of.
  intros [(Hclass & -> & ->) | (Hclass & ->)]; rewrite Hclass; reflexivity.
Qed.

(** With no per-field mapping a save that the detector survives is a full
    re-index, unless the audio gate is closed. *)
Lemma handle_save_no_entries self sender instance created update_fields
  (q : list Task) :
  ELASTICSEARCH_DISABLED w = false ->
  by_sender (save (documents_model_mapping self)) sender = Return [] ->
  created = true
  \/ (exists changed_fields,
        updated_fields w instance (es_document self)
        = Return changed_fields) ->
  handle_save w self sender instance created update_fields q
  = (Return tt,
     if avoid_es_audio_indexing w instance (es_document self) update_fields
     then q
     else q ++ [chain_apply_async (index_and_alert_chain w self instance)]).
Proof.
  intros Hon Hmap Hdet.
  unfold handle_save, elasticsearch_enabled. rewrite Hon.
  unfold bind at 1, lift at 1. rewrite Hmap.
  unfold bind at 1.
  destruct created; cbv beta iota delta [negb].
  - unfold ret at 1.
    now destruct (avoid_es_audio_indexing w instance (es_document self)
                    update_fields).
  - rewrite update_es_documents_no_entries by assumption.
    now destruct (avoid_es_audio_indexing w instance (es_document self)
                    update_fields).
Qed.

Lemma mentions_In (name : string) (names : list string) :
  mentions name names = true <-> In name names.
Proof.
  unfold mentions. rewrite existsb_exists. split.
  - intros (x & Hin & Heq). apply String.eqb_eq in Heq. now subst.
  - intro Hin. exists name. split; [assumption | apply String.eqb_refl].
Qed.

End DirectSave.

(** C1, as the code has it: on a save of a parent entity for which the
    detector reports a change, every entry of the save mapping that routes
    the parent to its own child documents -- a Person to the Position
    documents through the "person" path, a Docket to its RECAP documents --
    enqueues exactly one bulk update-children-by-query task, scoped to that
    parent and carrying the changed fields the entry's field map knows,
    however many child rows the parent has; the entries before and after it
    are handled by their own rules.  When every entry of the mapping is such
    a route, the save enqueues exactly one bulk task per entry, in the order
    of the mapping, and nothing else. *)
Theorem parent_save_one_bulk_task_per_entry (w : World)
  (self : ESSignalProcessor) (sender : ModelClass) (instance : Entity)
  (update_fields : option (list string)) (mapping_fields : Dict.t FieldsMap)
  (changed_fields : list string) (q : list Task) :
  ELASTICSEARCH_DISABLED w = false ->
  by_sender (save (documents_model_mapping self)) sender
  = Return mapping_fields ->
  updated_fields w instance (es_document self) = Return changed_fields ->
  changed_fields <> [] ->
  let bulk := fun fields_map : FieldsMap =>
    update_child_documents_by_query_delay (es_document self) (VObj instance)
      (get_fields_to_update changed_fields fields_map) (Some fields_map) in
  let entry := fun '(query, fields_map) =>
    update_es_documents_entry w (main_model self) (es_document self) instance
      changed_fields query fields_map in
  (forall before query fields_map after,
     mapping_fields = before ++ (query, fields_map) :: after ->
     parent_route (es_document self) instance query ->
     handle_save w self sender instance false update_fields q
     = (for_each before entry ;;
        delay (bulk fields_map) ;;
        for_each after entry) q)
  /\ (mapping_fields <> [] ->
      (forall query,
         In query (Dict.keys mapping_fields) ->
         parent_route (es_document self) instance query) ->
      handle_save w self sender instance false update_fields q
      = (Return tt,
         q ++ map (fun '(_, fields_map) => bulk fields_map) mapping_fields)).
Proof.
  intros Hon Hmap Hdet Hchanged bulk entry.
  assert (Hloop : mapping_fields <> [] ->
    handle_save w self sender instance false update_fields q
    = for_each mapping_fields entry q).
  { intro Hentries.
    unfold handle_save, elasticsearch_enabled. rewrite Hon.
    rewrite Hmap, bind_lift_return.
    cbv beta iota delta [negb].
    unfold update_es_documents.
    replace (match mapping_fields with
             | [] =>
                 if avoid_es_audio_indexing w instance (es_document self)
                      update_fields
                 then ret tt
                 else delay (chain_apply_async
                               (index_and_alert_chain w self instance))
             | _ :: _ => ret tt
             end) with (ret (A:=unit) tt)
      by (destruct mapping_fields; [congruence | reflexivity]).
    rewrite bind_ret_tt, Hdet, bind_lift_return.
    destruct changed_fields; [congruence | reflexivity]. }
  split.
  - intros before query fields_map after -> Hroute.
    rewrite Hloop by (now destruct before).
    rewrite for_each_app. simpl for_each. unfold bind.
    destruct (for_each before entry q) as [[[]|e] q1]; [|reflexivity].
    now rewrite update_es_documents_entry_parent.
  - intros Hentries Hroutes. rewrite Hloop by assumption.
    rewrite (for_each_tasks mapping_fields entry
               (fun '(_, fields_map) => [bulk fields_map])).
    { f_equal. f_equal. clear.
      induction mapping_fields as [|[query fields_map] rest IH]; simpl;
        [reflexivity | now rewrite IH]. }
    intros [query fields_map] q' Hin. unfold entry.
    apply update_es_documents_entry_parent. apply Hroutes.
    apply (in_map fst) in Hin. exact Hin.
Qed.

Lemma parent_save_one_bulk_task_per_entry_witness :
  handle_save Examples.judge_world Examples.position_processor Person
    Examples.judge false None []
  = (Return tt,
     [update_child_documents_by_query_delay PositionDocument
        (VObj Examples.judge) ["name"] (Some Examples.position_map)])
  /\ length (objects_filter Examples.judge_world Examples.Position "person"
               (VObj Examples.judge)) = 3%nat.
Proof.
  split; [|reflexivity].
  apply (proj2 (parent_save_one_bulk_task_per_entry Examples.judge_world
                  Examples.position_processor Person Examples.judge None
                  [("person", Examples.position_map)] ["name"; "age"] []
                  eq_refl eq_refl eq_refl ltac:(discriminate))).
  - discriminate.
  - intros query [<- | []]. left. repeat split.
Defined.

(** One save, more than one task: a Person whose mapping has a second path
    beside "person" gets the bulk task and, for that other path, one task
    per related position; a Docket whose mapping has two paths gets two bulk
    tasks. *)
Lemma parent_save_second_path_adds_tasks :
  handle_save Examples.supervisor_world Examples.supervisor_processor Person
    Examples.judge false None []
  = (Return tt,
     [ update_child_documents_by_query_delay PositionDocument
         (VObj Examples.judge) ["name"] (Some Examples.position_map);
       save_document_in_es_delay {| e_class := Examples.Position; pk := 34 |}
         PositionDocument;
       save_document_in_es_delay {| e_class := Examples.Position; pk := 35 |}
         PositionDocument ])
  /\ handle_save Examples.recap_world Examples.recap_processor Docket
       Examples.case_docket false None []
     = (Return tt,
        [ update_child_documents_by_query_delay ESRECAPDocument
            (VObj Examples.case_docket) ["docket_number"]
            (Some [("docket_number", ["docketNumber"])]);
          update_child_documents_by_query_delay ESRECAPDocument
            (VObj Examples.case_docket) ["date_argued"]
            (Some [("date_argued", ["dateArgued"])]) ]).
Proof.
  split; reflexivity.
Qed.

(** C3: a save under a save mapping with no per-field entries, not held
    back by the audio gate, enqueues exactly one chain of three steps --
    save the full document, evaluate the stored alerts, process the result
    of the evaluation -- and the chain hands each step the result of the one
    before it: the second step runs on the first one's result and the third
    on the second one's. *)
Theorem handle_save_chain (w : World) (self : ESSignalProcessor)
  (sender : ModelClass) (instance : Entity) (created : bool)
  (update_fields : option (list string)) (q : list Task) :
  ELASTICSEARCH_DISABLED w = false ->
  by_sender (save (documents_model_mapping self)) sender = Return [] ->
  created = true
  \/ (exists changed_fields,
        updated_fields w instance (es_document self)
        = Return changed_fields) ->
  avoid_es_audio_indexing w instance (es_document self) update_fields
  = false ->
  let step_a := save_document_in_es_si instance (es_document self) in
  let step_b := send_or_schedule_alerts_s (index_name w (es_document self)) in
  let step_c := process_percolator_response_s in
  handle_save w self sender instance created update_fields q
  = (Return tt, q ++ [chain_apply_async [step_a; step_b; step_c]])
  /\ forall (Result : Type) (worker : Signature -> option Result -> Result),
       let result_a := worker step_a None in
       let result_b := worker step_b (Some result_a) in
       let result_c := worker step_c (Some result_b) in
       run_chain Result worker [step_a; step_b; step_c] None
       = [ (step_a, None, result_a);
           (step_b, Some result_a, result_b);
           (step_c, Some result_b, result_c) ].
Proof.
  intros Hon Hmap Hdet Hgate. cbv zeta. split.
  - rewrite handle_save_no_entries by assumption. now rewrite Hgate.
  - reflexivity.
Qed.

Lemma handle_save_chain_witness :
  handle_save Examples.judge_world Examples.audio_processor Audio
    Examples.recording false (Some ["processing_complete"]) []
  = (Return tt,
     [chain_apply_async
        [ save_document_in_es_si Examples.recording AudioDocument;
          send_or_schedule_alerts_s "oral_arguments";
          process_percolator_response_s ]]).
Proof.
  apply (handle_save_chain Examples.judge_world Examples.audio_processor
           Audio Examples.recording false (Some ["processing_complete"]) []);
    try reflexivity.
  right. exists []. reflexivity.
Defined.

(** C4: for an Audio instance the gate answers "avoid indexing" exactly
    when its document is not yet in the index and the touched-field list is
    absent or does not name "processing_complete"; the save handler then
    enqueues nothing, and otherwise goes on to index: it enqueues the chain
    that saves the full document, evaluates the stored alerts and processes
    the result of the evaluation. *)
Theorem audio_gate (w : World) (self : ESSignalProcessor)
  (sender : ModelClass) (instance : Entity) (created : bool)
  (update_fields : option (list string)) (q : list Task) :
  e_class instance = Audio ->
  let avoid :=
    avoid_es_audio_indexing w instance (es_document self) update_fields in
  (avoid = true <->
   es_exists w (es_document self) (pk instance) = false
   /\ (update_fields = None
       \/ exists touched,
            update_fields = Some touched
            /\ ~ In "processing_complete" touched))
  /\ (ELASTICSEARCH_DISABLED w = false ->
      by_sender (save (documents_model_mapping self)) sender = Return [] ->
      created = true
      \/ (exists changed_fields,
            updated_fields w instance (es_document self)
            = Return changed_fields) ->
      (avoid = true ->
       handle_save w self sender instance created update_fields q
       = (Return tt, q))
      /\ (avoid = false ->
          handle_save w self sender instance created update_fields q
          = (Return tt,
             q ++ [chain_apply_async
                     [ save_document_in_es_si instance (es_document self);
                       send_or_schedule_alerts_s
                         (index_name w (es_document self));
                       process_percolator_response_s ]]))).
Proof.
  intros Hclass avoid. split.
  - subst avoid. unfold avoid_es_audio_indexing. rewrite Hclass. simpl.
    destruct (es_exists w (es_document self) (pk instance)); simpl.
    + split; [discriminate | intros [? _]; discriminate].
    + destruct update_fields as [[|field rest]|]; cbv beta iota.
      * split; [|reflexivity]. intros _. split; [reflexivity|].
        right. exists []. split; [reflexivity | intros []].
      * rewrite orb_false_l, andb_true_l, negb_true_iff,
          <- not_true_iff_false, mentions_In.
        split.
        -- intro Hnot. split; [reflexivity|]. right. now exists (field :: rest).
        -- intros [_ [Hnone | (touched & Heq & Hnot)]]; [discriminate|].
           now injection Heq as <-.
      * split; [|reflexivity]. intros _. split; [reflexivity | now left].
  - intros Hon Hmap Hdet.
    rewrite handle_save_no_entries by assumption. fold avoid.
    split; intros ->; reflexivity.
Qed.

Lemma audio_gate_witness :
  handle_save Examples.judge_world Examples.audio_processor Audio
    Examples.recording false (Some ["duration"]) [] = (Return tt, [])
  /\ handle_save Examples.indexed_recording_world Examples.audio_processor
       Audio Examples.recording false (Some ["duration"]) []
     = (Return tt,
        [chain_apply_async
           [ save_document_in_es_si Examples.recording AudioDocument;
             send_or_schedule_alerts_s "oral_arguments";
             process_percolator_response_s ]]).
Proof.
  split.
  - apply (audio_gate Examples.judge_world Examples.audio_processor Audio
             Examples.recording false (Some ["duration"]) []);
      try reflexivity.
    right. exists []. reflexivity.
  - apply (audio_gate Examples.indexed_recording_world
             Examples.audio_processor Audio Examples.recording false
             (Some ["duration"]) []);
      try reflexivity.
    right. exists []. reflexivity.
Defined.

(** *** Reverse mappings *)

(** C2: an Education row of a judge is saved while the judge has no Person
    document in the index.  The handler looks the document up with creation
    suppressed, skips the update of the parent and creates nothing -- and
    still enqueues the bulk update of the judge's Position documents, where
    the specification has it enqueue no task of any kind.  The reverse-delete flow
    gates the same bulk update on the parent document and enqueues nothing
    for the same judge. *)
Theorem reverse_update_absent_parent_enqueues :
  by_sender (reverse (documents_model_mapping Examples.person_processor))
    Education
  = Return [("educations", [(VStr "all", ["school"])])]
  /\ objects_filter Examples.degree_world Person "educations"
       (VObj Examples.degree) = [Examples.judge]
  /\ es_get Examples.degree_world PersonDocument
       (doc_id_of Examples.degree_world PersonDocument Examples.judge) = None
  /\ handle_reverse_actions Examples.degree_world Examples.person_processor
       Education Examples.degree []
     = (Return tt,
        [update_child_documents_by_query_delay PositionDocument
           (VObj Examples.judge) ["school"] None])
  /\ delete_reverse_related_documents Examples.degree_world Person
       PersonDocument (VObj Examples.judge) "educations" ["school"] []
     = (Return tt, []).
Proof.
  repeat split.
Qed.

(** *** Reverse-delete mappings *)

Section ReverseDelete.

Variable w : World.
Variable self : ESSignalProcessor.

(** A stale relation met at some entry cuts the loop there: the entry and
    all that follow it add nothing to what the entries before it did. *)
Lemma reverse_delete_loop_stale (before : Dict.t ReverseMap)
  (query_string : string) (fields_map : ReverseMap)
  (after : Dict.t ReverseMap) (affected_fields : list string) :
  forall (instance : Value) (q : list Task),
    affected_fields_of w (rebound w before instance) fields_map
    = Return affected_fields ->
    getattr_of w (rebound w before instance) (Str.last_lookup query_string)
    = RelatedGone ->
    reverse_delete_loop w self (before ++ (query_string, fields_map) :: after)
      instance q
    = reverse_delete_loop w self before instance q.
Proof.
  induction before as [|[query0 fields_map0] before IH];
    intros instance q Hfields Hstale.
  - simpl in *. unfold bind, lift. now rewrite Hfields, Hstale.
  - simpl app. simpl reverse_delete_loop. simpl rebound in Hfields, Hstale.
    unfold bind at 1 3, lift.
    destruct (affected_fields_of w instance fields_map0) as [fields0|e];
      [|reflexivity].
    destruct (getattr_of w instance (Str.last_lookup query0))
      as [related| |]; [| |reflexivity].
    + unfold bind.
      destruct (delete_reverse_related_documents w (main_model self)
                  (es_document self) related query0 fields0 q) as [[[]|e] q'];
        [now apply IH | reflexivity].
    + unfold bind.
      destruct (delete_reverse_related_documents w (main_model self)
                  (es_document self) instance query0 fields0 q)
        as [[[]|e] q']; [now apply IH | reflexivity].
Qed.

End ReverseDelete.

(** C9: when the traversal of a reverse-delete lookup path raises because
    the related object is already gone, the handler catches it and returns:
    the cascade of that entry (and of the entries after it) enqueues nothing
    and no exception leaves the handler -- what the handler did is what the
    entries before it did, and with the stale path first it is nothing at
    all. *)
Theorem stale_relation_aborts_cascade (w : World) (self : ESSignalProcessor)
  (sender : ModelClass) (instance : Entity)
  (before after : Dict.t ReverseMap) (query_string : string)
  (fields_map : ReverseMap) (affected_fields : list string) (q : list Task) :
  by_sender (reverse_delete (documents_model_mapping self)) sender
  = Return (before ++ (query_string, fields_map) :: after) ->
  affected_fields_of w (rebound w before (VObj instance)) fields_map
  = Return affected_fields ->
  getattr_of w (rebound w before (VObj instance))
    (Str.last_lookup query_string) = RelatedGone ->
  handle_reverse_actions_delete w self sender instance q
  = elasticsearch_enabled w
      (reverse_delete_loop w self before (VObj instance)) q
  /\ (before = [] ->
      handle_reverse_actions_delete w self sender instance q
      = (Return tt, q)).
Proof.
  intros Hmap Hfields Hstale.
  assert (Hcut :
    handle_reverse_actions_delete w self sender instance q
    = elasticsearch_enabled w
        (reverse_delete_loop w self before (VObj instance)) q).
  { unfold handle_reverse_actions_delete, elasticsearch_enabled.
    destruct (ELASTICSEARCH_DISABLED w); [reflexivity|].
    rewrite Hmap, bind_lift_return.
    now apply reverse_delete_loop_stale with (affected_fields := affected_fields). }
  split; [exact Hcut|].
  intros ->. rewrite Hcut. unfold elasticsearch_enabled.
  now destruct (ELASTICSEARCH_DISABLED w).
Qed.

Lemma stale_relation_aborts_cascade_witness :
  handle_reverse_actions_delete Examples.stale_world Examples.group_processor
    Examples.Citation Examples.citation [] = (Return tt, []).
Proof.
  apply (stale_relation_aborts_cascade Examples.stale_world
           Examples.group_processor Examples.Citation Examples.citation
           [] [("cluster", [(VStr "all", ["citation"])])]
           "opinion__cluster" [(VStr "all", ["citation"])] ["citation"] []);
    reflexivity.
Defined.

(** *** Many-to-many mappings *)

Section ManyToMany.

Variable w : World.
Variable es_document : ESDocument.
Variable affected_field : string.

Lemma update_m2m_field_in_es_document_tasks main_object (q : list Task) :
  prepared_for w es_document affected_field [main_object] ->
  update_m2m_field_in_es_document w main_object es_document affected_field q
  = (Return tt, q ++ m2m_recompute w es_document affected_field main_object).
Proof.
  intro Hprep.
  unfold update_m2m_field_in_es_document, m2m_recompute, get_or_create_doc,
    bind.
  destruct (es_get w es_document (doc_id_of w es_document main_object))
    as [document|] eqn:Hget; simpl.
  - destruct (doc_truthy document) eqn:Htruthy; simpl;
      [|now rewrite app_nil_r].
    destruct (Hprep main_object document (or_introl eq_refl) Hget Htruthy)
      as (prepare_method & v & -> & Hv).
    unfold lift. now rewrite Hv.
  - reflexivity.
Qed.

Lemma update_m2m_each_main_object (main_objects : list Entity) :
  prepared_for w es_document affected_field main_objects ->
  forall q,
    for_each main_objects
      (fun main_object =>
         update_m2m_field_in_es_document w main_object es_document
           affected_field) q
    = (Return tt,
       q ++ flat_map (m2m_recompute w es_document affected_field)
              main_objects).
Proof.
  induction main_objects as [|main_object rest IH]; intros Hprep q; simpl.
  - now rewrite app_nil_r.
  - unfold bind at 1.
    rewrite update_m2m_field_in_es_document_tasks.
    + rewrite IH, <- app_assoc; [reflexivity|].
      intros o d Hin. apply Hprep. now right.
    + intros o d [<- | []]. apply Hprep. now left.
Qed.

(** The three things an m2m change can do for a main entity. *)
Lemma m2m_recompute_cases (main_object : Entity) :
  let found :=
    es_get w es_document (doc_id_of w es_document main_object) in
  (found = None ->
   m2m_recompute w es_document affected_field main_object
   = [save_document_in_es_delay main_object es_document])
  /\ (forall document,
        found = Some document -> doc_truthy document = false ->
        m2m_recompute w es_document affected_field main_object = [])
  /\ (forall document prepare_method v,
        found = Some document -> doc_truthy document = true ->
        prepare w (doc_class document) affected_field = Some prepare_method ->
        prepare_method main_object = Prepares v ->
        m2m_recompute w es_document affected_field main_object
        = [update_document_in_es_delay document [(affected_field, v)]]).
Proof.
  unfold m2m_recompute. cbv zeta. repeat split.
  - now intros ->.
  - now intros document -> ->.
  - now intros document prepare_method v -> -> -> ->.
Qed.

End ManyToMany.

(** C8, as the code has it: an m2m change is dispatched for "post_add" and
    "post_remove" only, any other action leaving the queue untouched.  For a
    qualifying action under a mapping of one entry whose field map is not
    empty, and where the prepare_ method of the affected field exists and
    returns for every document that is found and holds something, each main
    entity the key stands for is handled exactly once, in order: if its
    document is in the index and holds a stored field, one update that
    overwrites the affected field with the document's prepare_
    re-projection; if it is not in the index, one full-creation task and no
    field update; if it is found but holds nothing, no task at all. *)
Theorem handle_m2m_dispatch (w : World) (self : ESSignalProcessor)
  (sender : ModelClass) (instance : Entity) (action : string)
  (q : list Task) :
  (action <> "post_add" -> action <> "post_remove" ->
   handle_m2m w self sender instance action q = (Return tt, q))
  /\ (forall key fields_map affected_field other_fields,
        action = "post_add" \/ action = "post_remove" ->
        ELASTICSEARCH_DISABLED w = false ->
        by_sender (m2m (documents_model_mapping self)) sender
        = Return [(key, fields_map)] ->
        Dict.keys fields_map = affected_field :: other_fields ->
        let main_objects :=
          m2m_main_objects w (main_model self) key instance in
        prepared_for w (es_document self) affected_field main_objects ->
        handle_m2m w self sender instance action q
        = (Return tt,
           q ++ flat_map
                  (m2m_recompute w (es_document self) affected_field)
                  main_objects))
  /\ (forall affected_field main_object,
        let found :=
          es_get w (es_document self)
            (doc_id_of w (es_document self) main_object) in
        (found = None ->
         m2m_recompute w (es_document self) affected_field main_object
         = [save_document_in_es_delay main_object (es_document self)])
        /\ (forall document,
              found = Some document -> doc_truthy document = false ->
              m2m_recompute w (es_document self) affected_field main_object
              = [])
        /\ (forall document prepare_method v,
              found = Some document -> doc_truthy document = true ->
              prepare w (doc_class document) affected_field
              = Some prepare_method ->
              prepare_method main_object = Prepares v ->
              m2m_recompute w (es_document self) affected_field main_object
              = [update_document_in_es_delay document
                   [(affected_field, v)]])).
Proof.
  split; [|split].
  - intros Hadd Hremove. unfold handle_m2m, elasticsearch_enabled.
    apply String.eqb_neq in Hadd, Hremove. rewrite Hadd, Hremove.
    now destruct (ELASTICSEARCH_DISABLED w).
  - intros key fields_map affected_field other_fields Haction Hon Hmap Hkeys
      main_objects Hprep.
    unfold handle_m2m, elasticsearch_enabled. rewrite Hon.
    assert (Hqual : String.eqb action "post_add"
                    || String.eqb action "post_remove" = true).
    { destruct Haction as [-> | ->]; reflexivity. }
    rewrite Hqual, Hmap, bind_lift_return.
    simpl for_each. rewrite Hkeys.
    unfold update_remove_m2m_documents. simpl for_each.
    subst main_objects. unfold m2m_main_objects in *.
    unfold bind at 1 2.
    destruct (String.eqb (Str.lower (class_name (main_model self))) key);
      cbv beta iota delta [negb].
    + rewrite update_m2m_field_in_es_document_tasks by assumption.
      simpl. now rewrite app_nil_r.
    + now rewrite update_m2m_each_main_object by assumption.
  - intros affected_field main_object.
    apply m2m_recompute_cases.
Qed.

Lemma handle_m2m_dispatch_witness :
  handle_m2m Examples.panel_world Examples.audio_processor
    Examples.Audio_panel Examples.recording "pre_clear" [] = (Return tt, [])
  /\ handle_m2m Examples.panel_world Examples.audio_processor
       Examples.Audio_panel Examples.recording "post_remove" []
     = (Return tt,
        [update_document_in_es_delay Examples.recording_doc
           [("panel_ids", VInts [2; 3]%Z)]])
  /\ handle_m2m Examples.empty_recording_world Examples.audio_processor
       Examples.Audio_panel Examples.recording "post_remove" []
     = (Return tt, []).
Proof.
  split; [|split].
  - apply (handle_m2m_dispatch Examples.panel_world Examples.audio_processor
             Examples.Audio_panel Examples.recording "pre_clear" []);
      discriminate.
  - apply (proj1 (proj2 (handle_m2m_dispatch Examples.panel_world
                           Examples.audio_processor Examples.Audio_panel
                           Examples.recording "post_remove" []))
             "audio" [("panel_ids", "panel_ids")] "panel_ids" []);
      try reflexivity.
    + now right.
    + intros main_object document _ _ _.
      eexists; eexists; split; reflexivity.
  - apply (proj1 (proj2 (handle_m2m_dispatch Examples.empty_recording_world
                           Examples.audio_processor Examples.Audio_panel
                           Examples.recording "post_remove" []))
             "audio" [("panel_ids", "panel_ids")] "panel_ids" []);
      try reflexivity.
    + now right.
    + intros main_object document [<- | []] [= <-] Htruthy.
      discriminate Htruthy.
Defined.

(** A panel change on a recording that is not in the index: the handler
    schedules the creation of the document and recomputes no field. *)
Lemma handle_m2m_unindexed_not_recomputed :
  m2m_main_objects Examples.judge_world Audio "audio" Examples.recording
  = [Examples.recording]
  /\ handle_m2m Examples.judge_world Examples.audio_processor
       Examples.Audio_panel Examples.recording "post_remove" []
     = (Return tt,
        [save_document_in_es_delay Examples.recording AudioDocument])
  /\ forall document fields_values,
       ~ In (update_document_in_es_delay document fields_values)
           (snd (handle_m2m Examples.judge_world Examples.audio_processor
                   Examples.Audio_panel Examples.recording "post_remove" [])).
Proof.
  repeat split.
  intros document fields_values [Heq | []]. discriminate Heq.
Qed.

(** ** Further properties of the signal processor *)

(** *** The detector on arbitrary trackers *)

Section DetectorEdges.

Variable w : World.
Variable instance : Entity.

(** The branch taken after FieldDoesNotExist never skips a field: by then
    the attribute has been read, so [hasattr] holds. *)
Lemma current_value_to_compare_never_skips (field : string) :
  current_value_to_compare w instance field <> Return None.
Proof.
  unfold current_value_to_compare, hasattr.
  destruct (getattr w instance field) as [v| |]; try discriminate.
  destruct (get_field w (e_class instance) field) as [internal_type|].
  - destruct (String.eqb internal_type "ForeignKey" && truthy v
              && negb (Str.endswith field "_id")); [|discriminate].
    destruct v; discriminate.
  - discriminate.
Qed.

Lemma subsequence_refl {A} (l : list A) : subsequence l l.
Proof. induction l; constructor; assumption. Qed.

(** Whenever the loop returns, it has appended to its accumulator some of
    the names it was given, in their order. *)
Lemma updated_fields_loop_subsequence (tracker : FieldTracker)
  (todo : list string) :
  forall changed_fields result,
    updated_fields_loop w instance tracker todo changed_fields
    = Return result ->
    exists kept, result = changed_fields ++ kept /\ subsequence kept todo.
Proof.
  induction todo as [|field rest IH]; intros changed_fields result; simpl.
  - intros [= <-]. exists []. split; [now rewrite app_nil_r | constructor].
  - destruct (current_value_to_compare w instance field) as [[v|]|e];
      [| |discriminate].
    + destruct (negb (Value_eqb v (previous tracker field))); intro Hloop;
        apply IH in Hloop; destruct Hloop as (kept & -> & Hsub).
      * exists (field :: kept). split; [now rewrite <- app_assoc|].
        now constructor.
      * exists kept. split; [reflexivity | now constructor].
    + intro Hloop. apply IH in Hloop. destruct Hloop as (kept & -> & Hsub).
      exists kept. split; [reflexivity | now constructor].
Qed.

(** The loop raises at the first name it cannot read. *)
Lemma updated_fields_loop_unreadable (tracker : FieldTracker)
  (before : list string) (field : string) (after : list string) :
  Forall (readable w instance) before ->
  getattr w instance field = NoAttribute ->
  forall changed_fields,
    updated_fields_loop w instance tracker (before ++ field :: after)
      changed_fields = Raise AttributeError.
Proof.
  intros Hbefore Hfield.
  induction Hbefore as [|name rest Hname _ IH]; intro changed_fields; simpl.
  - unfold current_value_to_compare. now rewrite Hfield.
  - destruct (current_value_to_compare_readable w instance name Hname)
      as (v & _ & ->).
    match goal with
    | |- context [negb ?c] => destruct (negb c); apply IH
    end.
Qed.

End DetectorEdges.

(** X1: whenever the detector returns -- nothing assumed of the tracked
    names -- what it returns is a selection of the tracker's names in the
    tracker's order: no name that is not tracked, none reordered. *)
Theorem updated_fields_subsequence (w : World) (instance : Entity)
  (es_document : ESDocument) (tracker : FieldTracker)
  (changed_fields : list string) :
  tracked_set w instance es_document = Some tracker ->
  updated_fields w instance es_document = Return changed_fields ->
  subsequence changed_fields (fields tracker).
Proof.
  unfold updated_fields. intros -> Hloop.
  apply updated_fields_loop_subsequence in Hloop.
  destruct Hloop as (kept & -> & Hsub). exact Hsub.
Qed.

Lemma updated_fields_subsequence_witness :
  subsequence ["name"; "age"] ["name"; "court"; "court_id"; "age"].
Proof.
  apply (updated_fields_subsequence Examples.judge_world Examples.judge
           PositionDocument Examples.judge_tracker ["name"; "age"]);
    reflexivity.
Defined.

(** X2: the detector never skips a tracked name: the branch that follows
    FieldDoesNotExist cannot reach its [continue], because the attribute was
    read before the try.  A tracked name that is not an attribute of the
    instance therefore makes the detector raise AttributeError. *)
Theorem updated_fields_unreadable_raises (w : World) (instance : Entity)
  (es_document : ESDocument) (tracker : FieldTracker)
  (before : list string) (field : string) (after : list string) :
  (forall name, current_value_to_compare w instance name <> Return None)
  /\ (tracked_set w instance es_document = Some tracker ->
      fields tracker = before ++ field :: after ->
      Forall (readable w instance) before ->
      getattr w instance field = NoAttribute ->
      updated_fields w instance es_document = Raise AttributeError).
Proof.
  split.
  - apply current_value_to_compare_never_skips.
  - unfold updated_fields. intros -> -> Hbefore Hfield.
    now apply updated_fields_loop_unreadable.
Qed.

(** *** Field selection, completed *)

Section SelectionEdges.

Variable fields_map : FieldsMap.

Lemma get_fields_to_update_loop_acc (changed_fields acc : list string) :
  get_fields_to_update_loop changed_fields fields_map acc
  = acc ++ get_fields_to_update_loop changed_fields fields_map [].
Proof.
  revert acc; induction changed_fields as [|field rest IH]; intro acc; simpl.
  - now rewrite app_nil_r.
  - rewrite IH. symmetry. rewrite IH. symmetry.
    destruct (Dict.mem field fields_map);
      destruct (Dict.mem (display_of field) fields_map);
      simpl; now rewrite <- ?app_assoc.
Qed.

Lemma get_fields_to_update_cons (field : string) (rest : list string) :
  get_fields_to_update (field :: rest) fields_map
  = (if Dict.mem field fields_map then [field] else [])
    ++ (if Dict.mem (display_of field) fields_map
        then [display_of field] else [])
    ++ get_fields_to_update rest fields_map.
Proof.
  unfold get_fields_to_update. simpl.
  rewrite get_fields_to_update_loop_acc.
  destruct (Dict.mem field fields_map);
    destruct (Dict.mem (display_of field) fields_map); reflexivity.
Qed.

End SelectionEdges.

(** X3: field selection works name by name: selecting from the
    concatenation of two lists of changed fields gives the concatenation of
    the two selections. *)
Theorem get_fields_to_update_app (changed1 changed2 : list string)
  (fields_map : FieldsMap) :
  get_fields_to_update (changed1 ++ changed2) fields_map
  = get_fields_to_update changed1 fields_map
    ++ get_fields_to_update changed2 fields_map.
Proof.
  induction changed1 as [|field rest IH]; [reflexivity|].
  simpl app. rewrite !get_fields_to_update_cons, IH.
  now rewrite <- !app_assoc.
Qed.

(** X4: field selection misses nothing: a changed field that is a key of
    the map is selected, and so is "get_X_display" for a changed X when that
    is a key.  The selection is empty exactly when no changed field has
    either form among the keys. *)
Theorem get_fields_to_update_complete (changed_fields : list string)
  (fields_map : FieldsMap) :
  let selected := get_fields_to_update changed_fields fields_map in
  (forall field, In field changed_fields ->
     (is_key fields_map field -> In field selected)
     /\ (is_key fields_map (display_of field) ->
         In (display_of field) selected))
  /\ (selected = [] <->
      forall field, In field changed_fields ->
        ~ is_key fields_map field /\ ~ is_key fields_map (display_of field)).
Proof.
  cbv zeta. unfold is_key.
  induction changed_fields as [|field rest [IHin IHnil]].
  - split; [intros ? [] | split; [intros _ ? [] | reflexivity]].
  - rewrite get_fields_to_update_cons. split.
    + intros name [<- | Hin].
      * split; intro Hkey; apply mem_keys in Hkey; rewrite Hkey.
        -- now left.
        -- apply in_or_app. right. now left.
      * destruct (IHin name Hin) as [Hplain Hdisplay].
        split; intro Hkey; apply in_or_app; right; apply in_or_app; right;
          auto.
    + split.
      * intros Hnil name [<- | Hin].
        -- destruct (Dict.mem field fields_map) eqn:Hplain;
             [discriminate Hnil|].
           destruct (Dict.mem (display_of field) fields_map) eqn:Hdisplay;
             [discriminate Hnil|].
           rewrite <- !mem_keys. now rewrite Hplain, Hdisplay.
        -- apply IHnil; [|assumption].
           destruct (Dict.mem field fields_map); [discriminate Hnil|].
           destruct (Dict.mem (display_of field) fields_map);
             [discriminate Hnil | exact Hnil].
      * intro Hnone.
        destruct (Hnone field (or_introl eq_refl)) as [Hplain Hdisplay].
        rewrite <- mem_keys in Hplain, Hdisplay.
        apply not_true_is_false in Hplain, Hdisplay.
        rewrite Hplain, Hdisplay. simpl.
        apply IHnil. intros name Hin. apply Hnone. now right.
Qed.

(** *** The projected payload *)

Section PayloadKeys.

Context {V : Type}.

Lemma set_keys (d : Dict.t V) (k : string) (v : V) :
  Dict.keys (Dict.set d k v)
  = if Dict.mem k d then Dict.keys d else Dict.keys d ++ [k].
Proof.
  unfold Dict.mem, Dict.keys.
  induction d as [|[k' v'] d IH]; simpl; [reflexivity|].
  destruct (String.eqb k k') eqn:Heq; simpl; [reflexivity|].
  rewrite IH. now destruct (existsb (String.eqb k) (map fst d)).
Qed.

Lemma set_keys_In (d : Dict.t V) (k : string) (v : V) (name : string) :
  In name (Dict.keys (Dict.set d k v)) <-> In name (Dict.keys d) \/ name = k.
Proof.
  rewrite set_keys. destruct (Dict.mem k d) eqn:Hmem.
  - apply mem_keys in Hmem. split; [now left|].
    intros [Hin | ->]; assumption.
  - rewrite in_app_iff. simpl. intuition.
Qed.

Lemma set_keys_NoDup (d : Dict.t V) (k : string) (v : V) :
  NoDup (Dict.keys d) -> NoDup (Dict.keys (Dict.set d k v)).
Proof.
  intro Hnodup. rewrite set_keys. destruct (Dict.mem k d) eqn:Hmem;
    [assumption|].
  apply NoDup_app; [assumption | repeat constructor; intros [] |].
  intros name Hin [<- | []].
  apply mem_keys in Hin. congruence.
Qed.

(** Reading back what was just assigned, and what was not. *)
Lemma get_set_same (d : Dict.t V) (k : string) (v : V) :
  Dict.get (Dict.set d k v) k = Some v.
Proof.
  induction d as [|[k' v'] d IH]; simpl.
  - now rewrite String.eqb_refl.
  - destruct (String.eqb k k') eqn:Heq; simpl; rewrite Heq; auto.
Qed.

Lemma get_set_other (d : Dict.t V) (k : string) (v : V) (name : string) :
  name <> k -> Dict.get (Dict.set d k v) name = Dict.get d name.
Proof.
  intro Hneq. apply String.eqb_neq in Hneq.
  induction d as [|[k' v'] d IH]; simpl.
  - now rewrite Hneq.
  - destruct (String.eqb k k') eqn:Heq; simpl.
    + apply String.eqb_eq in Heq. subst k'. now rewrite Hneq.
    + now rewrite IH.
Qed.

End PayloadKeys.

Section Projection.

Variable w : World.
Variable main_doc : ESDoc.
Variable main_object : Entity.
Variable instance : Entity.

Lemma project_doc_fields_keys (field : string)
  (document_fields : list string) :
  forall acc payload,
    project_doc_fields w main_doc main_object field instance document_fields
      acc = Return payload ->
    (NoDup (Dict.keys acc) -> NoDup (Dict.keys payload))
    /\ forall name,
         In name (Dict.keys payload) <->
         In name (Dict.keys acc) \/ In name document_fields.
Proof.
  induction document_fields as [|doc_field rest IH]; intros acc payload;
    simpl.
  - intros [= <-]. split; [auto | intuition].
  - match goal with
    | |- match ?value with _ => _ end = _ -> _ =>
        destruct value as [v|e]; [|discriminate]
    end.
    intro Hrest. apply IH in Hrest. destruct Hrest as [Hnodup Hkeys].
    split.
    + intro Hacc. apply Hnodup. now apply set_keys_NoDup.
    + intro name. rewrite Hkeys, set_keys_In. intuition.
Qed.

Variable fields_map : FieldsMap.

Lemma document_fields_to_update_loop_keys (field_list : list string) :
  forall acc payload,
    document_fields_to_update_loop w main_doc main_object field_list
      instance fields_map acc = Return payload ->
    (NoDup (Dict.keys acc) -> NoDup (Dict.keys payload))
    /\ forall name,
         In name (Dict.keys payload) <->
         In name (Dict.keys acc)
         \/ exists field document_fields,
              In field field_list
              /\ Dict.get fields_map field = Some document_fields
              /\ In name document_fields.
Proof.
  induction field_list as [|field rest IH]; intros acc payload; simpl.
  - intros [= <-]. split; [auto|].
    intro name. split; [now left | intros [H | (? & ? & [] & _)]; exact H].
  - destruct (Dict.get fields_map field) as [document_fields|] eqn:Hget;
      [|discriminate].
    destruct (project_doc_fields w main_doc main_object field instance
                document_fields acc) as [d|e] eqn:Hinner; [|discriminate].
    intro Hrest. apply IH in Hrest. destruct Hrest as [Hnodup Hkeys].
    apply project_doc_fields_keys in Hinner.
    destruct Hinner as [Hnodup' Hkeys'].
    split; [auto|].
    intro name. rewrite Hkeys, Hkeys'. split.
    + intros [[Hacc | Hhere] | (f & dfs & Hin & Hf & Hname)].
      * now left.
      * right. exists field, document_fields. auto.
      * right. exists f, dfs. auto.
    + intros [Hacc | (f & dfs & [<- | Hin] & Hf & Hname)].
      * auto.
      * rewrite Hget in Hf. injection Hf as <-. auto.
      * right. exists f, dfs. auto.
Qed.

(** The loop over a concatenation runs the two halves in sequence. *)
Lemma document_fields_to_update_loop_app (before after : list string) :
  forall acc,
    document_fields_to_update_loop w main_doc main_object (before ++ after)
      instance fields_map acc
    = match document_fields_to_update_loop w main_doc main_object before
              instance fields_map acc with
      | Return d =>
          document_fields_to_update_loop w main_doc main_object after
            instance fields_map d
      | Raise e => Raise e
      end.
Proof.
  induction before as [|field rest IH]; intro acc; simpl; [reflexivity|].
  destruct (Dict.get fields_map field) as [document_fields|]; [|reflexivity].
  destruct (project_doc_fields w main_doc main_object field instance
              document_fields acc); [apply IH | reflexivity].
Qed.

End Projection.

(** X5: a payload the projector returns has every document field once, and
    its document fields are exactly those the field map lists for the fields
    it was asked to update. *)
Theorem document_fields_to_update_keys (w : World) (main_doc : ESDoc)
  (main_object : Entity) (field_list : list string) (instance : Entity)
  (fields_map : FieldsMap) (payload : Dict.t Value) :
  document_fields_to_update w main_doc main_object field_list instance
    fields_map = Return payload ->
  NoDup (Dict.keys payload)
  /\ forall doc_field,
       In doc_field (Dict.keys payload) <->
       exists field document_fields,
         In field field_list
         /\ Dict.get fields_map field = Some document_fields
         /\ In doc_field document_fields.
Proof.
  intro Hpayload.
  apply document_fields_to_update_loop_keys in Hpayload.
  destruct Hpayload as [Hnodup Hkeys]. split.
  - apply Hnodup. constructor.
  - intro doc_field. rewrite Hkeys. simpl. intuition.
Qed.

Lemma document_fields_to_update_keys_witness :
  NoDup ["judge"; "judge_exact"]
  /\ (In "judge_exact" ["judge"; "judge_exact"] <->
      exists field document_fields,
        In field ["name"; "age"]
        /\ Dict.get [("name", ["judge"; "judge_exact"]); ("age", ["judge"])]
             field = Some document_fields
        /\ In "judge_exact" document_fields).
Proof.
  destruct (document_fields_to_update_keys Examples.judge_world
              Examples.judge_doc Examples.judge ["name"; "age"]
              Examples.judge
              [("name", ["judge"; "judge_exact"]); ("age", ["judge"])]
              [("judge", VInt 61); ("judge_exact", VStr "Ada B.")]
              eq_refl) as [Hnodup Hkeys].
  split; [exact Hnodup | exact (Hkeys "judge_exact")].
Defined.

(** X6: the projector raises KeyError at the first field of its list that
    the field map has no entry for, whatever follows it. *)
Theorem document_fields_to_update_missing_key (w : World) (main_doc : ESDoc)
  (main_object : Entity) (before : list string) (field : string)
  (after : list string) (instance : Entity) (fields_map : FieldsMap)
  (payload : Dict.t Value) :
  document_fields_to_update w main_doc main_object before instance
    fields_map = Return payload ->
  Dict.get fields_map field = None ->
  document_fields_to_update w main_doc main_object (before ++ field :: after)
    instance fields_map = Raise KeyError.
Proof.
  unfold document_fields_to_update. intros Hbefore Hmissing.
  rewrite document_fields_to_update_loop_app, Hbefore.
  simpl. now rewrite Hmissing.
Qed.

Lemma document_fields_to_update_missing_key_witness :
  document_fields_to_update Examples.judge_world Examples.judge_doc
    Examples.judge (["name"] ++ "salary" :: ["age"]) Examples.judge
    [("name", ["judge"]); ("age", ["judge"])]
  = Raise KeyError.
Proof.
  apply (document_fields_to_update_missing_key Examples.judge_world
           Examples.judge_doc Examples.judge ["name"] "salary" ["age"]
           Examples.judge [("name", ["judge"]); ("age", ["judge"])]
           [("judge", VStr "Ada B.")]);
    reflexivity.
Defined.

Lemma updated_fields_unreadable_raises_witness :
  updated_fields Examples.salary_world Examples.judge PositionDocument
  = Raise AttributeError.
Proof.
  apply (updated_fields_unreadable_raises Examples.salary_world
           Examples.judge PositionDocument Examples.salary_tracker
           ["name"] "salary" ["age"]);
    try reflexivity.
  apply Forall_cons; [|apply Forall_nil].
  eexists; split; [reflexivity | vm_compute; discriminate].
Defined.

(** *** The routes of a direct save *)

Section Routes.

Variable w : World.

Lemma bulk_route_false es_document instance query :
  bulk_route es_document instance query = false ->
  forall main_model changed_fields fields_map,
    update_es_documents_entry w main_model es_document instance
      changed_fields query fields_map
    = for_each (objects_filter w main_model query (VObj instance))
        (fun main_object =>
           main_doc <- get_or_create_doc w es_document main_object false ;;
           match main_doc with
           | None => ret tt
           | Some main_doc =>
               if negb (doc_truthy main_doc) then ret tt
               else
                 match get_fields_to_update changed_fields fields_map with
                 | [] => ret tt
                 | _ =>
                     payload <-
                       lift (document_fields_to_update w main_doc main_object
                               (get_fields_to_update changed_fields
                                  fields_map)
                               instance fields_map) ;;
                     delay (update_document_in_es_delay main_doc payload)
                 end
           end).
Proof.
  unfold bulk_route, update_es_documents_entry. intro Hroute.
  apply orb_false_iff in Hroute. destruct Hroute as [Hroute H4].
  apply orb_false_iff in Hroute. destruct Hroute as [Hroute H3].
  apply orb_false_iff in Hroute. destruct Hroute as [H1 H2].
  intros. now rewrite H1, H2, H3, H4.
Qed.

Lemma default_route_one_object es_document instance fields_to_update
  fields_map main_object (q : list Task) :
  projections_succeed w es_document instance fields_to_update fields_map
    [main_object] ->
  (main_doc <- get_or_create_doc w es_document main_object false ;;
   match main_doc with
   | None => ret tt
   | Some main_doc =>
       if negb (doc_truthy main_doc) then ret tt
       else
         match fields_to_update with
         | [] => ret tt
         | _ =>
             payload <-
               lift (document_fields_to_update w main_doc main_object
                       fields_to_update instance fields_map) ;;
             delay (update_document_in_es_delay main_doc payload)
         end
   end) q
  = (Return tt,
     q ++ default_route_tasks w es_document instance fields_to_update
            fields_map main_object).
Proof.
  intro Hproj.
  unfold default_route_tasks, get_or_create_doc, bind.
  destruct (es_get w es_document (doc_id_of w es_document main_object))
    as [main_doc|] eqn:Hget; simpl.
  - destruct (doc_truthy main_doc) eqn:Htruthy; simpl;
      [|now rewrite app_nil_r].
    destruct fields_to_update as [|field rest];
      [now rewrite app_nil_r|].
    destruct (Hproj main_object main_doc (or_introl eq_refl) Hget Htruthy)
      as [payload Hpayload].
    unfold lift. rewrite Hpayload. reflexivity.
  - reflexivity.
Qed.

End Routes.

(** X7: a change of a lookup record shared by many parents is answered with
    one bulk task per related parent, in the order the store lists them, and
    with nothing else: an ABARating, PoliticalAffiliation or School under
    Position documents gives one task per related Person, a Person under
    RECAP documents one per related Docket.  No single document is looked up
    and none is created. *)
Theorem lookup_route_one_bulk_task_per_parent (w : World)
  (main_model : ModelClass) (es_document : ESDocument) (instance : Entity)
  (changed_fields : list string) (query : string) (fields_map : FieldsMap)
  (q : list Task) :
  let bulk parent :=
    update_child_documents_by_query_delay es_document (VObj parent)
      (get_fields_to_update changed_fields fields_map) (Some fields_map) in
  (is_one_of instance [ABARating; PoliticalAffiliation; School] = true ->
   es_document = PositionDocument ->
   update_es_documents_entry w main_model es_document instance
     changed_fields query fields_map q
   = (Return tt,
      q ++ map bulk (objects_filter w Person query (VObj instance))))
  /\ (e_class instance = Person ->
      es_document = ESRECAPDocument ->
      update_es_documents_entry w main_model es_document instance
        changed_fields query fields_map q
      = (Return tt,
         q ++ map bulk (objects_filter w Docket query (VObj instance)))).
Proof.
  cbv zeta. split.
  - intros Hclass ->. unfold update_es_documents_entry.
    rewrite Hclass.
    replace (is_one_of instance [Person]) with false
      by (unfold is_one_of in *; destruct (e_class instance);
          simpl in *; congruence).
    simpl. apply for_each_delay.
  - intros Hclass ->. unfold update_es_documents_entry, is_one_of.
    rewrite Hclass. simpl. apply for_each_delay.
Qed.

Lemma lookup_route_one_bulk_task_per_parent_witness :
  update_es_documents_entry Examples.school_world Examples.Position
    PositionDocument Examples.law_school ["name"] "educations__school"
    [("name", ["school"])] []
  = (Return tt,
     [ update_child_documents_by_query_delay PositionDocument
         (VObj Examples.judge) ["name"] (Some [("name", ["school"])]);
       update_child_documents_by_query_delay PositionDocument
         (VObj Examples.second_judge) ["name"]
         (Some [("name", ["school"])]) ]).
Proof.
  apply (lookup_route_one_bulk_task_per_parent Examples.school_world
           Examples.Position PositionDocument Examples.law_school ["name"]
           "educations__school" [("name", ["school"])] []);
    reflexivity.
Defined.

(** X8: outside the bulk pairings a change is answered main object by main
    object, in the order the store lists them: an object whose document is
    missing gets one full-creation task and no update in the same pass; an
    object whose document is there and holds a stored field gets one update
    carrying the projected payload, or nothing when no changed field is in
    the field map; an object whose document is found but holds nothing is
    passed over.  Holds when the projection does not raise. *)
Theorem default_route_per_main_object (w : World) (main_model : ModelClass)
  (es_document : ESDocument) (instance : Entity)
  (changed_fields : list string) (query : string) (fields_map : FieldsMap)
  (q : list Task) :
  let fields_to_update := get_fields_to_update changed_fields fields_map in
  let main_objects := objects_filter w main_model query (VObj instance) in
  bulk_route es_document instance query = false ->
  projections_succeed w es_document instance fields_to_update fields_map
    main_objects ->
  update_es_documents_entry w main_model es_document instance
    changed_fields query fields_map q
  = (Return tt,
     q ++ flat_map
            (default_route_tasks w es_document instance fields_to_update
               fields_map)
            main_objects).
Proof.
  intros fields_to_update main_objects Hroute Hproj.
  rewrite bulk_route_false by assumption.
  apply for_each_tasks. intros main_object q' Hin.
  apply default_route_one_object.
  intros o d [<- | []] Hget Htruthy. now apply (Hproj main_object d).
Qed.

Lemma default_route_per_main_object_witness :
  update_es_documents_entry Examples.docket_recordings_world Audio
    AudioDocument Examples.case_docket ["date_argued"] "docket"
    Examples.argued_map []
  = (Return tt,
     [ update_document_in_es_delay Examples.recording_doc
         [("dateArgued", VStr "2020-03-02")];
       save_document_in_es_delay Examples.second_recording AudioDocument ])
  /\ update_es_documents_entry Examples.docket_empty_recording_world Audio
       AudioDocument Examples.case_docket ["date_argued"] "docket"
       Examples.argued_map []
     = (Return tt,
        [save_document_in_es_delay Examples.second_recording AudioDocument]).
Proof.
  split.
  - apply (default_route_per_main_object Examples.docket_recordings_world
             Audio AudioDocument Examples.case_docket ["date_argued"] "docket"
             Examples.argued_map []);
      [reflexivity|].
    intros main_object main_doc [<- | [<- | []]] Hget Htruthy.
    + eexists. reflexivity.
    + discriminate Hget.
  - apply (default_route_per_main_object
             Examples.docket_empty_recording_world Audio AudioDocument
             Examples.case_docket ["date_argued"] "docket"
             Examples.argued_map []);
      [reflexivity|].
    intros main_object main_doc [<- | [<- | []]] Hget Htruthy.
    + injection Hget as <-. discriminate Htruthy.
    + discriminate Hget.
Defined.

(** X9: when none of the changed fields is in the field map, the default
    route patches nothing; all it enqueues is the creation of the documents
    that are missing, one per main object without a document. *)
Theorem default_route_nothing_selected (w : World) (main_model : ModelClass)
  (es_document : ESDocument) (instance : Entity)
  (changed_fields : list string) (query : string) (fields_map : FieldsMap)
  (q : list Task) :
  bulk_route es_document instance query = false ->
  get_fields_to_update changed_fields fields_map = [] ->
  update_es_documents_entry w main_model es_document instance
    changed_fields query fields_map q
  = (Return tt,
     q ++ map (fun main_object =>
                 save_document_in_es_delay main_object es_document)
            (filter (unindexed w es_document)
               (objects_filter w main_model query (VObj instance)))).
Proof.
  intros Hroute Hnone.
  rewrite bulk_route_false by assumption. rewrite Hnone.
  generalize (objects_filter w main_model query (VObj instance)) as objs.
  intro objs. revert q. induction objs as [|o objs IH]; intro q; simpl.
  - now rewrite app_nil_r.
  - unfold bind at 1 2, get_or_create_doc, unindexed.
    destruct (es_get w es_document (doc_id_of w es_document o))
      as [main_doc|]; simpl.
    + destruct (doc_truthy main_doc); apply IH.
    + rewrite IH, <- app_assoc. reflexivity.
Qed.

Lemma default_route_nothing_selected_witness :
  update_es_documents_entry Examples.docket_recordings_world Audio
    AudioDocument Examples.case_docket ["slug"] "docket"
    Examples.argued_map []
  = (Return tt,
     [save_document_in_es_delay Examples.second_recording AudioDocument]).
Proof.
  apply (default_route_nothing_selected Examples.docket_recordings_world
           Audio AudioDocument Examples.case_docket ["slug"] "docket"
           Examples.argued_map []);
    reflexivity.
Defined.

(** X10: under a save mapping that has per-field entries the handler never
    enqueues the indexing chain and never consults the audio gate: a freshly
    created instance enqueues nothing at all, and any other save does what
    the update path does and nothing more. *)
Theorem handle_save_with_entries (w : World) (self : ESSignalProcessor)
  (sender : ModelClass) (instance : Entity) (created : bool)
  (update_fields : option (list string))
  (mapping_fields : Dict.t FieldsMap) (q : list Task) :
  ELASTICSEARCH_DISABLED w = false ->
  by_sender (save (documents_model_mapping self)) sender
  = Return mapping_fields ->
  mapping_fields <> [] ->
  handle_save w self sender instance created update_fields q
  = if created then (Return tt, q)
    else update_es_documents w (main_model self) (es_document self) instance
           false mapping_fields q.
Proof.
  intros Hon Hmap Hentries.
  unfold handle_save, elasticsearch_enabled. rewrite Hon, Hmap.
  rewrite bind_lift_return.
  destruct mapping_fields as [|entry rest]; [congruence|].
  destruct created; cbv beta iota delta [negb]; [reflexivity|].
  unfold bind.
  destruct (update_es_documents w (main_model self) (es_document self)
              instance false (entry :: rest) q) as [[[]|e] q'];
    reflexivity.
Qed.

Lemma handle_save_with_entries_witness :
  handle_save Examples.judge_world Examples.position_processor Person
    Examples.judge true None [] = (Return tt, []).
Proof.
  apply (handle_save_with_entries Examples.judge_world
           Examples.position_processor Person Examples.judge true None
           [("person", Examples.position_map)] []);
    [reflexivity | reflexivity | discriminate].
Defined.

(** X11: a changed Docket under RECAP documents is answered with one bulk
    task per entry of the save mapping, in the order of the mapping, each
    scoped to the Docket and carrying the selection made with that entry's
    field map. *)
Theorem docket_save_one_bulk_task_per_entry (w : World)
  (main_model : ModelClass) (instance : Entity)
  (mapping_fields : Dict.t FieldsMap) (changed_fields : list string)
  (q : list Task) :
  e_class instance = Docket ->
  updated_fields w instance ESRECAPDocument = Return changed_fields ->
  changed_fields <> [] ->
  update_es_documents w main_model ESRECAPDocument instance false
    mapping_fields q
  = (Return tt,
     q ++ map (fun '(query, fields_map) =>
                 update_child_documents_by_query_delay ESRECAPDocument
                   (VObj instance)
                   (get_fields_to_update changed_fields fields_map)
                   (Some fields_map))
            mapping_fields).
Proof.
  intros Hclass Hdet Hchanged.
  unfold update_es_documents. rewrite Hdet, bind_lift_return.
  destruct changed_fields as [|field rest]; [congruence|].
  rewrite <- for_each_delay. apply for_each_ext.
  intros [query fields_map] q' _.
  apply update_es_documents_entry_parent. right. now split.
Qed.

Lemma docket_save_one_bulk_task_per_entry_witness :
  update_es_documents Examples.recap_world (OtherModel "RECAPDocument")
    ESRECAPDocument Examples.case_docket false Examples.recap_mapping []
  = (Return tt,
     [ update_child_documents_by_query_delay ESRECAPDocument
         (VObj Examples.case_docket) ["docket_number"]
         (Some [("docket_number", ["docketNumber"])]);
       update_child_documents_by_query_delay ESRECAPDocument
         (VObj Examples.case_docket) ["date_argued"]
         (Some [("date_argued", ["dateArgued"])]) ]).
Proof.
  apply (docket_save_one_bulk_task_per_entry Examples.recap_world
           (OtherModel "RECAPDocument") Examples.case_docket
           Examples.recap_mapping ["docket_number"; "date_argued"] []);
    [reflexivity | reflexivity | discriminate].
Defined.

(** *** The audio gate on other entities *)

(** X12: the gate only ever holds back Audio instances: for an instance of
    any other class it answers "index", whatever the index holds and
    whatever fields were touched, so a save of such an instance under an
    empty save mapping always enqueues the indexing chain. *)
Theorem gate_open_for_other_classes (w : World) (self : ESSignalProcessor)
  (sender : ModelClass) (instance : Entity) (created : bool)
  (update_fields : option (list string)) (q : list Task) :
  e_class instance <> Audio ->
  avoid_es_audio_indexing w instance (es_document self) update_fields
  = false
  /\ (ELASTICSEARCH_DISABLED w = false ->
      by_sender (save (documents_model_mapping self)) sender = Return [] ->
      created = true
      \/ (exists changed_fields,
            updated_fields w instance (es_document self)
            = Return changed_fields) ->
      handle_save w self sender instance created update_fields q
      = (Return tt,
         q ++ [chain_apply_async (index_and_alert_chain w self instance)])).
Proof.
  intro Hclass.
  assert (Hgate : avoid_es_audio_indexing w instance (es_document self)
                    update_fields = false).
  { unfold avoid_es_audio_indexing.
    destruct (e_class instance); try reflexivity. congruence. }
  split; [exact Hgate|].
  intros Hon Hmap Hdet.
  rewrite handle_save_no_entries by assumption. now rewrite Hgate.
Qed.

Lemma gate_open_for_other_classes_witness :
  avoid_es_audio_indexing Examples.judge_world Examples.judge
    PositionDocument (Some ["name"]) = false.
Proof.
  apply (gate_open_for_other_classes Examples.judge_world
           Examples.position_processor Person Examples.judge false
           (Some ["name"]) []).
  discriminate.
Defined.

(** *** Many-to-many mappings with several entries *)

Section ManyEntries.

Variable w : World.
Variable self : ESSignalProcessor.
Variable instance : Entity.
Variable mapping_fields : Dict.t (Dict.t string).

Lemma update_remove_m2m_documents_pass (affected_field : string)
  (q : list Task) :
  all_prepared w self instance mapping_fields [affected_field] ->
  update_remove_m2m_documents w (main_model self) (es_document self)
    instance mapping_fields affected_field q
  = (Return tt,
     q ++ m2m_pass w (main_model self) (es_document self) instance
            mapping_fields affected_field).
Proof.
  intro Hprep.
  unfold update_remove_m2m_documents, m2m_pass, Dict.keys.
  rewrite flat_map_concat_map, map_map, <- flat_map_concat_map.
  apply for_each_tasks. intros [key fields_map] q' Hin.
  assert (Hkey : In key (Dict.keys mapping_fields))
    by (apply in_map_iff; now exists (key, fields_map)).
  specialize (Hprep affected_field key (or_introl eq_refl) Hkey).
  unfold m2m_main_objects in *. simpl fst.
  destruct (String.eqb (Str.lower (class_name (main_model self))) key);
    cbv beta iota delta [negb].
  - rewrite update_m2m_field_in_es_document_tasks by assumption.
    simpl. now rewrite app_nil_r.
  - now apply update_m2m_each_main_object.
Qed.

(** The loop of the handler over some entries, each pass made with the whole
    mapping. *)
Lemma handle_m2m_entries (entries : Dict.t (Dict.t string)) :
  forall (affected_fields : list string) (q : list Task),
    m2m_affected_fields entries = map Some affected_fields ->
    all_prepared w self instance mapping_fields affected_fields ->
    for_each entries (fun '(key, fields_map) =>
      match Dict.keys fields_map with
      | [] => raise IndexError
      | affected_field :: _ =>
          update_remove_m2m_documents w (main_model self) (es_document self)
            instance mapping_fields affected_field
      end) q
    = (Return tt,
       q ++ flat_map
              (m2m_pass w (main_model self) (es_document self) instance
                 mapping_fields)
              affected_fields).
Proof.
  induction entries as [|[key fields_map] entries IH];
    intros affected_fields q Hfirst Hprep.
  - destruct affected_fields; [|discriminate Hfirst].
    simpl. now rewrite app_nil_r.
  - destruct affected_fields as [|affected_field rest];
      [discriminate Hfirst|].
    simpl in Hfirst. injection Hfirst as Hhead Hrest.
    simpl for_each. unfold bind at 1.
    destruct (Dict.keys fields_map) as [|first others];
      [discriminate Hhead|].
    injection Hhead as ->.
    rewrite update_remove_m2m_documents_pass.
    + rewrite (IH rest) by
        (try assumption; intros af k Haf; apply Hprep; now right).
      simpl. now rewrite <- app_assoc.
    + intros af k [<- | []]. apply Hprep. now left.
Qed.

End ManyEntries.

(** X13: under an m2m mapping of several entries the handler makes one pass
    per entry, and every pass goes over the whole mapping: the field an entry
    names first is recomputed for the main objects of every key, not only of
    the entry's own key.  With n entries that is n passes over n keys.  In a
    pass a main object gets an update if its document is in the index and
    holds a stored field, a full-creation task if it is not in the index,
    and nothing if its document is found but holds nothing.  Holds when
    every entry names a field and the prepare_ methods the passes call on
    the non-empty documents exist and return. *)
Theorem handle_m2m_every_entry_over_every_key (w : World)
  (self : ESSignalProcessor) (sender : ModelClass) (instance : Entity)
  (action : string) (mapping_fields : Dict.t (Dict.t string))
  (affected_fields : list string) (q : list Task) :
  action = "post_add" \/ action = "post_remove" ->
  ELASTICSEARCH_DISABLED w = false ->
  by_sender (m2m (documents_model_mapping self)) sender
  = Return mapping_fields ->
  m2m_affected_fields mapping_fields = map Some affected_fields ->
  all_prepared w self instance mapping_fields affected_fields ->
  handle_m2m w self sender instance action q
  = (Return tt,
     q ++ flat_map
            (m2m_pass w (main_model self) (es_document self) instance
               mapping_fields)
            affected_fields).
Proof.
  intros Haction Hon Hmap Hfirst Hprep.
  unfold handle_m2m, elasticsearch_enabled. rewrite Hon.
  assert (Hqual : String.eqb action "post_add"
                  || String.eqb action "post_remove" = true).
  { destruct Haction as [-> | ->]; reflexivity. }
  rewrite Hqual, Hmap, bind_lift_return.
  now apply handle_m2m_entries.
Qed.

Lemma handle_m2m_every_entry_over_every_key_witness :
  handle_m2m Examples.two_entry_world Examples.two_entry_processor
    Examples.Audio_panel Examples.recording "post_add" []
  = (Return tt,
     [ update_document_in_es_delay Examples.recording_doc
         [("panel_ids", VInts [5; 3]%Z)];
       update_document_in_es_delay Examples.second_recording_doc
         [("panel_ids", VInts [6; 3]%Z)];
       update_document_in_es_delay Examples.recording_doc
         [("judge", VStr "Ada B.")];
       update_document_in_es_delay Examples.second_recording_doc
         [("judge", VStr "Ada B.")] ]).
Proof.
  apply (handle_m2m_every_entry_over_every_key Examples.two_entry_world
           Examples.two_entry_processor Examples.Audio_panel
           Examples.recording "post_add" Examples.panel_mapping
           ["panel_ids"; "judge"] []);
    try reflexivity.
  - now left.
  - intros af key [<- | [<- | []]] _ main_object document _ _ _;
      eexists; eexists; split; reflexivity.
Defined.

(** X14: an m2m entry whose field map is empty makes the handler raise
    IndexError when its turn comes; the passes of the entries before it have
    been enqueued by then, the entries after it are never reached. *)
Theorem handle_m2m_empty_field_map (w : World) (self : ESSignalProcessor)
  (sender : ModelClass) (instance : Entity) (action : string)
  (before : Dict.t (Dict.t string)) (key : string)
  (after : Dict.t (Dict.t string)) (affected_fields : list string)
  (q : list Task) :
  action = "post_add" \/ action = "post_remove" ->
  ELASTICSEARCH_DISABLED w = false ->
  by_sender (m2m (documents_model_mapping self)) sender
  = Return (before ++ (key, []) :: after) ->
  m2m_affected_fields before = map Some affected_fields ->
  all_prepared w self instance (before ++ (key, []) :: after)
    affected_fields ->
  handle_m2m w self sender instance action q
  = (Raise IndexError,
     q ++ flat_map
            (m2m_pass w (main_model self) (es_document self) instance
               (before ++ (key, []) :: after))
            affected_fields).
Proof.
  intros Haction Hon Hmap Hfirst Hprep.
  unfold handle_m2m, elasticsearch_enabled. rewrite Hon.
  assert (Hqual : String.eqb action "post_add"
                  || String.eqb action "post_remove" = true).
  { destruct Haction as [-> | ->]; reflexivity. }
  rewrite Hqual, Hmap, bind_lift_return.
  rewrite for_each_app. unfold bind at 1.
  rewrite (handle_m2m_entries w self instance _ before affected_fields)
    by assumption.
  reflexivity.
Qed.

Lemma handle_m2m_empty_field_map_witness :
  handle_m2m Examples.panel_world Examples.empty_entry_processor
    Examples.Audio_panel Examples.recording "post_add" []
  = (Raise IndexError, []).
Proof.
  apply (handle_m2m_empty_field_map Examples.panel_world
           Examples.empty_entry_processor Examples.Audio_panel
           Examples.recording "post_add" [] "audio" [] [] []);
    try reflexivity.
  - now left.
  - intros af key [].
Defined.

(** X15: the m2m update reads the prepare method of the affected field
    without a default: when the document is in the index and holds a stored
    field but has no such method, that update raises AttributeError and
    enqueues nothing.  A document that is found but holds nothing is falsy:
    the update returns before it reads the method, and enqueues nothing. *)
Theorem update_m2m_field_without_prepare (w : World) (instance : Entity)
  (es_document : ESDocument) (affected_field : string) (document : ESDoc)
  (q : list Task) :
  es_get w es_document (doc_id_of w es_document instance) = Some document ->
  (doc_truthy document = true ->
   prepare w (doc_class document) affected_field = None ->
   update_m2m_field_in_es_document w instance es_document affected_field q
   = (Raise AttributeError, q)
   /\ forall main_model key fields_map,
        Str.lower (class_name main_model) = key ->
        update_remove_m2m_documents w main_model es_document instance
          ((key, fields_map) :: nil) affected_field q
        = (Raise AttributeError, q))
  /\ (doc_truthy document = false ->
      update_m2m_field_in_es_document w instance es_document affected_field q
      = (Return tt, q)).
Proof.
  intros Hget. split.
  - intros Htruthy Hnone.
    assert (Hone :
      update_m2m_field_in_es_document w instance es_document affected_field q
      = (Raise AttributeError, q)).
    { unfold update_m2m_field_in_es_document, get_or_create_doc, bind.
      rewrite Hget. simpl. now rewrite Htruthy, Hnone. }
    split; [exact Hone|].
    intros main_model key fields_map <-.
    unfold update_remove_m2m_documents. simpl for_each.
    rewrite String.eqb_refl. cbv beta iota delta [negb].
    unfold bind. now rewrite Hone.
  - intro Hfalsy.
    unfold update_m2m_field_in_es_document, get_or_create_doc, bind.
    rewrite Hget. simpl. now rewrite Hfalsy.
Qed.

Lemma update_m2m_field_without_prepare_witness :
  update_m2m_field_in_es_document Examples.indexed_recording_world
    Examples.recording AudioDocument "panel_ids" []
  = (Raise AttributeError, [])
  /\ update_m2m_field_in_es_document Examples.empty_recording_world
       Examples.recording AudioDocument "panel_ids" []
     = (Return tt, []).
Proof.
  split.
  - apply (proj1 (update_m2m_field_without_prepare
                    Examples.indexed_recording_world Examples.recording
                    AudioDocument "panel_ids" Examples.recording_doc []
                    eq_refl));
      reflexivity.
  - apply (proj2 (update_m2m_field_without_prepare
                    Examples.empty_recording_world Examples.recording
                    AudioDocument "panel_ids" Examples.empty_recording_doc []
                    eq_refl)).
    reflexivity.
Defined.

(** *** Reverse mappings: payloads *)

Lemma key_of_get {V} (d : Dict.t V) (k : string) (v : V) :
  Dict.get d k = Some v -> In k (Dict.keys d).
Proof.
  induction d as [|[k' v'] d IH]; simpl; [discriminate|].
  destruct (String.eqb k k') eqn:Heq.
  - apply String.eqb_eq in Heq. now left.
  - intro H. right. now apply IH.
Qed.

Section ReversePayload.

Variable w : World.
Variable main_doc : ESDoc.
Variable main_object : Entity.
Variable instance : Value.

Lemma reverse_fields_to_update_inv (affected_fields : list string) :
  forall acc payload,
    reverse_fields_to_update w main_doc main_object instance affected_fields
      acc = Return payload ->
    (NoDup (Dict.keys acc) -> NoDup (Dict.keys payload))
    /\ (forall field,
          In field (Dict.keys payload) <->
          In field (Dict.keys acc) \/ In field affected_fields)
    /\ ((forall field v,
           Dict.get acc field = Some v ->
           reverse_value_of w main_doc main_object instance field v) ->
        forall field v,
          Dict.get payload field = Some v ->
          reverse_value_of w main_doc main_object instance field v).
Proof.
  induction affected_fields as [|field rest IH]; intros acc payload; simpl.
  - intros [= <-]. repeat split; auto; intuition.
  - assert (Hstep : forall v0,
      reverse_value_of w main_doc main_object instance field v0 ->
      reverse_fields_to_update w main_doc main_object instance rest
        (Dict.set acc field v0) = Return payload ->
      (NoDup (Dict.keys acc) -> NoDup (Dict.keys payload))
      /\ (forall name,
            In name (Dict.keys payload) <->
            In name (Dict.keys acc) \/ field = name \/ In name rest)
      /\ ((forall name v,
             Dict.get acc name = Some v ->
             reverse_value_of w main_doc main_object instance name v) ->
          forall name v,
            Dict.get payload name = Some v ->
            reverse_value_of w main_doc main_object instance name v)).
    { intros v0 Hv0 Hrest. apply IH in Hrest.
      destruct Hrest as (Hnodup & Hkeys & Hvalues).
      split; [|split].
      - intro Hacc. apply Hnodup. now apply set_keys_NoDup.
      - intro name. rewrite Hkeys, set_keys_In. intuition.
      - intro Hacc. apply Hvalues. intros name v.
        destruct (String.eqb_spec name field) as [-> | Hneq].
        + rewrite get_set_same. now intros [= <-].
        + rewrite get_set_other by assumption. apply Hacc. }
    destruct (prepare w (doc_class main_doc) field) as [prepare_method|]
      eqn:Hprep.
    + destruct (prepare_method main_object) as [v0|] eqn:Hvalue; simpl;
        [|discriminate].
      apply Hstep. unfold reverse_value_of. now rewrite Hprep.
    + destruct (getattr_of w instance field) as [v0| |] eqn:Hattr;
        simpl; try discriminate.
      apply Hstep. unfold reverse_value_of. now rewrite Hprep.
Qed.

End ReversePayload.

Section DeletePayload.

Variable w : World.
Variable main_doc : ESDoc.
Variable main_object : Entity.

Lemma prepared_fields_inv (affected_fields : list string) :
  forall acc payload,
    prepared_fields w main_doc main_object affected_fields acc
    = Return payload ->
    (NoDup (Dict.keys acc) -> NoDup (Dict.keys payload))
    /\ (forall field,
          In field (Dict.keys payload) <->
          In field (Dict.keys acc)
          \/ (In field affected_fields
              /\ prepare w (doc_class main_doc) field <> None))
    /\ ((forall field v,
           Dict.get acc field = Some v ->
           prepared_by w main_doc main_object field v) ->
        forall field v,
          Dict.get payload field = Some v ->
          prepared_by w main_doc main_object field v).
Proof.
  induction affected_fields as [|field rest IH]; intros acc payload; simpl.
  - intros [= <-]. split; [auto | split; [intuition | auto]].
  - destruct (prepare w (doc_class main_doc) field) as [prepare_method|]
      eqn:Hprep.
    + destruct (prepare_method main_object) as [v0|] eqn:Hvalue; simpl;
        [|discriminate].
      intro Hrest. apply IH in Hrest.
      destruct Hrest as (Hnodup & Hkeys & Hvalues).
      split; [|split].
      * intro Hacc. apply Hnodup. now apply set_keys_NoDup.
      * intro name. rewrite Hkeys, set_keys_In. split.
        -- intros [[Hacc | ->] | [Hin Hsome]]; auto.
           right. split; [now left | congruence].
        -- intros [Hacc | [[<- | Hin] Hsome]]; auto.
      * intro Hacc. apply Hvalues. intros name v.
        destruct (String.eqb_spec name field) as [-> | Hneq].
        -- rewrite get_set_same. intros [= <-]. now exists prepare_method.
        -- rewrite get_set_other by assumption. apply Hacc.
    + intro Hrest. apply IH in Hrest.
      destruct Hrest as (Hnodup & Hkeys & Hvalues).
      split; [exact Hnodup | split; [|exact Hvalues]].
      intro name. rewrite Hkeys. split.
      * intros [Hacc | [Hin Hsome]]; auto.
      * intros [Hacc | [[<- | Hin] Hsome]]; auto. congruence.
Qed.

(** The loop returns when every prepare method it calls returns. *)
Lemma prepared_fields_returns (affected_fields : list string) :
  (forall field prepare_method,
     In field affected_fields ->
     prepare w (doc_class main_doc) field = Some prepare_method ->
     exists v, prepare_method main_object = Prepares v) ->
  forall acc,
    exists payload,
      prepared_fields w main_doc main_object affected_fields acc
      = Return payload.
Proof.
  induction affected_fields as [|field rest IH]; intros Hreturns acc; simpl.
  - now exists acc.
  - destruct (prepare w (doc_class main_doc) field) as [prepare_method|]
      eqn:Hprep.
    + destruct (Hreturns field prepare_method (or_introl eq_refl) Hprep)
        as [v ->]. simpl.
      apply IH. intros name pm Hin. apply Hreturns. now right.
    + apply IH. intros name pm Hin. apply Hreturns. now right.
Qed.

(** The loop raises when one of the prepare methods it calls raises. *)
Lemma prepared_fields_raises (affected_fields : list string) (field : string)
  (prepare_method : Entity -> Prepared) :
  In field affected_fields ->
  prepare w (doc_class main_doc) field = Some prepare_method ->
  prepare_method main_object = PrepareRaises ->
  forall acc,
    prepared_fields w main_doc main_object affected_fields acc
    = Raise PrepareError.
Proof.
  intros Hin Hprep Hraises.
  induction affected_fields as [|name rest IH]; intro acc; simpl;
    [destruct Hin|].
  destruct (prepare w (doc_class main_doc) name) as [first_method|] eqn:Hname.
  - destruct (first_method main_object) as [v|] eqn:Hfirst; simpl;
      [|reflexivity].
    destruct Hin as [-> | Hin]; [congruence | now apply IH].
  - destruct Hin as [-> | Hin]; [congruence | now apply IH].
Qed.

Lemma prepare_and_update_fields_outcome (affected_fields : list string)
  (q : list Task) :
  prepare_and_update_fields w affected_fields main_doc main_object q
  = match prepared_fields w main_doc main_object affected_fields [] with
    | Return payload =>
        (Return tt, q ++ [update_document_in_es_delay main_doc payload])
    | Raise e => (Raise e, q)
    end.
Proof.
  unfold prepare_and_update_fields, bind, lift.
  now destruct (prepared_fields w main_doc main_object affected_fields []).
Qed.

End DeletePayload.

(** X16: the payload a reverse update builds for a parent document has
    exactly the affected fields as its document fields, each once, and each
    holds the re-projection of the parent when the document has a prepare
    method for it and the attribute of the related instance otherwise. *)
Theorem reverse_fields_to_update_payload (w : World) (main_doc : ESDoc)
  (main_object : Entity) (instance : Value) (affected_fields : list string)
  (payload : Dict.t Value) :
  reverse_fields_to_update w main_doc main_object instance affected_fields []
  = Return payload ->
  NoDup (Dict.keys payload)
  /\ (forall field, In field (Dict.keys payload) <-> In field affected_fields)
  /\ (forall field,
        In field affected_fields ->
        exists v,
          Dict.get payload field = Some v
          /\ reverse_value_of w main_doc main_object instance field v).
Proof.
  intro Hpayload.
  apply reverse_fields_to_update_inv in Hpayload.
  destruct Hpayload as (Hnodup & Hkeys & Hvalues).
  assert (Hin : forall field,
             In field (Dict.keys payload) <-> In field affected_fields).
  { intro field. rewrite Hkeys. simpl. intuition. }
  split; [apply Hnodup; constructor | split; [exact Hin|]].
  intros field Hfield. apply Hin in Hfield.
  destruct (get_of_key payload field Hfield) as [v Hget].
  exists v. split; [exact Hget|].
  apply (Hvalues (fun _ _ H => ltac:(discriminate H)) field v Hget).
Qed.

Lemma reverse_fields_to_update_payload_witness :
  NoDup ["panel_ids"; "type"]
  /\ (exists v,
        Dict.get [("panel_ids", VInts [2; 3]%Z); ("type", VInt 1)] "type"
        = Some v
        /\ reverse_value_of Examples.citation_panel_world
             Examples.recording_doc Examples.recording
             (VObj Examples.citation) "type" v).
Proof.
  destruct (reverse_fields_to_update_payload Examples.citation_panel_world
              Examples.recording_doc Examples.recording
              (VObj Examples.citation) ["panel_ids"; "type"; "panel_ids"]
              [("panel_ids", VInts [2; 3]%Z); ("type", VInt 1)] eq_refl)
    as (Hnodup & _ & Hvalues).
  split; [exact Hnodup|].
  apply Hvalues. right. now left.
Defined.

(** X17: a reverse-delete update calls the prepare method of each affected
    field the document has one for, and drops the other fields.  If a call
    raises, the exception leaves the update and nothing is enqueued.  If
    they all return -- and only then -- one update task is enqueued, whose
    payload has exactly the prepared fields, each once, each holding what
    its prepare method returned; the payload is empty when the document
    prepares none of the affected fields, and the task is enqueued all the
    same. *)
Theorem prepare_and_update_fields_payload (w : World)
  (affected_fields : list string) (main_doc : ESDoc) (main_object : Entity)
  (q : list Task) :
  let projected :=
    prepared_fields w main_doc main_object affected_fields [] in
  let result :=
    prepare_and_update_fields w affected_fields main_doc main_object q in
  (forall payload,
     projected = Return payload ->
     result = (Return tt, q ++ [update_document_in_es_delay main_doc payload])
     /\ NoDup (Dict.keys payload)
     /\ (forall field,
           In field (Dict.keys payload) <->
           In field affected_fields
           /\ prepare w (doc_class main_doc) field <> None)
     /\ (forall field v,
           Dict.get payload field = Some v ->
           exists prepare_method,
             prepare w (doc_class main_doc) field = Some prepare_method
             /\ prepare_method main_object = Prepares v))
  /\ (forall e, projected = Raise e -> result = (Raise e, q))
  /\ ((forall field prepare_method,
         In field affected_fields ->
         prepare w (doc_class main_doc) field = Some prepare_method ->
         exists v, prepare_method main_object = Prepares v) ->
      exists payload, projected = Return payload)
  /\ (forall field prepare_method,
        In field affected_fields ->
        prepare w (doc_class main_doc) field = Some prepare_method ->
        prepare_method main_object = PrepareRaises ->
        result = (Raise PrepareError, q))
  /\ ((forall field, In field affected_fields ->
         prepare w (doc_class main_doc) field = None) ->
      result = (Return tt, q ++ [update_document_in_es_delay main_doc []])).
Proof.
  intros projected result.
  assert (Hresult : result
    = match projected with
      | Return payload =>
          (Return tt, q ++ [update_document_in_es_delay main_doc payload])
      | Raise e => (Raise e, q)
      end) by apply prepare_and_update_fields_outcome.
  split; [|split; [|split; [|split]]].
  - intros payload Hpayload. rewrite Hresult, Hpayload.
    apply prepared_fields_inv in Hpayload.
    destruct Hpayload as (Hnodup & Hkeys & Hvalues).
    split; [reflexivity | split; [apply Hnodup; constructor | split]].
    + intro field. rewrite Hkeys. simpl. intuition.
    + apply Hvalues. intros field v Hget. discriminate Hget.
  - intros e He. now rewrite Hresult, He.
  - intro Hreturns. now apply prepared_fields_returns.
  - intros field prepare_method Hin Hprep Hraises.
    rewrite Hresult. subst projected.
    now rewrite (prepared_fields_raises w main_doc main_object
                   affected_fields field prepare_method).
  - intro Hnone.
    destruct (prepared_fields_returns w main_doc main_object affected_fields)
      with (acc := @nil (string * Value)) as [payload Hpayload].
    { intros field prepare_method Hin Hprep.
      rewrite (Hnone field Hin) in Hprep. discriminate Hprep. }
    fold projected in Hpayload. rewrite Hresult, Hpayload.
    apply prepared_fields_inv in Hpayload.
    destruct Hpayload as (_ & Hkeys & _).
    destruct payload as [|[k v] rest]; [reflexivity|].
    assert (Hk : In k (Dict.keys ((k, v) :: rest))) by now left.
    apply Hkeys in Hk. destruct Hk as [[] | [Hin Hsome]].
    now rewrite Hnone in Hsome.
Qed.

Lemma prepare_and_update_fields_payload_witness :
  prepare_and_update_fields Examples.panel_world ["panel_ids"; "slug"]
    Examples.recording_doc Examples.recording []
  = (Return tt,
     [update_document_in_es_delay Examples.recording_doc
        [("panel_ids", VInts [2; 3]%Z)]])
  /\ prepare_and_update_fields Examples.failing_panel_world
       ["slug"; "panel_ids"; "judge"] Examples.recording_doc
       Examples.recording []
     = (Raise PrepareError, []).
Proof.
  split.
  - apply (proj1 (prepare_and_update_fields_payload Examples.panel_world
                    ["panel_ids"; "slug"] Examples.recording_doc
                    Examples.recording [])).
    reflexivity.
  - apply (proj1 (proj2 (proj2 (proj2
             (prepare_and_update_fields_payload Examples.failing_panel_world
                ["slug"; "panel_ids"; "judge"] Examples.recording_doc
                Examples.recording []))))
             "panel_ids" (fun _ => PrepareRaises));
      try reflexivity.
    right. now left.
Defined.

(** *** Reverse-delete cascades *)

Section DeleteCascade.

Variable w : World.

Lemma delete_reverse_parent_outcome es_document child_document instance
  affected_fields (q : list Task) :
  delete_reverse_parent w es_document child_document instance
    affected_fields q
  = match es_get w es_document (doc_id_of w es_document instance) with
    | Some main_doc =>
        if doc_truthy main_doc then
          match prepared_fields w main_doc instance affected_fields [] with
          | Return payload =>
              (Return tt,
               q ++ [ update_document_in_es_delay main_doc payload;
                      update_child_documents_by_query_delay child_document
                        (VObj instance) affected_fields None ])
          | Raise e => (Raise e, q)
          end
        else (Return tt, q)
    | None => (Return tt, q)
    end.
Proof.
  unfold delete_reverse_parent, get_or_create_doc.
  destruct (es_get w es_document (doc_id_of w es_document instance))
    as [main_doc|]; [|reflexivity].
  unfold bind at 1, ret at 1.
  destruct (doc_truthy main_doc); [|reflexivity].
  unfold bind. rewrite prepare_and_update_fields_outcome.
  destruct (prepared_fields w main_doc instance affected_fields []);
    [|reflexivity].
  unfold delay. now rewrite <- app_assoc.
Qed.

(** The loop over the related main objects, when the prepare methods it
    calls return. *)
Lemma delete_reverse_others_tasks main_model es_document instance
  query_string affected_fields (q : list Task) :
  (forall main_object main_doc,
     In main_object (objects_filter w main_model query_string instance) ->
     es_get w es_document (doc_id_of w es_document main_object)
     = Some main_doc ->
     doc_truthy main_doc = true ->
     exists payload,
       prepared_fields w main_doc main_object affected_fields []
       = Return payload) ->
  for_each (objects_filter w main_model query_string instance)
    (fun main_object =>
       main_doc <- get_or_create_doc w es_document main_object true ;;
       match main_doc with
       | Some main_doc =>
           if doc_truthy main_doc
           then prepare_and_update_fields w affected_fields main_doc
                  main_object
           else ret tt
       | None => ret tt
       end) q
  = (Return tt,
     q ++ flat_map (reverse_delete_update w es_document affected_fields)
            (objects_filter w main_model query_string instance)).
Proof.
  intro Hreturns.
  apply for_each_tasks. intros main_object q' Hin.
  unfold reverse_delete_update, get_or_create_doc.
  destruct (es_get w es_document (doc_id_of w es_document main_object))
    as [main_doc|] eqn:Hget; [|cbn; now rewrite app_nil_r].
  unfold bind at 1, ret at 1.
  destruct (doc_truthy main_doc) eqn:Htruthy;
    [|unfold ret; now rewrite app_nil_r].
  rewrite prepare_and_update_fields_outcome.
  now destruct (Hreturns main_object main_doc Hin Hget Htruthy) as [payload ->].
Qed.

(** Whatever the outcome of a loop, what it has added to the queue is what
    its turns added. *)
Lemma for_each_added {A} (P : Task -> Prop) (xs : list A)
  (body : A -> Celery unit) :
  (forall x q, In x xs ->
     exists added, snd (body x q) = q ++ added /\ Forall P added) ->
  forall q,
    exists added, snd (for_each xs body q) = q ++ added /\ Forall P added.
Proof.
  induction xs as [|x xs IH]; intros Hbody q; simpl.
  - exists []. split; [now rewrite app_nil_r | constructor].
  - unfold bind.
    destruct (Hbody x q (or_introl eq_refl)) as (added1 & Hq1 & Hadded1).
    destruct (body x q) as [[[]|e] q1]; simpl in Hq1; subst q1.
    + destruct (IH (fun y q' Hin => Hbody y q' (or_intror Hin))
                  (q ++ added1)) as (added2 & Hq2 & Hadded2).
      exists (added1 ++ added2). rewrite Hq2, app_assoc.
      split; [reflexivity | now apply Forall_app].
    + now exists added1.
Qed.

Lemma delete_reverse_others_added main_model es_document instance
  query_string affected_fields (q : list Task) :
  exists added,
    snd (for_each (objects_filter w main_model query_string instance)
           (fun main_object =>
              main_doc <- get_or_create_doc w es_document main_object true ;;
              match main_doc with
              | Some main_doc =>
                  if doc_truthy main_doc
                  then prepare_and_update_fields w affected_fields main_doc
                         main_object
                  else ret tt
              | None => ret tt
              end) q)
    = q ++ added
    /\ Forall (fun t => is_creation t = false) added.
Proof.
  apply for_each_added. intros main_object q' _.
  unfold get_or_create_doc.
  destruct (es_get w es_document (doc_id_of w es_document main_object))
    as [main_doc|];
    [|exists []; split; [cbn; now rewrite app_nil_r | constructor]].
  unfold bind at 1, ret at 1.
  destruct (doc_truthy main_doc);
    [|exists []; split; [cbn; now rewrite app_nil_r | constructor]].
  rewrite prepare_and_update_fields_outcome.
  destruct (prepared_fields w main_doc main_object affected_fields [])
    as [payload|e].
  - eexists. split; [reflexivity | now repeat constructor].
  - exists []. split; [cbn; now rewrite app_nil_r | constructor].
Qed.

Lemma delete_reverse_parent_added es_document child_document instance
  affected_fields (q : list Task) :
  exists added,
    snd (delete_reverse_parent w es_document child_document instance
           affected_fields q) = q ++ added
    /\ Forall (fun t => is_creation t = false) added.
Proof.
  rewrite delete_reverse_parent_outcome.
  destruct (es_get w es_document (doc_id_of w es_document instance))
    as [main_doc|];
    [|exists []; split; [cbn; now rewrite app_nil_r | constructor]].
  destruct (doc_truthy main_doc);
    [|exists []; split; [cbn; now rewrite app_nil_r | constructor]].
  destruct (prepared_fields w main_doc instance affected_fields [])
    as [payload|e].
  - eexists. split; [reflexivity | now repeat constructor].
  - exists []. split; [cbn; now rewrite app_nil_r | constructor].
Qed.

End DeleteCascade.

(** X18: the deletion of a record related to a parent entity -- a Person
    under Person documents, a Docket under Docket documents -- enqueues
    nothing when the parent's document is not in the index, and nothing when
    it is found but holds no stored field; when the document holds something
    and the prepare methods of the affected fields return, it enqueues
    exactly two tasks in this order: the update of the parent document with
    the re-projected fields, then one bulk update of its child documents
    (Position, respectively RECAP).  When a prepare method raises, the
    exception leaves the cascade and nothing is enqueued. *)
Theorem delete_reverse_parent_two_tasks (w : World) (main_model : ModelClass)
  (es_document : ESDocument) (instance : Entity) (query_string : string)
  (affected_fields : list string) (child_document : ESDocument)
  (q : list Task) :
  reverse_delete_children es_document instance = Some child_document ->
  let found := es_get w es_document (doc_id_of w es_document instance) in
  let result :=
    delete_reverse_related_documents w main_model es_document (VObj instance)
      query_string affected_fields q in
  (found = None -> result = (Return tt, q))
  /\ (forall main_doc,
        found = Some main_doc -> doc_truthy main_doc = false ->
        result = (Return tt, q))
  /\ (forall main_doc payload,
        found = Some main_doc -> doc_truthy main_doc = true ->
        prepared_fields w main_doc instance affected_fields []
        = Return payload ->
        result
        = (Return tt,
           q ++ [ update_document_in_es_delay main_doc payload;
                  update_child_documents_by_query_delay child_document
                    (VObj instance) affected_fields None ]))
  /\ (forall main_doc e,
        found = Some main_doc -> doc_truthy main_doc = true ->
        prepared_fields w main_doc instance affected_fields [] = Raise e ->
        result = (Raise e, q)).
Proof.
  intros Hchildren found result.
  assert (Hresult : result
    = delete_reverse_parent w es_document child_document instance
        affected_fields q).
  { subst result. unfold delete_reverse_related_documents.
    unfold reverse_delete_children in Hchildren.
    destruct (is_one_of instance [Person]
              && ESDocument_is es_document PersonDocument);
      [now injection Hchildren as <-|].
    destruct (is_one_of instance [Docket]
              && ESDocument_is es_document DocketDocument);
      [now injection Hchildren as <- | discriminate Hchildren]. }
  rewrite Hresult, delete_reverse_parent_outcome. fold found.
  repeat split.
  - now intros ->.
  - now intros main_doc -> ->.
  - now intros main_doc payload -> -> ->.
  - now intros main_doc e -> -> ->.
Qed.

Lemma delete_reverse_parent_two_tasks_witness :
  delete_reverse_related_documents Examples.indexed_judge_world Person
    PersonDocument (VObj Examples.judge) "educations" ["school"] []
  = (Return tt,
     [ update_document_in_es_delay Examples.judge_doc [];
       update_child_documents_by_query_delay PositionDocument
         (VObj Examples.judge) ["school"] None ])
  /\ delete_reverse_related_documents Examples.judge_world Person
       PersonDocument (VObj Examples.judge) "educations" ["school"] []
     = (Return tt, []).
Proof.
  split.
  - apply (proj1 (proj2 (proj2
             (delete_reverse_parent_two_tasks Examples.indexed_judge_world
                Person PersonDocument Examples.judge "educations" ["school"]
                PositionDocument [] eq_refl)))
             Examples.judge_doc []);
      reflexivity.
  - apply (proj1 (delete_reverse_parent_two_tasks Examples.judge_world
                    Person PersonDocument Examples.judge "educations"
                    ["school"] PositionDocument [] eq_refl)).
    reflexivity.
Defined.

(** X19: a reverse-delete never brings a document into being: whatever the
    instance, the document type and the stores, and whether it returns or a
    prepare method raises, none of the tasks it has added is a creation.
    For an instance that is not the parent itself, and when the prepare
    methods return, what it adds is one update per related main object whose
    document is in the index and holds a stored field. *)
Theorem delete_reverse_never_creates (w : World) (main_model : ModelClass)
  (es_document : ESDocument) (instance : Value) (query_string : string)
  (affected_fields : list string) (q : list Task) :
  (exists added,
     snd (delete_reverse_related_documents w main_model es_document instance
            query_string affected_fields q) = q ++ added
     /\ Forall (fun t => is_creation t = false) added)
  /\ ((forall o, instance = VObj o ->
         reverse_delete_children es_document o = None) ->
      (forall main_object main_doc,
         In main_object (objects_filter w main_model query_string instance) ->
         es_get w es_document (doc_id_of w es_document main_object)
         = Some main_doc ->
         doc_truthy main_doc = true ->
         exists payload,
           prepared_fields w main_doc main_object affected_fields []
           = Return payload) ->
      delete_reverse_related_documents w main_model es_document instance
        query_string affected_fields q
      = (Return tt,
         q ++ flat_map (reverse_delete_update w es_document affected_fields)
                (objects_filter w main_model query_string instance))).
Proof.
  unfold delete_reverse_related_documents, reverse_delete_children. split.
  - destruct instance as [| | | | |o];
      try apply delete_reverse_others_added.
    destruct (is_one_of o [Person]
              && ESDocument_is es_document PersonDocument);
      [apply delete_reverse_parent_added|].
    destruct (is_one_of o [Docket]
              && ESDocument_is es_document DocketDocument);
      [apply delete_reverse_parent_added|].
    apply delete_reverse_others_added.
  - intros Hother Hreturns.
    destruct instance as [| | | | |o];
      try now apply delete_reverse_others_tasks.
    specialize (Hother o eq_refl).
    destruct (is_one_of o [Person]
              && ESDocument_is es_document PersonDocument);
      [discriminate Hother|].
    destruct (is_one_of o [Docket]
              && ESDocument_is es_document DocketDocument);
      [discriminate Hother|].
    now apply delete_reverse_others_tasks.
Qed.

Lemma delete_reverse_never_creates_witness :
  delete_reverse_related_documents Examples.docket_recordings_world Audio
    AudioDocument (VObj Examples.case_docket) "docket" ["panel_ids"] []
  = (Return tt, [update_document_in_es_delay Examples.recording_doc []]).
Proof.
  apply (proj2 (delete_reverse_never_creates
                  Examples.docket_recordings_world Audio AudioDocument
                  (VObj Examples.case_docket) "docket" ["panel_ids"] [])).
  - intros o [= <-]. reflexivity.
  - intros main_object main_doc [<- | [<- | []]] Hget _.
    + eexists. reflexivity.
    + discriminate Hget.
Defined.

(** X20: the handler of saved reverse relations does not catch a stale
    relation: when the lookup path of the first entry leads to a row that is
    gone, ObjectDoesNotExist leaves the handler and nothing has been
    enqueued -- where the reverse-delete handler returns quietly. *)
Theorem handle_reverse_actions_stale_raises (w : World)
  (self : ESSignalProcessor) (sender : ModelClass) (instance : Entity)
  (query_string : string) (fields_map : ReverseMap)
  (rest : Dict.t ReverseMap) (affected_fields : list string)
  (q : list Task) :
  ELASTICSEARCH_DISABLED w = false ->
  by_sender (reverse (documents_model_mapping self)) sender
  = Return ((query_string, fields_map) :: rest) ->
  affected_fields_of w (VObj instance) fields_map = Return affected_fields ->
  getattr w instance (Str.last_lookup query_string) = RelatedGone ->
  handle_reverse_actions w self sender instance q
  = (Raise ObjectDoesNotExist, q).
Proof.
  intros Hon Hmap Hfields Hstale.
  unfold handle_reverse_actions, elasticsearch_enabled.
  rewrite Hon, Hmap, bind_lift_return.
  simpl for_each. unfold bind at 1.
  rewrite Hfields, bind_lift_return, Hstale. reflexivity.
Qed.

Lemma handle_reverse_actions_stale_raises_witness :
  handle_reverse_actions Examples.stale_world Examples.saved_group_processor
    Examples.Citation Examples.citation []
  = (Raise ObjectDoesNotExist, []).
Proof.
  apply (handle_reverse_actions_stale_raises Examples.stale_world
           Examples.saved_group_processor Examples.Citation
           Examples.citation "opinion__cluster" [(VStr "all", ["citation"])]
           [("cluster", [(VStr "all", ["citation"])])] ["citation"] []);
    reflexivity.
Defined.

(** X21: the reverse-delete handler rebinds its instance entry by entry.
    As long as no relation is stale, it runs one cascade per entry of the
    mapping, in order, and each cascade works on what the lookup paths of
    the entries so far resolved to, one after the other: the path of an
    entry is followed from the instance the entry before it resolved, not
    from the instance the signal delivered. *)
Theorem reverse_delete_loop_rebinds (w : World) (self : ESSignalProcessor)
  (mapping_fields : Dict.t ReverseMap) :
  forall (instance : Value)
         (cascades : list (string * list string * Value)) (q : list Task),
    reverse_delete_cascades w mapping_fields instance = Some cascades ->
    reverse_delete_loop w self mapping_fields instance q
    = for_each cascades
        (fun '(query_string, affected_fields, resolved) =>
           delete_reverse_related_documents w (main_model self)
             (es_document self) resolved query_string affected_fields) q.
Proof.
  induction mapping_fields as [|[query_string fields_map] rest IH];
    intros instance cascades q; simpl.
  - intros [= <-]. reflexivity.
  - unfold bind at 1, lift.
    destruct (affected_fields_of w instance fields_map)
      as [affected_fields|e]; [|discriminate].
    destruct (getattr_of w instance (Str.last_lookup query_string))
      as [related| |]; [| |discriminate].
    + destruct (reverse_delete_cascades w rest related) as [tail|] eqn:Htail;
        [|discriminate].
      intros [= <-]. simpl for_each. unfold bind.
      destruct (delete_reverse_related_documents w (main_model self)
                  (es_document self) related query_string affected_fields q)
        as [[[]|e] q']; [now apply IH | reflexivity].
    + destruct (reverse_delete_cascades w rest instance) as [tail|]
        eqn:Htail; [|discriminate].
      intros [= <-]. simpl for_each. unfold bind.
      destruct (delete_reverse_related_documents w (main_model self)
                  (es_document self) instance query_string affected_fields q)
        as [[[]|e] q']; [now apply IH | reflexivity].
Qed.

Lemma reverse_delete_loop_rebinds_witness :
  reverse_delete_loop Examples.chain_world Examples.group_processor
    Examples.citation_rules (VObj Examples.citation) []
  = for_each
      [ ("opinion__cluster", ["citation"], VObj Examples.case_cluster);
        ("cluster", ["citation"], VObj Examples.parent_cluster) ]
      (fun '(query_string, affected_fields, resolved) =>
         delete_reverse_related_documents Examples.chain_world
           (main_model Examples.group_processor)
           (es_document Examples.group_processor) resolved query_string
           affected_fields) [].
Proof.
  apply (reverse_delete_loop_rebinds Examples.chain_world
           Examples.group_processor Examples.citation_rules
           (VObj Examples.citation)). reflexivity.
Defined.

(** *** Registration *)

Lemma in_connect_signals (models : list ModelClass) (handler : Receiver)
  (sig : Signal) (uid_base : string) (wk : bool) (c : Connection) :
  In c (connect_signals models handler [(sig, uid_base)] wk) ->
  signal c = sig /\ receiver c = handler /\ weak c = wk
  /\ In (connected_sender c) models
  /\ dispatch_uid c
     = (uid_base ++ "_" ++ Str.lower (class_name (connected_sender c)))%string.
Proof.
  unfold connect_signals. rewrite in_flat_map.
  intros (model & Hmodel & [<- | []]). simpl. auto.
Qed.

Lemma connect_signals_length (models : list ModelClass) (handler : Receiver)
  (sig : Signal) (uid_base : string) (wk : bool) :
  length (connect_signals models handler [(sig, uid_base)] wk)
  = length models.
Proof.
  unfold connect_signals.
  induction models as [|model rest IH]; [reflexivity|].
  cbn [flat_map map length app]. now f_equal.
Qed.

Lemma string_length_append (a b : string) :
  String.length (a ++ b) = (String.length a + String.length b)%nat.
Proof. induction a; simpl; congruence. Qed.

Lemma string_append_assoc (a b c : string) :
  ((a ++ b) ++ c = a ++ (b ++ c))%string.
Proof. induction a; simpl; congruence. Qed.

Lemma string_append_nil_r (a : string) : (a ++ "")%string = a.
Proof. induction a; simpl; congruence. Qed.

Lemma string_append_inv_tail (a b c : string) :
  (a ++ c = b ++ c)%string -> a = b.
Proof.
  revert b; induction a as [|x a IH]; intros [|y b] Heq; simpl in Heq.
  - reflexivity.
  - apply (f_equal String.length) in Heq. simpl in Heq.
    rewrite string_length_append in Heq. lia.
  - apply (f_equal String.length) in Heq. simpl in Heq.
    rewrite string_length_append in Heq. lia.
  - injection Heq as -> Heq. f_equal. now apply IH.
Qed.

(** The section a connection of [setup] was made for. *)
Lemma in_setup (self : ESSignalProcessor) (c : Connection) :
  In c (setup self) ->
  let main := Str.lower (class_name (main_model self)) in
  let name := Str.lower (class_name (connected_sender c)) in
  weak c = false
  /\ ((signal c = post_save /\ receiver c = self_handle_save
       /\ In (connected_sender c)
            (senders (save (documents_model_mapping self)))
       /\ dispatch_uid c
          = ("update_related_" ++ main ++ "_documents_in_es_index"
             ++ "_" ++ name)%string)
      \/ (signal c = post_delete /\ receiver c = self_handle_delete
          /\ In (connected_sender c)
               (senders (delete (documents_model_mapping self)))
          /\ dispatch_uid c
             = ("remove_" ++ main ++ "_from_es_index" ++ "_" ++ name)%string)
      \/ (signal c = m2m_changed /\ receiver c = self_handle_m2m
          /\ In (connected_sender c)
               (senders (m2m (documents_model_mapping self)))
          /\ dispatch_uid c
             = ("update_" ++ main ++ "_m2m_in_es_index" ++ "_" ++ name)%string)
      \/ (signal c = post_save /\ receiver c = self_handle_reverse_actions
          /\ In (connected_sender c)
               (senders (reverse (documents_model_mapping self)))
          /\ dispatch_uid c
             = ("update_reverse_related_" ++ main ++ "_on_save"
                ++ "_" ++ name)%string)
      \/ (signal c = post_delete
          /\ receiver c = self_handle_reverse_actions_delete
          /\ In (connected_sender c)
               (senders (reverse_delete (documents_model_mapping self)))
          /\ dispatch_uid c
             = ("update_reverse_related_" ++ main ++ "_on_delete"
                ++ "_" ++ name)%string)).
Proof.
  unfold setup. cbv zeta. rewrite !in_app_iff.
  intros [H | [H | [H | [H | H]]]];
    apply in_connect_signals in H;
    destruct H as (Hsig & Hrec & Hweak & Hin & Huid);
    (split; [exact Hweak|]);
    rewrite Huid, !string_append_assoc;
    [ left | right; left | right; right; left
    | right; right; right; left | right; right; right; right ];
    repeat split; assumption.
Qed.

(** X22: among the connections one processor makes, the dispatch uid tells
    the handlers apart on each signal: two connections on the same signal
    with the same uid are wired to the same handler.  The save and the
    reverse sections share post_save, the delete and the reverse-delete
    sections share post_delete; their uid bases differ. *)
Theorem setup_uid_tells_receivers_apart (self : ESSignalProcessor)
  (c1 c2 : Connection) :
  In c1 (setup self) -> In c2 (setup self) ->
  signal c1 = signal c2 ->
  dispatch_uid c1 = dispatch_uid c2 ->
  receiver c1 = receiver c2.
Proof.
  intros H1 H2 Hsig Huid.
  apply in_setup in H1, H2. cbv zeta in H1, H2.
  destruct H1 as [_ H1], H2 as [_ H2].
  destruct H1 as [H1 | [H1 | [H1 | [H1 | H1]]]];
    destruct H1 as (Hs1 & -> & _ & Hu1);
    destruct H2 as [H2 | [H2 | [H2 | [H2 | H2]]]];
    destruct H2 as (Hs2 & -> & _ & Hu2);
    try reflexivity;
    try (rewrite Hs1, Hs2 in Hsig; discriminate Hsig);
    rewrite Hu1, Hu2 in Huid; simpl in Huid; discriminate Huid.
Qed.

Lemma setup_uid_tells_receivers_apart_witness :
  receiver
    {| signal := post_save; receiver := self_handle_save;
       connected_sender := Person;
       dispatch_uid :=
         "update_related_position_documents_in_es_index_person";
       weak := false |}
  = self_handle_save.
Proof.
  apply (setup_uid_tells_receivers_apart Examples.position_processor
           {| signal := post_save; receiver := self_handle_save;
              connected_sender := Person;
              dispatch_uid :=
                "update_related_position_documents_in_es_index_person";
              weak := false |}
           {| signal := post_save; receiver := self_handle_save;
              connected_sender := Person;
              dispatch_uid :=
                "update_related_position_documents_in_es_index_person";
              weak := false |});
    try reflexivity; now left.
Defined.

(** X23: the dispatch uid carries the primary model: when two processors
    connect the same handler for the same sender under the same uid, their
    primary models have the same lower-cased name.  Processors of primary
    models with different names never collide on a uid. *)
Theorem setup_uid_carries_main_model (self1 self2 : ESSignalProcessor)
  (c1 c2 : Connection) :
  In c1 (setup self1) -> In c2 (setup self2) ->
  receiver c1 = receiver c2 ->
  connected_sender c1 = connected_sender c2 ->
  dispatch_uid c1 = dispatch_uid c2 ->
  Str.lower (class_name (main_model self1))
  = Str.lower (class_name (main_model self2)).
Proof.
  intros H1 H2 Hrec Hsender Huid.
  apply in_setup in H1, H2. cbv zeta in H1, H2.
  destruct H1 as [_ H1], H2 as [_ H2].
  rewrite Hsender in H1.
  destruct H1 as [H1 | [H1 | [H1 | [H1 | H1]]]];
    destruct H1 as (_ & Hr1 & _ & Hu1);
    destruct H2 as [H2 | [H2 | [H2 | [H2 | H2]]]];
    destruct H2 as (_ & Hr2 & _ & Hu2);
    rewrite Hr1, Hr2 in Hrec; try discriminate Hrec;
    rewrite Hu1, Hu2 in Huid;
    simpl in Huid; injection Huid as Huid;
    now apply string_append_inv_tail in Huid.
Qed.

Lemma setup_uid_carries_main_model_witness :
  Str.lower (class_name (main_model Examples.position_processor))
  = Str.lower (class_name (main_model Examples.position_processor)).
Proof.
  apply (setup_uid_carries_main_model Examples.position_processor
           Examples.position_processor
           {| signal := post_save; receiver := self_handle_save;
              connected_sender := Person;
              dispatch_uid :=
                "update_related_position_documents_in_es_index_person";
              weak := false |}
           {| signal := post_save; receiver := self_handle_save;
              connected_sender := Person;
              dispatch_uid :=
                "update_related_position_documents_in_es_index_person";
              weak := false |});
    try reflexivity; now left.
Defined.

Lemma connect_signals_one_signal (models : list ModelClass)
  (handler : Receiver) (sig : Signal) (uid_base : string) (wk : bool) :
  connect_signals models handler [(sig, uid_base)] wk
  = map (fun model =>
           {| signal := sig;
              receiver := handler;
              connected_sender := model;
              dispatch_uid :=
                (uid_base ++ "_" ++ Str.lower (class_name model))%string;
              weak := wk |})
      models.
Proof.
  unfold connect_signals.
  induction models as [|model rest IH]; [reflexivity|].
  cbn [flat_map map app]. now f_equal.
Qed.

(** X24: building a processor makes exactly one connection per sender of
    each of the five sections, section after section and sender after
    sender: each sender of a section is wired, as itself, to the handler of
    that section on the signal of that section -- save to handle_save on
    post_save, delete to handle_delete on post_delete, m2m to handle_m2m on
    m2m_changed, reverse to handle_reverse_actions on post_save,
    reverse-delete to handle_reverse_actions_delete on post_delete -- under
    the uid of the section, the primary model and the sender, as a strong
    reference (weak=False).  Nothing else is connected. *)
Theorem setup_one_connection_per_sender (self : ESSignalProcessor) :
  let mapping := documents_model_mapping self in
  let main := Str.lower (class_name (main_model self)) in
  let connection sig handler uid_base sender :=
    {| signal := sig;
       receiver := handler;
       connected_sender := sender;
       dispatch_uid :=
         (uid_base ++ "_" ++ Str.lower (class_name sender))%string;
       weak := false |} in
  setup self
  = map (connection post_save self_handle_save
           ("update_related_" ++ main ++ "_documents_in_es_index")%string)
      (senders (save mapping))
    ++ map (connection post_delete self_handle_delete
              ("remove_" ++ main ++ "_from_es_index")%string)
         (senders (delete mapping))
    ++ map (connection m2m_changed self_handle_m2m
              ("update_" ++ main ++ "_m2m_in_es_index")%string)
         (senders (m2m mapping))
    ++ map (connection post_save self_handle_reverse_actions
              ("update_reverse_related_" ++ main ++ "_on_save")%string)
         (senders (reverse mapping))
    ++ map (connection post_delete self_handle_reverse_actions_delete
              ("update_reverse_related_" ++ main ++ "_on_delete")%string)
         (senders (reverse_delete mapping))
  /\ length (setup self)
     = (length (save mapping) + length (delete mapping)
        + length (m2m mapping) + length (reverse mapping)
        + length (reverse_delete mapping))%nat.
Proof.
  cbv zeta. split.
  - unfold setup. cbv zeta. now rewrite !connect_signals_one_signal.
  - unfold setup. cbv zeta.
    rewrite !length_app, !connect_signals_length.
    unfold senders. rewrite !length_map. lia.
Qed.

(** ** Properties of the field queries *)

Section Splitting.

Import SearchUtils.

Lemma rev_acc_app (s acc : string) :
  Str.rev_acc s acc = (Str.rev_acc s EmptyString ++ acc)%string.
Proof.
  revert acc; induction s as [|c s IH]; intro acc; simpl; [reflexivity|].
  rewrite IH. rewrite (IH (String c EmptyString)).
  now rewrite string_append_assoc.
Qed.

Lemma rev_rev_acc (s acc : string) :
  Str.rev (Str.rev_acc s acc) = (Str.rev acc ++ s)%string.
Proof.
  revert acc; induction s as [|c s IH]; intro acc; simpl.
  - unfold Str.rev. induction (Str.rev_acc acc EmptyString); simpl; congruence.
  - rewrite IH. unfold Str.rev. simpl.
    rewrite (rev_acc_app acc). now rewrite string_append_assoc.
Qed.

Lemma every_app (test : ascii -> bool) (a b : string) :
  every test (a ++ b) = every test a && every test b.
Proof.
  induction a as [|c a IH]; simpl; [reflexivity|].
  now rewrite IH, andb_assoc.
Qed.

Lemma every_rev_acc (test : ascii -> bool) (s acc : string) :
  every test (Str.rev_acc s acc) = every test s && every test acc.
Proof.
  revert acc; induction s as [|c s IH]; intro acc; simpl; [reflexivity|].
  rewrite IH. simpl. now rewrite andb_assoc, (andb_comm (every test s)),
    <- andb_assoc.
Qed.

Lemma every_weaken (test1 test2 : ascii -> bool) (s : string) :
  (forall c, test1 c = true -> test2 c = true) ->
  every test1 s = true -> every test2 s = true.
Proof.
  intro Himp. induction s as [|c s IH]; simpl; [reflexivity|].
  rewrite !andb_true_iff. intros [Hc Hs]. auto.
Qed.

(** Whatever [split] returns is a run, free of whitespace and not empty, of
    characters that pass every test the text and the pending word pass. *)
Lemma split_tokens (test : ascii -> bool) (s : string) :
  every test s = true ->
  forall word,
    match word with
    | Some acc => acc <> EmptyString /\ every test acc = true
                  /\ every (fun c => negb (is_space c)) acc = true
    | None => True
    end ->
    Forall (fun token =>
              token <> EmptyString /\ every test token = true
              /\ every (fun c => negb (is_space c)) token = true)
      (split s word).
Proof.
  induction s as [|c s IH]; simpl.
  - intros _ [acc|] Hword; [|constructor].
    destruct Hword as (Hne & Htest & Hspace).
    constructor; [|constructor].
    unfold Str.rev. rewrite !every_rev_acc, Htest, Hspace.
    repeat split; try reflexivity.
    destruct acc; [congruence|]. simpl.
    rewrite rev_acc_app. now destruct (Str.rev_acc acc EmptyString).
  - rewrite andb_true_iff. intros [Hc Hs] word Hword.
    destruct (is_space c) eqn:Hspace.
    + destruct word as [acc|]; [|now apply IH].
      destruct Hword as (Hne & Htest & Hfree).
      constructor; [|now apply IH].
      unfold Str.rev. rewrite !every_rev_acc, Htest, Hfree.
      repeat split; try reflexivity.
      destruct acc; [congruence|]. simpl.
      rewrite rev_acc_app. now destruct (Str.rev_acc acc EmptyString).
    + apply IH; [assumption|].
      split; [discriminate|]. simpl. rewrite Hc, Hspace. simpl.
      destruct word as [acc|]; [|now split].
      destruct Hword as (_ & Htest & Hfree). now split.
Qed.

Lemma blank_solr_tokens_free (s : string) :
  every (fun c => negb (solr_token c)) (blank_solr_tokens s) = true.
Proof.
  induction s as [|c s IH]; simpl; [reflexivity|].
  rewrite IH, andb_true_r.
  destruct (solr_token c) eqn:Htoken; [reflexivity | now rewrite Htoken].
Qed.

(** Reading a run that has no whitespace only extends the pending word. *)
Lemma split_run (token rest : string) :
  every (fun c => negb (is_space c)) token = true ->
  forall acc,
    split (token ++ rest) (Some acc)
    = split rest (Some (Str.rev_acc token acc)).
Proof.
  induction token as [|c token IH]; simpl; [reflexivity|].
  rewrite andb_true_iff, negb_true_iff. intros [-> Hrest] acc.
  now apply IH.
Qed.

Lemma split_run_start (token rest : string) :
  token <> EmptyString ->
  every (fun c => negb (is_space c)) token = true ->
  split (token ++ rest) None
  = split rest (Some (Str.rev_acc token EmptyString)).
Proof.
  destruct token as [|c token]; [congruence|]. intros _. simpl.
  rewrite andb_true_iff, negb_true_iff. intros [-> Hrest].
  now apply split_run.
Qed.

(** Splitting on whitespace undoes joining with single spaces. *)
Lemma split_concat (tokens : list string) :
  Forall (fun token =>
            token <> EmptyString
            /\ every (fun c => negb (is_space c)) token = true) tokens ->
  split (String.concat " " tokens) None = tokens.
Proof.
  induction 1 as [|token rest [Hne Hfree] Hrest IH]; [reflexivity|].
  destruct rest as [|next rest].
  - simpl String.concat. rewrite <- (string_append_nil_r token) at 1.
    rewrite split_run_start by assumption. simpl.
    rewrite rev_rev_acc. reflexivity.
  - change (String.concat " " (token :: next :: rest))
      with (token ++ " " ++ String.concat " " (next :: rest))%string.
    rewrite split_run_start by assumption.
    change (" " ++ String.concat " " (next :: rest))%string
      with (String " " (String.concat " " (next :: rest))).
    cbn [split]. change (is_space " ") with true. cbv iota.
    rewrite rev_rev_acc. simpl append. f_equal. exact IH.
Qed.

End Splitting.

Section Proximity.

Import SearchUtils.

Lemma proximity_tokens_clean (value : string) :
  Forall (fun token => clean_token token = true) (proximity_tokens value).
Proof.
  unfold proximity_tokens.
  pose proof (split_tokens (fun c => negb (solr_token c))
                (blank_solr_tokens value) (blank_solr_tokens_free value)
                None I) as Htokens.
  induction Htokens as [|token rest (Hne & Hfree & Hspace) _ IH]; simpl;
    [constructor|].
  destruct (solr_word token) eqn:Hword; simpl; [exact IH|].
  constructor; [|exact IH].
  unfold clean_token. rewrite Hword.
  apply String.eqb_neq in Hne. rewrite Hne. simpl. rewrite andb_true_r.
  clear - Hfree Hspace.
  induction token as [|c token IH]; simpl in *; [reflexivity|].
  apply andb_true_iff in Hfree, Hspace.
  destruct Hfree as [-> Hfree], Hspace as [-> Hspace]. simpl. auto.
Qed.

Lemma blank_solr_tokens_id (s : string) :
  every (fun c => negb (solr_token c)) s = true -> blank_solr_tokens s = s.
Proof.
  induction s as [|c s IH]; simpl; [reflexivity|].
  rewrite andb_true_iff, negb_true_iff. intros [-> Hs]. now rewrite IH.
Qed.

Lemma concat_free_of_solr_tokens (tokens : list string) :
  Forall (fun token => clean_token token = true) tokens ->
  every (fun c => negb (solr_token c)) (String.concat " " tokens) = true.
Proof.
  induction 1 as [|token rest Hclean Hrest IH]; [reflexivity|].
  assert (Htoken : every (fun c => negb (solr_token c)) token = true).
  { unfold clean_token in Hclean.
    apply andb_true_iff in Hclean. destruct Hclean as [Hclean _].
    apply andb_true_iff in Hclean. destruct Hclean as [_ Hclean].
    revert Hclean. apply every_weaken.
    intros c Hc. apply andb_true_iff in Hc. tauto. }
  destruct rest as [|next rest]; [exact Htoken|].
  change (String.concat " " (token :: next :: rest))
    with (token ++ " " ++ String.concat " " (next :: rest))%string.
  rewrite !every_app, Htoken, IH. reflexivity.
Qed.

Lemma proximity_tokens_concat (tokens : list string) :
  Forall (fun token => clean_token token = true) tokens ->
  proximity_tokens (String.concat " " tokens) = tokens.
Proof.
  intro Hclean. unfold proximity_tokens.
  rewrite blank_solr_tokens_id by now apply concat_free_of_solr_tokens.
  rewrite split_concat.
  - induction Hclean as [|token rest Htoken _ IH]; [reflexivity|].
    simpl. unfold clean_token in Htoken.
    apply andb_true_iff in Htoken. destruct Htoken as [_ Hword].
    rewrite Hword. now f_equal.
  - revert Hclean. apply Forall_impl. intros token Htoken.
    unfold clean_token in Htoken.
    apply andb_true_iff in Htoken. destruct Htoken as [Htoken _].
    apply andb_true_iff in Htoken. destruct Htoken as [Hne Hevery].
    split.
    + apply negb_true_iff in Hne. now apply String.eqb_neq.
    + revert Hevery. apply every_weaken.
      intros c Hc. apply andb_true_iff in Hc. tauto.
Qed.

End Proximity.

(** X25: the citation-count filter is left out exactly when both bounds are
    open, and a bound is open when it is absent, None, empty -- or zero: a
    count of 0 given as a bound is treated as no bound at all. *)
Theorem make_cite_count_query_open_bounds (cd : SearchUtils.CleanData) :
  SearchUtils.make_cite_count_query cd = ""
  <-> SearchUtils.open_bound (SearchUtils.get cd "cited_gt")
      /\ SearchUtils.open_bound (SearchUtils.get cd "cited_lt").
Proof.
  unfold SearchUtils.make_cite_count_query, SearchUtils.open_bound.
  assert (Hstar : forall v,
            SearchUtils.is_star
              (if SearchUtils.truthy v then v else SearchUtils.FStr "*")
            = true
            <-> SearchUtils.truthy v = false \/ v = SearchUtils.FStr "*").
  { intro v. destruct (SearchUtils.truthy v) eqn:Htruthy.
    - destruct v as [| | |s]; simpl;
        try (split; [discriminate | intros [H | H]; discriminate H]).
      rewrite String.eqb_eq. split.
      + intros ->. now right.
      + intros [H | [= ->]]; [discriminate | reflexivity].
    - simpl. split; [now left | reflexivity]. }
  rewrite <- !Hstar.
  destruct (SearchUtils.is_star _); destruct (SearchUtils.is_star _); simpl;
    split; try tauto; try discriminate; intros [H1 H2]; discriminate.
Qed.

(** X26: whatever citation a user types, the tokens that reach the
    proximity query are clean: none is empty, none contains whitespace or one
    of the characters the query language gives a meaning to, and none is one
    of its reserved words AND, OR, NOT and TO. *)
Theorem make_fq_proximity_query_tokens (cd : SearchUtils.CleanData)
  (field key value : string) :
  Dict.get cd key = Some (SearchUtils.FStr value) ->
  exists tokens,
    SearchUtils.make_fq_proximity_query cd field key
    = SearchUtils.Ok
        (field ++ ":(" ++ SearchUtils.quote ++ String.concat " " tokens
         ++ SearchUtils.quote ++ "~5)")%string
    /\ Forall (fun token => SearchUtils.clean_token token = true) tokens.
Proof.
  intro Hget. exists (SearchUtils.proximity_tokens value). split.
  - unfold SearchUtils.make_fq_proximity_query. now rewrite Hget.
  - apply proximity_tokens_clean.
Qed.

Lemma make_fq_proximity_query_tokens_witness :
  exists tokens,
    SearchUtils.make_fq_proximity_query
      [("citation", SearchUtils.FStr "22 U.S. (44) AND x")] "citation"
      "citation"
    = SearchUtils.Ok
        ("citation" ++ ":(" ++ SearchUtils.quote ++ String.concat " " tokens
         ++ SearchUtils.quote ++ "~5)")%string
    /\ Forall (fun token => SearchUtils.clean_token token = true) tokens.
Proof.
  apply (make_fq_proximity_query_tokens
           [("citation", SearchUtils.FStr "22 U.S. (44) AND x")] "citation"
           "citation" "22 U.S. (44) AND x").
  reflexivity.
Defined.

(** X27: the normalisation of a citation is idempotent: clean tokens joined
    by single spaces come back as they are, so normalising what was
    normalised changes nothing. *)
Theorem proximity_tokens_idempotent (value : string) (tokens : list string) :
  (Forall (fun token => SearchUtils.clean_token token = true) tokens ->
   SearchUtils.proximity_tokens (String.concat " " tokens) = tokens)
  /\ SearchUtils.proximity_tokens
       (String.concat " " (SearchUtils.proximity_tokens value))
     = SearchUtils.proximity_tokens value.
Proof.
  split.
  - apply proximity_tokens_concat.
  - apply proximity_tokens_concat, proximity_tokens_clean.
Qed.

Section FieldQuery.

Import SearchUtils.

Lemma simple_word_parts (word : string) :
  simple_word word = true ->
  word <> EmptyString
  /\ every (fun c => negb (is_space c)) word = true
  /\ every (fun c => negb (Ascii.eqb c dquote)) word = true
  /\ no_colon word = true.
Proof.
  unfold simple_word, no_colon. rewrite andb_true_iff, negb_true_iff.
  intros [Hne Hevery]. apply String.eqb_neq in Hne.
  split; [exact Hne|].
  repeat split; revert Hevery; apply every_weaken; intros c Hc;
    repeat (apply andb_true_iff in Hc; destruct Hc as [Hc ?]);
    assumption.
Qed.

Lemma replace_colons_id (s : string) :
  no_colon s = true -> replace_colons s = s.
Proof.
  unfold no_colon. induction s as [|c s IH]; simpl; [reflexivity|].
  rewrite andb_true_iff, negb_true_iff. intros [-> Hs]. now rewrite IH.
Qed.

Lemma count_app (a b : string) (c : ascii) :
  count (a ++ b) c = (count a c + count b c)%nat.
Proof. induction a as [|x a IH]; simpl; [reflexivity | rewrite IH; lia]. Qed.

Lemma count_absent (s : string) (c : ascii) :
  every (fun x => negb (Ascii.eqb x c)) s = true -> count s c = 0%nat.
Proof.
  induction s as [|x s IH]; simpl; [reflexivity|].
  rewrite andb_true_iff, negb_true_iff. intros [-> Hs]. now rewrite IH.
Qed.

(** Joined by single spaces, simple words make a text without quotes and
    without colons. *)
Lemma concat_simple_words (words : list string) :
  Forall (fun word => simple_word word = true) words ->
  every (fun c => negb (Ascii.eqb c dquote)) (String.concat " " words) = true
  /\ no_colon (String.concat " " words) = true.
Proof.
  unfold no_colon.
  induction 1 as [|word rest Hword Hrest [IHq IHc]]; [split; reflexivity|].
  apply simple_word_parts in Hword.
  destruct Hword as (_ & _ & Hq & Hc). unfold no_colon in Hc.
  destruct rest as [|next rest]; [now split|].
  change (String.concat " " (word :: next :: rest))
    with (word ++ " " ++ String.concat " " (next :: rest))%string.
  rewrite !every_app, Hq, Hc, IHq, IHc. split; reflexivity.
Qed.

(** Inside a run, characters that are neither whitespace nor anything else
    the scan reacts to only extend the run. *)
Lemma findall_run (word rest : string) :
  every (fun c => negb (is_space c)) word = true ->
  forall acc,
    findall (word ++ rest) (InWord acc)
    = findall rest (InWord (Str.rev_acc word acc)).
Proof.
  induction word as [|c word IH]; simpl; [reflexivity|].
  rewrite andb_true_iff, negb_true_iff. intros [-> Hword] acc.
  now apply IH.
Qed.

Lemma findall_run_start (word rest : string) :
  simple_word word = true ->
  findall (word ++ rest) Between
  = findall rest (InWord (Str.rev_acc word EmptyString)).
Proof.
  intro Hsimple. apply simple_word_parts in Hsimple.
  destruct Hsimple as (Hne & Hspace & Hquote & _).
  destruct word as [|c word]; [congruence|]. simpl in *.
  apply andb_true_iff in Hspace, Hquote.
  destruct Hspace as [Hc Hspace], Hquote as [Hq Hquote].
  apply negb_true_iff in Hc, Hq. rewrite Hc, Hq.
  now apply findall_run.
Qed.

(** Scanning undoes joining with single spaces: each simple word comes back
    as a match of the second group. *)
Lemma findall_concat (words : list string) :
  Forall (fun word => simple_word word = true) words ->
  findall (String.concat " " words) Between
  = map (pair EmptyString) words.
Proof.
  induction 1 as [|word rest Hword Hrest IH]; [reflexivity|].
  destruct rest as [|next rest].
  - simpl String.concat. rewrite <- (string_append_nil_r word) at 1.
    rewrite findall_run_start by assumption. simpl.
    rewrite rev_rev_acc. reflexivity.
  - change (String.concat " " (word :: next :: rest))
      with (word ++ " " ++ String.concat " " (next :: rest))%string.
    rewrite findall_run_start by assumption.
    change (" " ++ String.concat " " (next :: rest))%string
      with (String " " (String.concat " " (next :: rest))).
    cbn [findall]. change (is_space " ") with true. cbv iota.
    rewrite rev_rev_acc. simpl append. cbn [map]. f_equal. exact IH.
Qed.

Lemma contains_space_false (word : string) :
  every (fun c => negb (is_space c)) word = true ->
  contains word " " = false.
Proof.
  intro Hfree. unfold contains. rewrite count_absent; [reflexivity|].
  revert Hfree. apply every_weaken. intros c Hc.
  destruct (Ascii.eqb_spec c " ") as [-> | _]; [discriminate Hc | reflexivity].
Qed.

(** The loop on plain words: a default conjunction before each word but the
    very first. *)
Lemma conjoin_plain (words : list string) :
  Forall (fun word => plain_word word = true) words ->
  forall clean_q,
    conjoin (map (pair EmptyString) words) clean_q true
    = (clean_q
       ++ match clean_q with
          | [] => with_and words
          | _ => flat_map (fun next => ["AND"; next]) words
          end)%list.
Proof.
  induction 1 as [|word rest Hword Hrest IH]; intro clean_q.
  - simpl. now destruct clean_q; rewrite app_nil_r.
  - unfold plain_word in Hword. apply andb_true_iff in Hword.
    destruct Hword as [Hsimple Hconj]. apply negb_true_iff in Hconj.
    pose proof (simple_word_parts word Hsimple) as (Hne & Hspace & _ & _).
    apply String.eqb_neq in Hne.
    cbn [map conjoin fst snd]. cbv zeta.
    change (String.eqb EmptyString EmptyString) with true. cbv iota.
    cbn [negb]. rewrite Hconj, (contains_space_false word Hspace).
    rewrite IH. destruct clean_q as [|first others].
    + simpl. reflexivity.
    + simpl. rewrite <- !app_assoc. simpl. reflexivity.
Qed.

(** After a conjunction of the user's the next word comes without a default
    conjunction. *)
Lemma conjoin_after_conjunction (words : list string) :
  Forall (fun word => plain_word word = true) words ->
  forall clean_q,
    conjoin (map (pair EmptyString) words) clean_q false
    = (clean_q ++ with_and words)%list.
Proof.
  intros Hwords clean_q. destruct Hwords as [|word rest Hword Hrest].
  - simpl. now rewrite app_nil_r.
  - unfold plain_word in Hword. apply andb_true_iff in Hword.
    destruct Hword as [Hsimple Hconj]. apply negb_true_iff in Hconj.
    pose proof (simple_word_parts word Hsimple) as (Hne & Hspace & _ & _).
    cbn [map conjoin fst snd]. cbv zeta.
    change (String.eqb EmptyString EmptyString) with true. cbv iota.
    cbn [negb andb]. rewrite Hconj, (contains_space_false word Hspace).
    rewrite conjoin_plain by assumption.
    destruct clean_q; simpl; now rewrite <- ?app_assoc.
Qed.

(** Plain words followed by more: the loop reaches what follows with the
    plain words conjoined and a default conjunction due. *)
Lemma conjoin_plain_app (words : list string)
  (rest : list (string * string)) :
  Forall (fun word => plain_word word = true) words ->
  words <> [] ->
  forall clean_q,
    conjoin (map (pair EmptyString) words ++ rest) clean_q true
    = conjoin rest
        (clean_q
         ++ match clean_q with
            | [] => with_and words
            | _ => flat_map (fun next => ["AND"; next]) words
            end)%list
        true.
Proof.
  induction 1 as [|word others Hword Hothers IH]; [congruence|].
  intros _ clean_q.
  unfold plain_word in Hword. apply andb_true_iff in Hword.
  destruct Hword as [Hsimple Hconj]. apply negb_true_iff in Hconj.
  pose proof (simple_word_parts word Hsimple) as (Hne & Hspace & _ & _).
  cbn [map app conjoin fst snd]. cbv zeta.
  change (String.eqb EmptyString EmptyString) with true. cbv iota.
  cbn [negb]. rewrite Hconj, (contains_space_false word Hspace).
  destruct others as [|next others].
  - cbn [map app]. destruct clean_q; simpl; now rewrite <- ?app_assoc.
  - rewrite IH by discriminate.
    destruct clean_q; simpl; now rewrite <- ?app_assoc.
Qed.

Lemma concat_with_and (words : list string) :
  String.concat " " (with_and words) = String.concat " AND " words.
Proof.
  destruct words as [|word rest]; [reflexivity|].
  revert word. induction rest as [|next rest IH]; intro word;
    [reflexivity|].
  change (with_and (word :: next :: rest))
    with (word :: "AND" :: with_and (next :: rest)).
  change (String.concat " " (word :: "AND" :: with_and (next :: rest)))
    with (word ++ " " ++ "AND" ++ " "
          ++ String.concat " " (with_and (next :: rest)))%string.
  rewrite IH. reflexivity.
Qed.

(** A text without quotes is not taken for a phrase of the user's. *)
Lemma not_a_phrase (q : string) :
  every (fun c => negb (Ascii.eqb c dquote)) q = true ->
  Str.startswith q quote && Str.endswith q quote
  && (count q dquote =? 2)%nat = false.
Proof.
  intro Hfree. rewrite (count_absent q dquote Hfree). apply andb_false_r.
Qed.

End FieldQuery.

(** X28: words typed without quotes, colons or conjunctions come out with
    AND between each two of them: the field query of w1 w2 .. wn is
    field:(w1 AND w2 AND .. AND wn). *)
Theorem make_fq_inserts_and (cd : SearchUtils.CleanData)
  (field key : string) (words : list string) (slop : Z) :
  Forall (fun word => SearchUtils.plain_word word = true) words ->
  Dict.get cd key = Some (SearchUtils.FStr (String.concat " " words)) ->
  SearchUtils.make_fq cd field key false slop
  = SearchUtils.Ok (field ++ ":(" ++ String.concat " AND " words ++ ")")%string.
Proof.
  intros Hwords Hget.
  assert (Hsimple : Forall (fun word => SearchUtils.simple_word word = true)
                      words).
  { revert Hwords. apply Forall_impl. intros word Hword.
    unfold SearchUtils.plain_word in Hword.
    now apply andb_true_iff in Hword. }
  destruct (concat_simple_words words Hsimple) as [Hquote Hcolon].
  unfold SearchUtils.make_fq. rewrite Hget. cbv zeta.
  rewrite (replace_colons_id _ Hcolon), (not_a_phrase _ Hquote).
  rewrite (findall_concat words Hsimple).
  rewrite (conjoin_plain words Hwords []). simpl app.
  now rewrite concat_with_and.
Qed.

Lemma make_fq_inserts_and_witness :
  SearchUtils.make_fq [("case_name", SearchUtils.FStr "roe v. wade")]
    "caseName" "case_name" false 0
  = SearchUtils.Ok "caseName:(roe AND v. AND wade)".
Proof.
  apply (make_fq_inserts_and
           [("case_name", SearchUtils.FStr "roe v. wade")] "caseName"
           "case_name" ["roe"; "v."; "wade"] 0).
  - repeat constructor.
  - reflexivity.
Defined.

(** X29: a conjunction the user typed -- and, or, not, in any case -- is
    passed on in upper case and takes the place of the default: no AND is
    put before it or after it, while the plain words on either side of it
    still get AND between them. *)
Theorem make_fq_keeps_user_conjunction (cd : SearchUtils.CleanData)
  (field key : string) (before : list string) (conjunction : string)
  (after : list string) (slop : Z) :
  Forall (fun word => SearchUtils.plain_word word = true) before ->
  Forall (fun word => SearchUtils.plain_word word = true) after ->
  SearchUtils.simple_word conjunction = true ->
  SearchUtils.is_conjunction conjunction = true ->
  Dict.get cd key
  = Some (SearchUtils.FStr
            (String.concat " " (before ++ conjunction :: after))) ->
  SearchUtils.make_fq cd field key false slop
  = SearchUtils.Ok
      (field ++ ":("
       ++ String.concat " "
            (SearchUtils.with_and before
             ++ SearchUtils.upper conjunction
                :: SearchUtils.with_and after)
       ++ ")")%string.
Proof.
  intros Hbefore Hafter Hsimple Hconj Hget.
  assert (Hall : Forall (fun word => SearchUtils.simple_word word = true)
                   (before ++ conjunction :: after)).
  { apply Forall_app. split; [|constructor; [assumption|]].
    - revert Hbefore. apply Forall_impl. intros word Hword.
      unfold SearchUtils.plain_word in Hword.
      now apply andb_true_iff in Hword.
    - revert Hafter. apply Forall_impl. intros word Hword.
      unfold SearchUtils.plain_word in Hword.
      now apply andb_true_iff in Hword. }
  destruct (concat_simple_words _ Hall) as [Hquote Hcolon].
  unfold SearchUtils.make_fq. rewrite Hget. cbv zeta.
  rewrite (replace_colons_id _ Hcolon), (not_a_phrase _ Hquote).
  rewrite (findall_concat _ Hall), map_app. cbn [map].
  assert (Hstep : forall clean_q needs,
            SearchUtils.conjoin
              ((EmptyString, conjunction)
               :: map (pair EmptyString) after) clean_q needs
            = (clean_q ++ SearchUtils.upper conjunction
                          :: SearchUtils.with_and after)%list).
  { intros clean_q needs. cbn [SearchUtils.conjoin fst snd]. cbv zeta.
    change (String.eqb EmptyString EmptyString) with true. cbv iota.
    cbn [negb]. rewrite Hconj.
    rewrite conjoin_after_conjunction by assumption.
    now rewrite <- app_assoc. }
  destruct before as [|word others].
  - simpl app. now rewrite Hstep.
  - rewrite conjoin_plain_app by (assumption || discriminate).
    now rewrite Hstep.
Qed.

Lemma make_fq_keeps_user_conjunction_witness :
  SearchUtils.make_fq [("judge", SearchUtils.FStr "hand cardozo Or holmes")]
    "judge" "judge" false 0
  = SearchUtils.Ok "judge:(hand AND cardozo OR holmes)".
Proof.
  apply (make_fq_keeps_user_conjunction
           [("judge", SearchUtils.FStr "hand cardozo Or holmes")] "judge"
           "judge" ["hand"; "cardozo"] "Or" ["holmes"] 0);
    try reflexivity; repeat constructor.
Defined.

Section NoColon.

Import SearchUtils.

Lemma no_colon_replace_colons (s : string) :
  no_colon (replace_colons s) = true.
Proof.
  unfold no_colon. induction s as [|c s IH]; simpl; [reflexivity|].
  rewrite IH, andb_true_r.
  destruct (Ascii.eqb c ":") eqn:Hc; [reflexivity | now rewrite Hc].
Qed.

Lemma no_colon_app (a b : string) :
  no_colon (a ++ b) = no_colon a && no_colon b.
Proof. apply every_app. Qed.

Lemma no_colon_rev (acc : string) : no_colon (Str.rev acc) = no_colon acc.
Proof.
  unfold no_colon, Str.rev. rewrite every_rev_acc. simpl. apply andb_true_r.
Qed.

Lemma no_colon_upper (s : string) :
  no_colon s = true -> no_colon (upper s) = true.
Proof.
  unfold no_colon. induction s as [|c s IH]; simpl; [reflexivity|].
  rewrite !andb_true_iff. intros [Hc Hs]. split; [|now apply IH].
  revert Hc. clear.
  destruct c as [[] [] [] [] [] [] [] []]; vm_compute; congruence.
Qed.

(** The groups of every match are made of characters of the text. *)
Lemma findall_no_colon (s : string) :
  no_colon s = true ->
  forall at_,
    match at_ with
    | Between => True
    | InWord acc | InPhrase acc => no_colon acc = true
    end ->
    Forall (fun group => no_colon (fst group) = true
                         /\ no_colon (snd group) = true)
      (findall s at_).
Proof.
  unfold no_colon at 1. induction s as [|c s IH]; simpl.
  - intros _ [|acc|acc] Hacc; constructor; [|constructor].
    simpl. now rewrite no_colon_rev.
  - rewrite andb_true_iff. intros [Hc Hs] at_ Hacc.
    assert (Hone : no_colon (String c EmptyString) = true)
      by (unfold no_colon; simpl; now rewrite Hc).
    destruct at_ as [|acc|acc].
    + destruct (Ascii.eqb c dquote).
      * destruct (contains s dquote); now apply IH.
      * destruct (is_space c); now apply IH.
    + destruct (is_space c).
      * constructor; [|now apply IH]. simpl. now rewrite no_colon_rev.
      * apply IH; [assumption|].
        unfold no_colon in *. simpl. now rewrite Hc.
    + destruct (Ascii.eqb c dquote).
      * constructor; [|now apply IH]. simpl. now rewrite no_colon_rev.
      * apply IH; [assumption|].
        unfold no_colon in *. simpl. now rewrite Hc.
Qed.

Lemma conjoin_no_colon (words : list (string * string)) :
  Forall (fun group => no_colon (fst group) = true
                       /\ no_colon (snd group) = true) words ->
  forall clean_q needs,
    Forall (fun piece => no_colon piece = true) clean_q ->
    Forall (fun piece => no_colon piece = true)
      (conjoin words clean_q needs).
Proof.
  induction 1 as [|group rest [Hfst Hsnd] Hrest IH]; intros clean_q needs Hq;
    [exact Hq|].
  cbn [conjoin]. cbv zeta.
  set (word := if negb (String.eqb (fst group) "") then fst group
               else snd group).
  assert (Hword : no_colon word = true)
    by (subst word; now destruct (negb (String.eqb (fst group) ""))).
  destruct (is_conjunction word).
  - apply IH. apply Forall_app. split; [exact Hq|].
    constructor; [now apply no_colon_upper | constructor].
  - apply IH. apply Forall_app. split.
    + destruct (needs && match clean_q with [] => false | _ => true end);
        [|exact Hq].
      apply Forall_app. split; [exact Hq | now repeat constructor].
    + constructor; [|constructor].
      destruct (contains word " "); [|exact Hword].
      now rewrite !no_colon_app, Hword.
Qed.

Lemma concat_no_colon (pieces : list string) :
  Forall (fun piece => no_colon piece = true) pieces ->
  no_colon (String.concat " " pieces) = true.
Proof.
  induction 1 as [|piece rest Hpiece Hrest IH]; [reflexivity|].
  destruct rest as [|next rest]; [exact Hpiece|].
  change (String.concat " " (piece :: next :: rest))
    with (piece ++ " " ++ String.concat " " (next :: rest))%string.
  now rewrite !no_colon_app, Hpiece, IH.
Qed.

Lemma no_colon_uint (u : Decimal.uint) :
  no_colon (NilEmpty.string_of_uint u) = true.
Proof. unfold no_colon. induction u; simpl; auto. Qed.

Lemma no_colon_int (z : Z) : no_colon (str (FInt z)) = true.
Proof.
  unfold str, NilZero.string_of_int.
  destruct (Z.to_int z) as [u|u]; unfold NilZero.string_of_uint.
  - destruct u; try apply no_colon_uint; reflexivity.
  - change (no_colon ("-" ++ match u with
                             | Decimal.Nil => "0"
                             | _ => NilEmpty.string_of_uint u
                             end)%string = true).
    rewrite no_colon_app. simpl.
    destruct u; try apply no_colon_uint; reflexivity.
Qed.

End NoColon.

(** X30: no colon of the user's reaches the query: for any text, with or
    without the phrase option, the field query is the field, one colon, and
    a parenthesised body in which there is no colon.  What a user types can
    never address a field of its own. *)
Theorem make_fq_body_has_no_colon (cd : SearchUtils.CleanData)
  (field key q : string) (make_phrase : bool) (slop : Z) :
  Dict.get cd key = Some (SearchUtils.FStr q) ->
  exists body,
    SearchUtils.make_fq cd field key make_phrase slop
    = SearchUtils.Ok (field ++ ":(" ++ body ++ ")")%string
    /\ SearchUtils.no_colon body = true.
Proof.
  intro Hget. unfold SearchUtils.make_fq. rewrite Hget. cbv zeta.
  pose proof (no_colon_replace_colons q) as Hq.
  destruct (Str.startswith _ _ && Str.endswith _ _ && (_ =? 2)%nat).
  - eexists. split; [reflexivity | exact Hq].
  - destruct make_phrase.
    + exists (SearchUtils.quote ++ SearchUtils.replace_colons q
              ++ SearchUtils.quote ++ "~"
              ++ SearchUtils.str (SearchUtils.FInt slop))%string.
      split.
      * now rewrite !string_append_assoc.
      * now rewrite !no_colon_app, Hq, no_colon_int.
    + eexists. split; [reflexivity|].
      apply concat_no_colon, conjoin_no_colon; [|constructor].
      now apply findall_no_colon.
Qed.

Lemma make_fq_body_has_no_colon_witness :
  exists body,
    SearchUtils.make_fq
      [("docket_number", SearchUtils.FStr "1:21-bk-1234")] "docketNumber"
      "docket_number" true 1
    = SearchUtils.Ok ("docketNumber" ++ ":(" ++ body ++ ")")%string
    /\ SearchUtils.no_colon body = true.
Proof.
  apply (make_fq_body_has_no_colon
           [("docket_number", SearchUtils.FStr "1:21-bk-1234")]
           "docketNumber" "docket_number" "1:21-bk-1234" true 1).
  reflexivity.
Defined.
